(** * TxtClassify: first-letter classification of random words from a CRC-8 feature

    A shallow embedding of [src/TxtClassify.py].  The script draws random
    lowercase words, turns each word into one number (its CRC-8 checksum),
    and trains a small network to recover the first letter from it.

    Conventions of the embedding
    - Python floats and float32 tensor entries are idealised as real
      numbers [R]; a 2-D tensor is the list of its rows, as built by
      [torch.FloatTensor] from a list of lists (the empty list is the 1-D
      tensor of size 0, whose last dimension is 0).
    - Python [int]s that are counts or sizes are [nat]; those that come out
      of arithmetic on characters or out of the random generator are [Z].
    - Exceptions are values of [exn]; every function that can raise or that
      touches the interpreter state (the two random generators, the file
      system, standard output) lives in the monad [Py].
    - The random generators are tapes that the environment supplies: the
      theorems hold for every tape. *)

From Stdlib Require Import ZArith List Reals Lra Lia Bool.
From stdpp Require Import gmap strings.
Import ListNotations.

Local Open Scope Z_scope.

(** ** Exceptions and results *)

(** The place in the network where a tensor shape is rejected. *)
Inductive stage : Set :=
| AtLayer1 | AtBatchNorm | AtConv | AtLayer2 | AtLoss.

Inductive exn : Set :=
| ShapeError (s : stage)     (* RuntimeError / ValueError raised on a tensor's shape *)
| TargetOutOfBounds          (* IndexError of cross_entropy *)
| ValueError                 (* randint with bad bounds, chr out of range, max of nothing *)
| TypeError                  (* ord of a string whose length is not 1 *)
| IndexError                 (* x[0] on an empty string *)
| ZeroDivisionError
| UnicodeEncodeError
| FileNotFoundError
| StateDictError             (* RuntimeError of load_state_dict *)
| RuntimeError.              (* backward on a tensor that is not a scalar *)

Inductive result (A : Type) : Type :=
| Ok (a : A)
| Raise (e : exn).
Arguments Ok {A} a.
Arguments Raise {A} e.

(** ** Tensors *)

Definition vector := list R.
Definition matrix := list (list R).

(** A value stored in a state dict: the step counter of the normalisation
    layer is an integer tensor of rank 0, the others have rank 1 to 3. *)
Inductive tensor : Type :=
| T0 (n : Z)
| T1 (v : vector)
| T2 (m : matrix)
| T3 (t : list matrix).

(** Python strings are sequences of Unicode code points. *)
Definition str := list Z.

(** What [print] writes; the formatting of the numbers is left out. *)
Inductive line : Type :=
| EvalLine (correct : nat) (accuracy : R)
| EpochLine (epoch : nat) (mean_loss : R)
| LogLine (log : list (R * R))
| SampleLine (words : list str) (crclabels : list (list Z)) (labels : list Z)
| PredictLine (word : str) (predicted : str) (probability : R) (actual : str)
| PlotLine (label : string) (xs : list nat) (ys : list R)   (* plt.plot *)
| ShowPlot.                                                  (* plt.legend, plt.show *)

(** ** The interpreter state *)

Record world : Type := {
  np_tape : nat -> Z;          (* raw draws of numpy's generator *)
  np_pos : nat;
  torch_unif : nat -> R;       (* draws used to initialise parameters *)
  torch_bern : nat -> bool;    (* keep-bits used by dropout *)
  torch_pos : nat;
  files : gmap string (gmap string tensor);
  stdout : list line
}.

Definition Py (A : Type) : Type := world -> result (A * world).

Definition ret {A} (a : A) : Py A := fun w => Ok (a, w).
Definition raise {A} (e : exn) : Py A := fun _ => Raise e.
Definition bind {A B} (c : Py A) (k : A -> Py B) : Py B :=
  fun w => match c w with
           | Ok (a, w') => k a w'
           | Raise e => Raise e
           end.
Definition lift {A} (r : result A) : Py A :=
  fun w => match r with Ok a => Ok (a, w) | Raise e => Raise e end.

Declare Scope py_scope.
Delimit Scope py_scope with py.
Notation "x <- c ;; k" := (bind c (fun x => k))
  (at level 100, c at next level, right associativity) : py_scope.
Notation "c ;;; k" := (bind c (fun _ => k))
  (at level 100, right associativity) : py_scope.
Local Open Scope py_scope.

Definition print (l : line) : Py unit :=
  fun w => Ok (tt, {| np_tape := np_tape w; np_pos := np_pos w;
                      torch_unif := torch_unif w; torch_bern := torch_bern w;
                      torch_pos := torch_pos w; files := files w;
                      stdout := stdout w ++ [l] |}).

(** ** numpy's generator *)

(** The range of numpy's default integer type. *)
Definition int64_min : Z := - 2 ^ 63.
Definition int64_max : Z := 2 ^ 63 - 1.

(** [np.random.randint(low, high)]: an integer of [low, high).  The bounds
    are checked against int64 first, [high] being exclusive, and then the
    interval must not be empty; every failure is a ValueError. *)
Definition randint (low high : Z) : Py Z :=
  fun w =>
    if (low <? int64_min) || (int64_max <? high - 1) then Raise ValueError
    else if low <? high then
      Ok (low + np_tape w (np_pos w) mod (high - low),
          {| np_tape := np_tape w; np_pos := S (np_pos w);
             torch_unif := torch_unif w; torch_bern := torch_bern w;
             torch_pos := torch_pos w; files := files w;
             stdout := stdout w |})
    else Raise ValueError.

(** ** Characters and words *)

Definition chr (n : Z) : Py str :=
  if (0 <=? n) && (n <? 0x110000) then ret [n] else raise ValueError.

Definition ord (s : str) : Py Z :=
  match s with
  | [c] => ret c
  | _ => raise TypeError
  end.

(** [ord('a')] *)
Definition ord_a : Z := 97.

(** [s[0]] *)
Definition first_char (s : str) : Py str :=
  match s with
  | [] => raise IndexError
  | c :: _ => ret [c]
  end.

(** [''.join(x)] *)
Definition join (x : list str) : str := concat x.

Definition build_simple : Py str :=
  n <- randint 0 26 ;;
  chr (n + ord_a).

(** The loop of [build_word]: [n] iterations, each appending one letter. *)
Fixpoint build_word_loop (n : nat) (x : list str) : Py (list str) :=
  match n with
  | O => ret x
  | S n' => c <- build_simple ;; build_word_loop n' (x ++ [c])
  end.

Definition build_word (word_len : Z) : Py (str * Z) :=
  x <- build_word_loop (Z.to_nat word_len) [] ;;
  let x := join x in
  c <- first_char x ;;
  o <- ord c ;;
  ret (x, o - ord_a).

(** ** The checksum: [crc.Calculator(crc.Crc8.CCITT)]

    The [crc] package is not part of the repository.  Its bitwise register
    is transcribed here for the configuration [Crc8.CCITT]: width 8,
    polynomial 0x07, initial value 0, final xor 0, no reflection. *)
Module Crc8.
Definition width : Z := 8.
Definition polynomial : Z := 0x07.
Definition init_value : Z := 0x00.
Definition final_xor_value : Z := 0x00.
Definition topbit : Z := Z.shiftl 1 (width - 1).
Definition bitmask : Z := 2 ^ width - 1.

(** The register's setter keeps [width] bits. *)
Definition set_register (v : Z) : Z := Z.land v bitmask.

Fixpoint shift_bits (n : nat) (reg : Z) : Z :=
  match n with
  | O => reg
  | S n' =>
      shift_bits n'
        (set_register
           (if Z.land reg topbit =? 0
            then Z.shiftl reg 1
            else Z.lxor (Z.shiftl reg 1) polynomial))
  end.

Definition process_byte (reg byte : Z) : Z :=
  let reg := set_register (Z.lxor reg (Z.shiftl byte (width - 8))) in
  Z.land (shift_bits 8 reg) bitmask.

Definition update (reg : Z) (data : list Z) : Z :=
  fold_left (fun r b => set_register (process_byte r b)) data reg.

Definition digest (reg : Z) : Z := Z.lxor reg final_xor_value.

Definition checksum (data : list Z) : Z :=
  digest (update (set_register init_value) data).
End Crc8.

(** [str.encode()]: UTF-8, strict.  Surrogates and values past U+10FFFF
    have no encoding. *)
Definition encode_char (c : Z) : result (list Z) :=
  if (c <? 0) then Raise UnicodeEncodeError
  else if c <? 0x80 then Ok [c]
  else if c <? 0x800 then
    Ok [Z.lor 0xC0 (Z.shiftr c 6); Z.lor 0x80 (Z.land c 0x3F)]
  else if c <? 0x10000 then
    if (0xD800 <=? c) && (c <=? 0xDFFF) then Raise UnicodeEncodeError
    else Ok [Z.lor 0xE0 (Z.shiftr c 12);
             Z.lor 0x80 (Z.land (Z.shiftr c 6) 0x3F);
             Z.lor 0x80 (Z.land c 0x3F)]
  else if c <? 0x110000 then
    Ok [Z.lor 0xF0 (Z.shiftr c 18);
        Z.lor 0x80 (Z.land (Z.shiftr c 12) 0x3F);
        Z.lor 0x80 (Z.land (Z.shiftr c 6) 0x3F);
        Z.lor 0x80 (Z.land c 0x3F)]
  else Raise UnicodeEncodeError.

Fixpoint encode (s : str) : result (list Z) :=
  match s with
  | [] => Ok []
  | c :: s' =>
      match encode_char c, encode s' with
      | Ok b, Ok bs => Ok (b ++ bs)
      | Raise e, _ => Raise e
      | _, Raise e => Raise e
      end
  end.

Definition build_crc_label (word : str) : Py (list Z) :=
  data <- lift (encode word) ;;
  ret [Crc8.checksum data].

(** The loop of [build_words]: the three lists grow together. *)
Fixpoint build_words_loop (n : nat) (word_dim : Z)
    (words : list str) (crclabels : list (list Z)) (labels : list Z)
    : Py (list str * list (list Z) * list Z) :=
  match n with
  | O => ret (words, crclabels, labels)
  | S n' =>
      len <- randint 1 word_dim ;;
      wl <- build_word len ;;
      let '(word, label) := wl in
      crc <- build_crc_label word ;;
      build_words_loop n' word_dim
        (words ++ [word]) (crclabels ++ [crc]) (labels ++ [label])
  end.

Definition build_words (total_words_num : nat) (word_dim : Z)
    : Py (list str * list (list Z) * list Z) :=
  build_words_loop total_words_num word_dim [] [] [].

(** ** Tensor helpers *)

Local Open Scope R_scope.

Definition rsum (l : list R) : R := fold_right Rplus 0 l.

Definition dot (a b : list R) : R := rsum (zip_with Rmult a b).

(** The size of the last dimension; the 1-D tensor of size 0 has none to
    speak of and is rejected by every layer. *)
Definition last_dim {A} (x : list (list A)) : nat :=
  match x with
  | [] => 0%nat
  | r :: _ => length r
  end.

(** A 2-D tensor with [n] columns (and at least one row). *)
Definition has_width (n : nat) (x : matrix) : bool :=
  match x with
  | [] => false
  | _ => forallb (fun r => Nat.eqb (length r) n) x
  end.

Definition column (j : nat) (x : matrix) : vector :=
  map (fun r => nth j r 0) x.

(** ** nn.Linear *)

Record Linear : Type := {
  in_features : nat;
  out_features : nat;
  lin_weight : matrix;        (* out_features x in_features *)
  lin_bias : vector           (* out_features *)
}.

(** [y = x A^T + b], row by row. *)
Definition linear_call (st : stage) (l : Linear) (x : matrix) : result matrix :=
  if has_width (in_features l) x then
    Ok (map (fun row =>
               zip_with (fun w b => dot row w + b) (lin_weight l) (lin_bias l))
            x)
  else Raise (ShapeError st).

(** ** nn.BatchNorm1d on an (N, C) input *)

Record BatchNorm1d : Type := {
  num_features : nat;
  bn_weight : vector;
  bn_bias : vector;
  running_mean : vector;
  running_var : vector;
  num_batches_tracked : Z
}.

Definition bn_eps : R := 1 / 100000.
Definition bn_momentum : R := 1 / 10.

Definition mean (v : vector) : R := rsum v / INR (length v).

Definition sum_sq_dev (v : vector) : R :=
  rsum (map (fun a => (a - mean v) * (a - mean v)) v).

Definition var_biased (v : vector) : R := sum_sq_dev v / INR (length v).
Definition var_unbiased (v : vector) : R := sum_sq_dev v / (INR (length v) - 1).

Definition normalise (mu var gamma beta : vector) (x : matrix) : matrix :=
  map (fun row =>
         map (fun j =>
                (nth j row 0 - nth j mu 0) / sqrt (nth j var 0 + bn_eps)
                * nth j gamma 0 + nth j beta 0)
             (seq 0 (length row)))
      x.

Definition ema (old new : vector) : vector :=
  zip_with (fun r b => (1 - bn_momentum) * r + bn_momentum * b) old new.

(** In training mode the layer normalises with the statistics of the batch
    and moves its running statistics towards them; a batch of one sample is
    refused.  In evaluation mode it normalises with the running statistics
    and changes nothing. *)
Definition batchnorm_call (training : bool) (bn : BatchNorm1d) (x : matrix)
    : result (matrix * BatchNorm1d) :=
  if training && Nat.eqb (length x) 1 then Raise (ShapeError AtBatchNorm)
  else if negb (has_width (num_features bn) x) then Raise (ShapeError AtBatchNorm)
  else if training then
    let cols := map (fun j => column j x) (seq 0 (num_features bn)) in
    let mu := map mean cols in
    Ok (normalise mu (map var_biased cols) (bn_weight bn) (bn_bias bn) x,
        {| num_features := num_features bn;
           bn_weight := bn_weight bn;
           bn_bias := bn_bias bn;
           running_mean := ema (running_mean bn) mu;
           running_var := ema (running_var bn) (map var_unbiased cols);
           num_batches_tracked := (num_batches_tracked bn + 1)%Z |})
  else
    Ok (normalise (running_mean bn) (running_var bn) (bn_weight bn) (bn_bias bn) x,
        bn).

(** ** relu *)

Definition relu (x : matrix) : matrix := map (map (Rmax 0)) x.

(** ** nn.Conv1d with kernel size 1 on an unbatched (C_in, L) input *)

Record Conv1d : Type := {
  in_channels : nat;
  out_channels : nat;
  conv_weight : list matrix;  (* out_channels x in_channels x 1 *)
  conv_bias : vector          (* out_channels *)
}.

(** [out[o][l] = bias[o] + sum_c weight[o][c][0] * x[c][l]]: the rows of the
    input are the channels. *)
Definition conv_call (c : Conv1d) (x : matrix) : result matrix :=
  match x with
  | [] => Raise (ShapeError AtConv)
  | _ =>
      if Nat.eqb (length x) (in_channels c) then
        Ok (zip_with
              (fun w b =>
                 map (fun l =>
                        b + rsum (zip_with (fun wk row => nth 0 wk 0 * nth l row 0) w x))
                     (seq 0 (last_dim x)))
              (conv_weight c) (conv_bias c))
      else Raise (ShapeError AtConv)
  end.

(** ** nn.Dropout *)

Fixpoint dropout_row (p : R) (keep : nat -> bool) (pos : nat) (row : vector) : vector :=
  match row with
  | [] => []
  | a :: row' =>
      (if keep pos then a / (1 - p) else 0) :: dropout_row p keep (S pos) row'
  end.

Fixpoint dropout_rows (p : R) (keep : nat -> bool) (pos : nat) (x : matrix) : matrix :=
  match x with
  | [] => []
  | row :: x' =>
      dropout_row p keep pos row :: dropout_rows p keep (pos + length row) x'
  end.

(** In training mode every entry is kept with probability [1 - p] and
    scaled by [1 / (1 - p)], one keep-bit per entry; in evaluation mode the
    layer is the identity and draws nothing. *)
Definition dropout_call (p : R) (training : bool) (x : matrix) : Py matrix :=
  if training then
    fun w =>
      Ok (dropout_rows p (torch_bern w) (torch_pos w) x,
          {| np_tape := np_tape w; np_pos := np_pos w;
             torch_unif := torch_unif w; torch_bern := torch_bern w;
             torch_pos := (torch_pos w + length (concat x))%nat;
             files := files w; stdout := stdout w |})
  else ret x.

(** ** nn.functional.cross_entropy, mean reduction *)

Definition ignore_index : Z := (-100)%Z.

Definition log_softmax_at (row : vector) (t : nat) : R :=
  nth t row 0 - ln (rsum (map exp row)).

Definition target_ok (rt : vector * Z) : bool :=
  (snd rt =? ignore_index)%Z
  || ((0 <=? snd rt)%Z && (snd rt <? Z.of_nat (length (fst rt)))%Z).

Definition counted (rt : vector * Z) : bool := negb (snd rt =? ignore_index)%Z.

(** The mean is over the rows whose label is counted.  When every label is
    the ignore index it is over nothing: torch then returns a value that is
    not a number, which a real cannot be, so the properties below state the
    loss only for label lists with at least one class. *)
Definition cross_entropy (x : matrix) (y : list Z) : result R :=
  if negb (Nat.eqb (length x) (length y)) then Raise (ShapeError AtLoss)
  else if forallb target_ok (combine x y) then
    let kept := List.filter counted (combine x y) in
    Ok (rsum (map (fun rt => - log_softmax_at (fst rt) (Z.to_nat (snd rt))) kept)
        / INR (length kept))
  else Raise TargetOutOfBounds.

(** ** The classifier *)

Record TxtClassifyModel : Type := {
  conv : Conv1d;
  layer1 : Linear;
  layer2 : Linear;
  batchnorm : BatchNorm1d;    (* one layer, called three times *)
  dropout : R;                (* the probability of zeroing an entry *)
  training : bool;            (* the mode flag of nn.Module *)
  grad : option (list tensor) (* the [.grad] of the parameters, None when cleared *)
}.

Definition set_batchnorm (m : TxtClassifyModel) (bn : BatchNorm1d) : TxtClassifyModel :=
  {| conv := conv m; layer1 := layer1 m; layer2 := layer2 m;
     batchnorm := bn; dropout := dropout m; training := training m;
     grad := grad m |}.

Definition set_training (m : TxtClassifyModel) (b : bool) : TxtClassifyModel :=
  {| conv := conv m; layer1 := layer1 m; layer2 := layer2 m;
     batchnorm := batchnorm m; dropout := dropout m; training := b;
     grad := grad m |}.

(** [model.train()] and [model.eval()] *)
Definition train (m : TxtClassifyModel) : TxtClassifyModel := set_training m true.
Definition eval (m : TxtClassifyModel) : TxtClassifyModel := set_training m false.

(** Initial parameter values come from torch's generator, in the order in
    which the layers are constructed. *)
Definition draw_vector (n : nat) : Py vector :=
  fun w =>
    Ok (map (fun i => torch_unif w (torch_pos w + i)%nat) (seq 0 n),
        {| np_tape := np_tape w; np_pos := np_pos w;
           torch_unif := torch_unif w; torch_bern := torch_bern w;
           torch_pos := (torch_pos w + n)%nat;
           files := files w; stdout := stdout w |}).

Fixpoint draw_matrix (rows cols : nat) : Py matrix :=
  match rows with
  | O => ret []
  | S rows' =>
      r <- draw_vector cols ;;
      rs <- draw_matrix rows' cols ;;
      ret (r :: rs)
  end.

Fixpoint draw_tensor3 (d0 d1 d2 : nat) : Py (list matrix) :=
  match d0 with
  | O => ret []
  | S d0' =>
      m <- draw_matrix d1 d2 ;;
      ms <- draw_tensor3 d0' d1 d2 ;;
      ret (m :: ms)
  end.

Definition Conv1d_init (cin cout kernel_size : nat) : Py Conv1d :=
  wt <- draw_tensor3 cout cin kernel_size ;;
  b <- draw_vector cout ;;
  ret {| in_channels := cin; out_channels := cout; conv_weight := wt; conv_bias := b |}.

Definition Linear_init (n_in n_out : nat) : Py Linear :=
  wt <- draw_matrix n_out n_in ;;
  b <- draw_vector n_out ;;
  ret {| in_features := n_in; out_features := n_out; lin_weight := wt; lin_bias := b |}.

Definition BatchNorm1d_init (n : nat) : BatchNorm1d :=
  {| num_features := n;
     bn_weight := repeat 1 n; bn_bias := repeat 0 n;
     running_mean := repeat 0 n; running_var := repeat 1 n;
     num_batches_tracked := 0%Z |}.

(** [TxtClassifyModel(batch_size)]; a new module is in training mode. *)
Definition TxtClassifyModel_init (batch_size : nat) : Py TxtClassifyModel :=
  c <- Conv1d_init batch_size batch_size 1 ;;
  l1 <- Linear_init 1 26 ;;
  l2 <- Linear_init 26 26 ;;
  ret {| conv := c; layer1 := l1; layer2 := l2;
         batchnorm := BatchNorm1d_init 26;
         dropout := 4 / 10;
         training := true;
         grad := None |}.

(** What [forward] returns: a 0-dimensional loss or a matrix of scores. *)
Inductive output : Type :=
| LossValue (l : R)
| Scores (x : matrix).

(** [self.batchnorm(x)]: the layer's buffers change with the call. *)
Definition call_batchnorm (m : TxtClassifyModel) (x : matrix)
    : Py (matrix * TxtClassifyModel) :=
  r <- lift (batchnorm_call (training m) (batchnorm m) x) ;;
  ret (fst r, set_batchnorm m (snd r)).

Definition forward (m : TxtClassifyModel) (x : matrix) (y : option (list Z))
    : Py (output * TxtClassifyModel) :=
  x <- lift (linear_call AtLayer1 (layer1 m) x) ;;
  r <- call_batchnorm m x ;;
  let '(x, m) := r in
  let x := relu x in
  x <- lift (conv_call (conv m) x) ;;
  r <- call_batchnorm m x ;;
  let '(x, m) := r in
  let x := relu x in
  x <- lift (linear_call AtLayer2 (layer2 m) x) ;;
  r <- call_batchnorm m x ;;
  let '(x, m) := r in
  let x := relu x in
  x <- dropout_call (dropout m) (training m) x ;;
  match y with
  | Some y =>
      l <- lift (cross_entropy x y) ;;
      ret (LossValue l, m)
  | None => ret (Scores x, m)
  end.

(** ** Evaluation *)

(** [torch.FloatTensor(l)] for a list of lists of integers: rows of unequal
    length are refused. *)
Definition FloatTensor (l : list (list Z)) : Py matrix :=
  if forallb (fun r => Nat.eqb (length r) (last_dim l)) l
  then ret (map (map IZR) l)
  else raise ValueError.

(** [np.max] of one row of scores. *)
Definition np_max (p : vector) : result R :=
  match p with
  | [] => Raise ValueError
  | a :: p' => Ok (fold_left Rmax p' a)
  end.

(** The loop over [zip(pred, labels)]. *)
Fixpoint count_loop (pairs : list (vector * Z)) (correct wrong : nat)
    : result (nat * nat) :=
  match pairs with
  | [] => Ok (correct, wrong)
  | (p, t) :: rest =>
      match np_max p with
      | Raise e => Raise e
      | Ok top =>
          if Req_dec_T top (IZR t)
          then count_loop rest (S correct) wrong
          else count_loop rest correct (S wrong)
      end
  end.

(** Python's [/] on two integers. *)
Definition true_div (a b : nat) : result R :=
  if Nat.eqb b 0 then Raise ZeroDivisionError else Ok (INR a / INR b).

Definition evaluate (model : TxtClassifyModel) (sample_size : nat) (word_dim : Z)
    : Py (R * TxtClassifyModel) :=
  let model := eval model in
  s <- build_words sample_size word_dim ;;
  let '(words, crclabels, labels) := s in
  x <- FloatTensor crclabels ;;
  r <- forward model x None ;;
  let '(out, model) := r in
  match out with
  | LossValue _ => raise TypeError
  | Scores pred =>
      cw <- lift (count_loop (combine pred labels) 0 0) ;;
      let '(correct, wrong) := cw in
      acc <- lift (true_div correct (correct + wrong)) ;;
      print (EvalLine correct acc) ;;;
      acc <- lift (true_div correct (correct + wrong)) ;;
      ret (acc, model)
  end.

(** ** Parameters and the state dict *)

Fixpoint zip_with3 {A B C D} (f : A -> B -> C -> D)
    (a : list A) (b : list B) (c : list C) : list D :=
  match a, b, c with
  | x :: a', y :: b', z :: c' => f x y z :: zip_with3 f a' b' c'
  | _, _, _ => []
  end.

Fixpoint forallb2 {A B} (f : A -> B -> bool) (a : list A) (b : list B) : bool :=
  match a, b with
  | [], [] => true
  | x :: a', y :: b' => f x y && forallb2 f a' b'
  | _, _ => false
  end.

Definition same_len {A B} (a : list A) (b : list B) : bool :=
  Nat.eqb (length a) (length b).

(** Equality of [tensor.shape]. *)
Definition same_shape (a b : tensor) : bool :=
  match a, b with
  | T0 _, T0 _ => true
  | T1 x, T1 y => same_len x y
  | T2 x, T2 y => forallb2 same_len x y
  | T3 x, T3 y => forallb2 (forallb2 same_len) x y
  | _, _ => false
  end.

(** Entrywise operations on float tensors. *)
Definition tmap (f : R -> R) (t : tensor) : tensor :=
  match t with
  | T0 n => T0 n
  | T1 v => T1 (map f v)
  | T2 m => T2 (map (map f) m)
  | T3 a => T3 (map (map (map f)) a)
  end.

Definition tmap2 (f : R -> R -> R) (a b : tensor) : tensor :=
  match a, b with
  | T1 x, T1 y => T1 (zip_with f x y)
  | T2 x, T2 y => T2 (zip_with (zip_with f) x y)
  | T3 x, T3 y => T3 (zip_with (zip_with (zip_with f)) x y)
  | _, _ => a
  end.

Definition tmap3 (f : R -> R -> R -> R) (a b c : tensor) : tensor :=
  match a, b, c with
  | T1 x, T1 y, T1 z => T1 (zip_with3 f x y z)
  | T2 x, T2 y, T2 z => T2 (zip_with3 (zip_with3 f) x y z)
  | T3 x, T3 y, T3 z => T3 (zip_with3 (zip_with3 (zip_with3 f)) x y z)
  | _, _, _ => a
  end.

(** [model.parameters()], in registration order. *)
Definition parameters (m : TxtClassifyModel) : list tensor :=
  [ T3 (conv_weight (conv m)); T1 (conv_bias (conv m));
    T2 (lin_weight (layer1 m)); T1 (lin_bias (layer1 m));
    T2 (lin_weight (layer2 m)); T1 (lin_bias (layer2 m));
    T1 (bn_weight (batchnorm m)); T1 (bn_bias (batchnorm m)) ].

(** The optimiser writes the parameters in place. *)
Definition set_parameters (ps : list tensor) (m : TxtClassifyModel) : TxtClassifyModel :=
  match ps with
  | [T3 cw; T1 cb; T2 w1; T1 b1; T2 w2; T1 b2; T1 gamma; T1 beta] =>
      {| conv := {| in_channels := in_channels (conv m);
                    out_channels := out_channels (conv m);
                    conv_weight := cw; conv_bias := cb |};
         layer1 := {| in_features := in_features (layer1 m);
                      out_features := out_features (layer1 m);
                      lin_weight := w1; lin_bias := b1 |};
         layer2 := {| in_features := in_features (layer2 m);
                      out_features := out_features (layer2 m);
                      lin_weight := w2; lin_bias := b2 |};
         batchnorm := {| num_features := num_features (batchnorm m);
                         bn_weight := gamma; bn_bias := beta;
                         running_mean := running_mean (batchnorm m);
                         running_var := running_var (batchnorm m);
                         num_batches_tracked := num_batches_tracked (batchnorm m) |};
         dropout := dropout m; training := training m; grad := grad m |}
  | _ => m
  end.

(** [model.state_dict()]: parameters and buffers under their dotted names. *)
Definition state_items (m : TxtClassifyModel) : list (string * tensor) :=
  [ ("conv.weight", T3 (conv_weight (conv m)));
    ("conv.bias", T1 (conv_bias (conv m)));
    ("layer1.weight", T2 (lin_weight (layer1 m)));
    ("layer1.bias", T1 (lin_bias (layer1 m)));
    ("layer2.weight", T2 (lin_weight (layer2 m)));
    ("layer2.bias", T1 (lin_bias (layer2 m)));
    ("batchnorm.weight", T1 (bn_weight (batchnorm m)));
    ("batchnorm.bias", T1 (bn_bias (batchnorm m)));
    ("batchnorm.running_mean", T1 (running_mean (batchnorm m)));
    ("batchnorm.running_var", T1 (running_var (batchnorm m)));
    ("batchnorm.num_batches_tracked", T0 (num_batches_tracked (batchnorm m))) ].

Definition state_dict (m : TxtClassifyModel) : gmap string tensor :=
  list_to_map (state_items m).

Definition key_matches (own sd : gmap string tensor) (k : string) : bool :=
  match own !! k, sd !! k with
  | Some a, Some b => same_shape a b
  | _, _ => false
  end.

(** [model.load_state_dict(sd)], strict: the keys must be exactly the
    module's own and every tensor must have the shape of the one it
    replaces. *)
Definition load_state_dict (m : TxtClassifyModel) (sd : gmap string tensor)
    : result TxtClassifyModel :=
  let own := state_dict m in
  if bool_decide (dom sd = dom own)
     && forallb (key_matches own sd) (map fst (state_items m))
  then
    match sd !! "conv.weight", sd !! "conv.bias",
          sd !! "layer1.weight", sd !! "layer1.bias",
          sd !! "layer2.weight", sd !! "layer2.bias",
          sd !! "batchnorm.weight", sd !! "batchnorm.bias",
          sd !! "batchnorm.running_mean", sd !! "batchnorm.running_var",
          sd !! "batchnorm.num_batches_tracked" with
    | Some (T3 cw), Some (T1 cb), Some (T2 w1), Some (T1 b1),
      Some (T2 w2), Some (T1 b2), Some (T1 gamma), Some (T1 beta),
      Some (T1 rm), Some (T1 rv), Some (T0 nbt) =>
        Ok {| conv := {| in_channels := in_channels (conv m);
                         out_channels := out_channels (conv m);
                         conv_weight := cw; conv_bias := cb |};
              layer1 := {| in_features := in_features (layer1 m);
                           out_features := out_features (layer1 m);
                           lin_weight := w1; lin_bias := b1 |};
              layer2 := {| in_features := in_features (layer2 m);
                           out_features := out_features (layer2 m);
                           lin_weight := w2; lin_bias := b2 |};
              batchnorm := {| num_features := num_features (batchnorm m);
                              bn_weight := gamma; bn_bias := beta;
                              running_mean := rm; running_var := rv;
                              num_batches_tracked := nbt |};
              dropout := dropout m; training := training m; grad := grad m |}
    | _, _, _, _, _, _, _, _, _, _, _ => Raise StateDictError
    end
  else Raise StateDictError.

(** [torch.save(obj, path)] and [torch.load(path)] *)
Definition torch_save (sd : gmap string tensor) (path : string) : Py unit :=
  fun w => Ok (tt, {| np_tape := np_tape w; np_pos := np_pos w;
                      torch_unif := torch_unif w; torch_bern := torch_bern w;
                      torch_pos := torch_pos w;
                      files := <[path := sd]> (files w);
                      stdout := stdout w |}).

Definition torch_load (path : string) : Py (gmap string tensor) :=
  fun w => match files w !! path with
           | Some sd => Ok (sd, w)
           | None => Raise FileNotFoundError
           end.

(** ** Shape invariant of a model built for batches of [b] samples *)

Definition is_vector (n : nat) (v : vector) : bool := Nat.eqb (length v) n.

Definition is_matrix (r c : nat) (m : matrix) : bool :=
  Nat.eqb (length m) r && forallb (is_vector c) m.

Definition is_tensor3 (d0 d1 d2 : nat) (t : list matrix) : bool :=
  Nat.eqb (length t) d0 && forallb (is_matrix d1 d2) t.

Definition wf_linear (n_in n_out : nat) (l : Linear) : bool :=
  Nat.eqb (in_features l) n_in && Nat.eqb (out_features l) n_out
  && is_matrix n_out n_in (lin_weight l) && is_vector n_out (lin_bias l).

Definition wf_conv (b : nat) (c : Conv1d) : bool :=
  Nat.eqb (in_channels c) b && Nat.eqb (out_channels c) b
  && is_tensor3 b b 1 (conv_weight c) && is_vector b (conv_bias c).

Definition wf_batchnorm (n : nat) (bn : BatchNorm1d) : bool :=
  Nat.eqb (num_features bn) n
  && is_vector n (bn_weight bn) && is_vector n (bn_bias bn)
  && is_vector n (running_mean bn) && is_vector n (running_var bn).

Definition wf_model (b : nat) (m : TxtClassifyModel) : bool :=
  wf_conv b (conv m) && wf_linear 1 26 (layer1 m) && wf_linear 26 26 (layer2 m)
  && wf_batchnorm 26 (batchnorm m).

(** ** torch.optim.Adam with its default coefficients *)

Record Adam : Type := {
  lr : R;
  beta1 : R;
  beta2 : R;
  adam_eps : R;
  steps : nat;                                     (* state['step'] *)
  moments : option (list tensor * list tensor)     (* exp_avg, exp_avg_sq; created by the first step *)
}.

Definition Adam_init (learning_rate : R) : Adam :=
  {| lr := learning_rate; beta1 := 9 / 10; beta2 := 999 / 1000;
     adam_eps := 1 / 100000000; steps := 0; moments := None |}.

(** [optim.step()]: parameters without a gradient are left alone. *)
Definition adam_step (o : Adam) (m : TxtClassifyModel) : Adam * TxtClassifyModel :=
  match grad m with
  | None => (o, m)
  | Some g =>
      let ps := parameters m in
      let '(avg, avg_sq) :=
        match moments o with
        | Some s => s
        | None => (map (tmap (fun _ => 0)) ps, map (tmap (fun _ => 0)) ps)
        end in
      let t := S (steps o) in
      let avg' :=
        zip_with (tmap2 (fun a d => beta1 o * a + (1 - beta1 o) * d)) avg g in
      let avg_sq' :=
        zip_with (tmap2 (fun a d => beta2 o * a + (1 - beta2 o) * (d * d))) avg_sq g in
      let bias1 := 1 - beta1 o ^ t in
      let bias2 := 1 - beta2 o ^ t in
      let ps' :=
        zip_with3
          (tmap3 (fun p a v =>
                    p - lr o / bias1 * (a / (sqrt v / sqrt bias2 + adam_eps o))))
          ps avg' avg_sq' in
      ({| lr := lr o; beta1 := beta1 o; beta2 := beta2 o; adam_eps := adam_eps o;
          steps := t; moments := Some (avg', avg_sq') |},
       set_parameters ps' m)
  end.

Definition set_grad (m : TxtClassifyModel) (g : option (list tensor)) : TxtClassifyModel :=
  {| conv := conv m; layer1 := layer1 m; layer2 := layer2 m;
     batchnorm := batchnorm m; dropout := dropout m; training := training m;
     grad := g |}.

(** [optim.zero_grad()] *)
Definition zero_grad (m : TxtClassifyModel) : TxtClassifyModel := set_grad m None.

(** [loss.backward()] adds the gradient of the loss to what [.grad] holds. *)
Definition backward (g : list tensor) (m : TxtClassifyModel) : TxtClassifyModel :=
  set_grad m (Some match grad m with
                   | None => g
                   | Some g0 => zip_with (tmap2 Rplus) g0 g
                   end).

(** ** The training driver *)

(** [l[a:b]] for indices that are not negative. *)
Definition slice {A} (l : list A) (a b : nat) : list A := firstn (b - a) (skipn a l).

(** Python's [//] on two counts. *)
Definition floor_div (a b : nat) : result nat :=
  if Nat.eqb b 0 then Raise ZeroDivisionError else Ok (a / b)%nat.

(** A [for] loop that threads its variables. *)
Fixpoint for_each {A S} (l : list A) (body : S -> A -> Py S) (s : S) : Py S :=
  match l with
  | [] => ret s
  | a :: l' => s' <- body s a ;; for_each l' body s'
  end.

Definition current_world : Py world := fun w => Ok (w, w).

Section Training.

(** The gradient of the loss with respect to the parameters, as autograd
    computes it from the graph of one forward call: it is determined by
    the module, the interpreter state before the call (the keep-bits of
    dropout), the inputs and the labels. *)
Variable autograd : TxtClassifyModel -> world -> matrix -> list Z -> list tensor.

(** One iteration of the inner loop of [main]. *)
Definition train_batch (batch_size : nat)
    (train_crclabels : list (list Z)) (train_labels : list Z)
    (st : TxtClassifyModel * Adam * list R) (batch_index : nat)
    : Py (TxtClassifyModel * Adam * list R) :=
  let '(model, optim, watch_loss) := st in
  let crclabels :=
    slice train_crclabels (batch_index * batch_size) ((batch_index + 1) * batch_size) in
  let labels :=
    slice train_labels (batch_index * batch_size) ((batch_index + 1) * batch_size) in
  x <- FloatTensor crclabels ;;
  before <- current_world ;;
  r <- forward model x (Some labels) ;;
  match fst r with
  | Scores _ => raise RuntimeError
  | LossValue loss =>
      let model' := backward (autograd model before x labels) (snd r) in
      let om := adam_step optim model' in
      let model' := zero_grad (snd om) in
      ret (model', fst om, watch_loss ++ [loss])
  end.

(** One iteration of the outer loop of [main]. *)
Definition train_epoch (word_dim : Z) (batch_size train_sample : nat)
    (train_crclabels : list (list Z)) (train_labels : list Z)
    (st : TxtClassifyModel * Adam * list (R * R)) (epoch : nat)
    : Py (TxtClassifyModel * Adam * list (R * R)) :=
  let '(model, optim, log) := st in
  let model := train model in
  batches <- lift (floor_div train_sample batch_size) ;;
  r <- for_each (seq 0 batches)
         (train_batch batch_size train_crclabels train_labels)
         (model, optim, []) ;;
  let '(model, optim, watch_loss) := r in
  print (EpochLine (epoch + 1) (mean watch_loss)) ;;;
  am <- evaluate model batch_size word_dim ;;
  ret (snd am, optim, log ++ [(fst am, mean watch_loss)]).

(** [main] up to the end of its training loop, with the constants of its
    first lines as arguments. *)
Definition training_loop (word_dim : Z) (epoch_num batch_size train_sample : nat)
    (learning_rate : R) : Py (TxtClassifyModel * Adam * list (R * R)) :=
  model <- TxtClassifyModel_init batch_size ;;
  let optim := Adam_init learning_rate in
  s <- build_words train_sample word_dim ;;
  let '(words, train_crclabels, train_labels) := s in
  for_each (seq 0 epoch_num)
    (train_epoch word_dim batch_size train_sample train_crclabels train_labels)
    (model, optim, []).

Definition main : Py unit :=
  r <- training_loop 10 500 25 5000 (1 / 1000) ;;
  let '(model, optim, log) := r in
  torch_save (state_dict model) "txtclassify.pt" ;;;
  print (LogLine log) ;;;
  print (PlotLine "acc" (seq 0 (length log)) (map fst log)) ;;;
  print (PlotLine "loss" (seq 0 (length log)) (map snd log)) ;;;
  print ShowPlot.

End Training.

(** ** Prediction *)

(** One row of the softmax, over the reals.  In float32 an entry far below
    the largest rounds to 0 and the sum is 1 only up to rounding, so what is
    proved of the softmax is kept to what rounding preserves: the range and
    the order. *)
Definition softmax_row (row : vector) : vector :=
  map (fun a => exp a / rsum (map exp row)) row.

(** [nn.Softmax(dim=1)] *)
Definition Softmax (x : matrix) : matrix := map softmax_row x.

(** [np.argmax]: the first position of the largest entry. *)
Fixpoint argmax_from (best : R) (best_i i : nat) (p : vector) : nat :=
  match p with
  | [] => best_i
  | a :: p' =>
      if Rlt_dec best a then argmax_from a i (S i) p'
      else argmax_from best best_i (S i) p'
  end.

Definition np_argmax (p : vector) : result nat :=
  match p with
  | [] => Raise ValueError
  | a :: p' => Ok (argmax_from a 0 1 p')
  end.

(** The printing loop of [predict] over [zip(words, result, labels)]. *)
Fixpoint predict_loop (words : list str) (result : matrix) (labels : list Z) : Py unit :=
  match words, result, labels with
  | word :: words', pred :: result', label :: labels' =>
      i <- lift (np_argmax pred) ;;
      c <- chr (Z.of_nat i + ord_a) ;;
      j <- lift (np_argmax pred) ;;
      a <- chr (label + ord_a) ;;
      print (PredictLine word c (nth j pred 0) a) ;;;
      predict_loop words' result' labels'
  | _, _, _ => ret tt
  end.

Definition predict (model_path : string) (sample : list str * list (list Z) * list Z)
    : Py unit :=
  model <- TxtClassifyModel_init 25 ;;
  sd <- torch_load model_path ;;
  model <- lift (load_state_dict model sd) ;;
  let '(words, crclabels, labels) := sample in
  let model := eval model in
  x <- FloatTensor crclabels ;;
  r <- forward model x None ;;
  match fst r with
  | LossValue _ => raise TypeError
  | Scores result => predict_loop words (Softmax result) labels
  end.

(** The entry point: [main()] is commented out in the source. *)
Definition script : Py unit :=
  sample <- build_words 25 10 ;;
  let '(words, crclabels, labels) := sample in
  print (SampleLine words crclabels labels) ;;;
  predict "txtclassify.pt" sample.

(** ** Notions used to state the properties *)

Local Open Scope Z_scope.

(** The lowercase alphabet, as code points. *)
Definition alphabet : str :=
  [97; 98; 99; 100; 101; 102; 103; 104; 105; 106; 107; 108; 109;
   110; 111; 112; 113; 114; 115; 116; 117; 118; 119; 120; 121; 122].

Fixpoint index_of (c : Z) (s : str) : option Z :=
  match s with
  | [] => None
  | d :: s' => if c =? d then Some 0 else option_map Z.succ (index_of c s')
  end.

(** The rank of a letter in the alphabet: 0 for a, 25 for z. *)
Definition alphabetic_rank (c : Z) : option Z := index_of c alphabet.

(** The bytes of a string literal, for examples. *)
Definition codes (s : string) : str :=
  map (fun a => Z.of_nat (Ascii.nat_of_ascii a)) (String.list_ascii_of_string s).

Definition is_letter (c : Z) : Prop := 97 <= c < 123.

(** The state after one draw from numpy's generator. *)
Definition np_advance (w : world) : world :=
  {| np_tape := np_tape w; np_pos := S (np_pos w);
     torch_unif := torch_unif w; torch_bern := torch_bern w;
     torch_pos := torch_pos w; files := files w; stdout := stdout w |}.

(** The state after [k] draws. *)
Definition np_skip (k : nat) (w : world) : world := Nat.iter k np_advance w.

(** A state of the interpreter to run examples in: nothing on disk,
    nothing printed, and generators that count upwards. *)
Definition example_world : world :=
  {| np_tape := fun i => Z.of_nat i * 7 + 3; np_pos := 0;
     torch_unif := fun i => INR i; torch_bern := fun i => Nat.even i;
     torch_pos := 0; files := ∅; stdout := [] |}.

(** A 2-D tensor of [r] rows and [c] columns. *)
Definition Matrix (r c : nat) (x : matrix) : Prop :=
  length x = r /\ Forall (fun v => length v = c) x.

(** Class indices of the 26 letters. *)
Definition Labels (n : nat) (y : list Z) : Prop :=
  length y = n /\ Forall (fun t => 0 <= t < 26) y.

(** One sample of the generator: a word of letters, its checksum as a
    one-element feature vector, and the rank of its first letter. *)
Definition Sample (word : str) (crclabel : list Z) (label : Z) : Prop :=
  Forall is_letter word
  /\ crclabel = [Crc8.checksum word]
  /\ exists c, head word = Some c /\ label = c - ord_a.

(** The largest entry of a row of scores. *)
Definition top_value (p : vector) : R :=
  match p with
  | [] => 0%R
  | a :: p' => fold_left Rmax p' a
  end.

(** The samples that the evaluation loop counts as correct. *)
Definition hit (pt : vector * Z) : bool :=
  if Req_dec_T (top_value (fst pt)) (IZR (snd pt)) then true else false.

Definition hits (pairs : list (vector * Z)) : nat := length (List.filter hit pairs).

(** The tensor or exception that a call of [forward] produces. *)
Definition scores_of (r : result (output * TxtClassifyModel * world)) : result output :=
  match r with
  | Ok ((o, _), _) => Ok o
  | Raise e => Raise e
  end.

(** Two modules in evaluation mode with the same layers. *)
Definition same_layers_eval (m1 m2 : TxtClassifyModel) : Prop :=
  conv m1 = conv m2 /\ layer1 m1 = layer1 m2 /\ layer2 m1 = layer2 m2
  /\ batchnorm m1 = batchnorm m2
  /\ training m1 = false /\ training m2 = false.

(** Two states that differ at most in the position of torch's generator. *)
Definition torch_only (w w' : world) : Prop :=
  np_tape w' = np_tape w /\ np_pos w' = np_pos w
  /\ torch_unif w' = torch_unif w /\ torch_bern w' = torch_bern w
  /\ files w' = files w /\ stdout w' = stdout w.

(** The forward pass as the list of stages it goes through. *)
Inductive layer_op : Set :=
| OpLayer1 | OpBatchNorm | OpReLU | OpConv | OpLayer2 | OpDropout.

Definition run_op (s : matrix * TxtClassifyModel) (o : layer_op)
    : Py (matrix * TxtClassifyModel) :=
  let '(x, m) := s in
  match o with
  | OpLayer1 => x <- lift (linear_call AtLayer1 (layer1 m) x) ;; ret (x, m)
  | OpBatchNorm => call_batchnorm m x
  | OpReLU => ret (relu x, m)
  | OpConv => x <- lift (conv_call (conv m) x) ;; ret (x, m)
  | OpLayer2 => x <- lift (linear_call AtLayer2 (layer2 m) x) ;; ret (x, m)
  | OpDropout => x <- dropout_call (dropout m) (training m) x ;; ret (x, m)
  end.

Definition forward_ops : list layer_op :=
  [OpLayer1; OpBatchNorm; OpReLU; OpConv; OpBatchNorm; OpReLU;
   OpLayer2; OpBatchNorm; OpReLU; OpDropout].

(** The stages in order, and only then the optional loss. *)
Definition forward_by_ops (m : TxtClassifyModel) (x : matrix) (y : option (list Z))
    : Py (output * TxtClassifyModel) :=
  s <- for_each forward_ops run_op (x, m) ;;
  match y with
  | Some y => l <- lift (cross_entropy (fst s) y) ;; ret (LossValue l, snd s)
  | None => ret (Scores (fst s), snd s)
  end.

(** The example state with a saved model on disk. *)
Definition saved_world (m : TxtClassifyModel) : world :=
  {| np_tape := np_tape example_world; np_pos := 0;
     torch_unif := torch_unif example_world;
     torch_bern := torch_bern example_world; torch_pos := 0;
     files := {[ "txtclassify.pt" := state_dict m ]}; stdout := [] |}.

(** The shape of a tensor: the lengths at every level of nesting. *)
Inductive shape : Set :=
| Sh0
| Sh1 (n : nat)
| Sh2 (rows : list nat)
| Sh3 (rows : list (list nat)).

Definition shape_of (t : tensor) : shape :=
  match t with
  | T0 _ => Sh0
  | T1 v => Sh1 (length v)
  | T2 m => Sh2 (map (@length R) m)
  | T3 a => Sh3 (map (map (@length R)) a)
  end.

Definition shapes (ps : list tensor) : list shape := map shape_of ps.

(** What the training loop keeps true between two batches: the model has
    the shape of its batch size, its gradients are cleared, and the moments
    of the optimiser, once created, have the shapes of the parameters. *)
Definition TrainState (b : nat) (m : TxtClassifyModel) (o : Adam) : Prop :=
  wf_model b m = true
  /\ grad m = None
  /\ match moments o with
     | None => True
     | Some (avg, avg_sq) =>
         shapes avg = shapes (parameters m)
         /\ shapes avg_sq = shapes (parameters m)
     end.

(** A training set of [n] samples: one-element feature vectors and labels
    of the 26 classes. *)
Definition TrainSet (n : nat) (crclabels : list (list Z)) (labels : list Z) : Prop :=
  length crclabels = n
  /\ Forall (fun c => length c = 1%nat) crclabels
  /\ Labels n labels.

(** A gradient that is zero everywhere, for examples. *)
Definition zero_gradient (m : TxtClassifyModel) (w : world) (x : matrix) (y : list Z)
    : list tensor :=
  map (tmap (fun _ => 0%R)) (parameters m).

(** A gradient that is 1 everywhere, for examples. *)
Definition unit_gradient (m : TxtClassifyModel) (w : world) (x : matrix) (y : list Z)
    : list tensor :=
  map (tmap (fun _ => 1%R)) (parameters m).

(** Adam's rule for one entry, as the optimiser is documented: a running
    average of the gradient and one of its square, each moved towards the
    new value by [1 - beta], and the parameter moved against the first
    average divided by the root of the second, both corrected for having
    started at 0 [t] steps ago. *)
Definition adam_average (beta a d : R) : R := (beta * a + (1 - beta) * d)%R.

Definition adam_parameter (rate beta_1 beta_2 eps : R) (t : nat) (p a v : R) : R :=
  (p - rate / (1 - beta_1 ^ t) * (a / (sqrt v / sqrt (1 - beta_2 ^ t) + eps)))%R.

(** The coefficients of an optimiser: learning rate, the two decay rates
    and the term added to the denominator. *)
Definition hyperparameters (o : Adam) : R * R * R * R :=
  (lr o, beta1 o, beta2 o, adam_eps o).

(** The averages an optimiser holds; zeros before its first step. *)
Definition first_moments (o : Adam) (m : TxtClassifyModel) : list tensor :=
  match moments o with
  | Some s => fst s
  | None => map (tmap (fun _ => 0%R)) (parameters m)
  end.

Definition second_moments (o : Adam) (m : TxtClassifyModel) : list tensor :=
  match moments o with
  | Some s => snd s
  | None => map (tmap (fun _ => 0%R)) (parameters m)
  end.

(** A model with simple weights, for examples. *)
Definition example_model (b : nat) : TxtClassifyModel :=
  {| conv := {| in_channels := b; out_channels := b;
                conv_weight := repeat (repeat [1%R] b) b;
                conv_bias := repeat 0%R b |};
     layer1 := {| in_features := 1; out_features := 26;
                  lin_weight := repeat [1%R] 26; lin_bias := repeat 0%R 26 |};
     layer2 := {| in_features := 26; out_features := 26;
                  lin_weight := repeat (repeat 1%R 26) 26;
                  lin_bias := repeat 0%R 26 |};
     batchnorm := BatchNorm1d_init 26;
     dropout := (4 / 10)%R;
     training := true;
     grad := None |}.

Local Open Scope R_scope.

(** A row whose largest entry sits at the label's position and is not the
    label's number, and a row whose largest entry is the label's number and
    sits elsewhere. *)
Definition row_top_at_label : vector := (1 / 2) :: repeat 0 25.
Definition row_top_is_label : vector := 0 :: 3 :: repeat 0 24.

(** Two batches of two samples for a model built for batches of two: they
    agree on their first row and differ on the second. *)
Definition batch_one_zero : matrix := [repeat 1 26; repeat 0 26].
Definition batch_one_one : matrix := [repeat 1 26; repeat 1 26].

Definition batch_one_zero_other : matrix := [1 :: repeat 5 25; 0 :: repeat 7 25].

(** What the convolution of [example_model 2], whose weights are all 1 and
    whose biases are 0, makes of a batch of two rows. *)
Definition conv_example_output (x : matrix) : matrix :=
  map (fun _ : unit =>
         map (fun l => 0 + rsum (zip_with (fun wk row => nth 0 wk 0 * nth l row 0)
                                   [[1]; [1]] x))
             (seq 0 (last_dim x)))
      [tt; tt].

Local Open Scope Z_scope.

(** The index [np.argmax] returns, 0 when there is nothing to look at. *)
Definition argmax_index (p : vector) : nat :=
  match np_argmax p with
  | Ok i => i
  | Raise _ => 0%nat
  end.

(** The line [predict] prints for one sample. *)
Definition predict_line (word : str) (pred : vector) (label : Z) : line :=
  PredictLine word [Z.of_nat (argmax_index pred) + ord_a]
    (nth (argmax_index pred) pred 0%R) [label + ord_a].

(** The number of entries of a tensor. *)
Definition numel (t : tensor) : nat :=
  match t with
  | T0 _ => 1%nat
  | T1 v => length v
  | T2 m => length (concat m)
  | T3 a => length (concat (concat a))
  end.

(** A later state of the interpreter in which no file was written: the
    random generators have only moved forward and the output has only
    grown. *)
Definition advances (w w' : world) : Prop :=
  np_tape w' = np_tape w /\ torch_unif w' = torch_unif w
  /\ torch_bern w' = torch_bern w
  /\ files w' = files w
  /\ (np_pos w <= np_pos w')%nat /\ (torch_pos w <= torch_pos w')%nat
  /\ exists out, stdout w' = stdout w ++ out.

(** A computation that leaves the files alone. *)
Definition keeps_files {A} (c : Py A) : Prop :=
  forall w a w', c w = Ok (a, w') -> advances w w'.

(** The one-letter words have pairwise distinct checksums. *)
Definition letters_distinct_features : bool :=
  forallb (fun a =>
             forallb (fun b =>
                        implb (Crc8.checksum [a] =? Crc8.checksum [b]) (a =? b))
                     alphabet)
          alphabet.

(** A line of [predict] as it should be: a predicted lowercase letter, a
    probability, and the first letter of the word as the actual class. *)
Definition predicted_line_ok (l : line) : Prop :=
  match l with
  | PredictLine word predicted probability actual =>
      (exists c, predicted = [c] /\ is_letter c)
      /\ (0 < probability <= 1)%R
      /\ (exists c, head word = Some c /\ actual = [c])
  | _ => False
  end.

(** * Properties *)

(** ** The monad *)

Lemma bind_ok {A B} (c : Py A) (k : A -> Py B) w a w' :
  c w = Ok (a, w') -> bind c k w = k a w'.
Proof. intros H. unfold bind. now rewrite H. Qed.

Lemma bind_raise {A B} (c : Py A) (k : A -> Py B) w e :
  c w = Raise e -> bind c k w = Raise e.
Proof. intros H. unfold bind. now rewrite H. Qed.

Lemma bind_inv {A B} (c : Py A) (k : A -> Py B) w b w'' :
  bind c k w = Ok (b, w'') -> exists a w', c w = Ok (a, w') /\ k a w' = Ok (b, w'').
Proof.
  unfold bind. destruct (c w) as [[a w']|e]; [|discriminate].
  intros H. now exists a, w'.
Qed.

(** ** Words and labels *)

Lemma randint_ok low high w :
  int64_min <= low -> low < high -> high <= int64_max + 1 ->
  exists v, randint low high w = Ok (v, np_advance w) /\ low <= v < high.
Proof.
  intros Hlow H Hhigh. unfold randint.
  destruct (Z.ltb_spec low int64_min); [lia|].
  destruct (Z.ltb_spec int64_max (high - 1)); [lia|]. cbn [orb].
  destruct (Z.ltb_spec low high) as [_|]; [|lia].
  eexists. split; [reflexivity|].
  pose proof (Z.mod_pos_bound (np_tape w (np_pos w)) (high - low)). lia.
Qed.

Lemma randint_raise low high w :
  low < int64_min \/ int64_max + 1 < high \/ high <= low ->
  randint low high w = Raise ValueError.
Proof.
  intros H. unfold randint.
  destruct (Z.ltb_spec low int64_min); [reflexivity|].
  destruct (Z.ltb_spec int64_max (high - 1)); [reflexivity|]. cbn [orb].
  destruct (Z.ltb_spec low high); [lia | reflexivity].
Qed.

Lemma chr_ok n w : 0 <= n < 0x110000 -> chr n w = Ok ([n], w).
Proof.
  intros H. unfold chr.
  destruct (Z.leb_spec 0 n); [|lia].
  destruct (Z.ltb_spec n 0x110000); [|lia]. reflexivity.
Qed.

Lemma build_simple_letter w :
  exists c, build_simple w = Ok ([c], np_advance w) /\ is_letter c.
Proof.
  unfold build_simple.
  destruct (randint_ok 0 26 w) as (n & Hr & Hn);
    [unfold int64_min; lia | lia | unfold int64_max; lia |].
  rewrite (bind_ok _ _ _ _ _ Hr).
  exists (n + ord_a). unfold ord_a, is_letter.
  split; [apply chr_ok|]; lia.
Qed.

Lemma np_skip_succ_r k w : np_skip k (np_advance w) = np_skip (S k) w.
Proof. unfold np_skip. now rewrite Nat.iter_succ_r. Qed.

Lemma np_skip_add j k w : np_skip k (np_skip j w) = np_skip (j + k) w.
Proof. unfold np_skip. now rewrite Nat.add_comm, Nat.iter_add. Qed.

Lemma np_skip_fields k w :
  np_tape (np_skip k w) = np_tape w
  /\ np_pos (np_skip k w) = (np_pos w + k)%nat
  /\ torch_unif (np_skip k w) = torch_unif w
  /\ torch_bern (np_skip k w) = torch_bern w
  /\ torch_pos (np_skip k w) = torch_pos w
  /\ files (np_skip k w) = files w
  /\ stdout (np_skip k w) = stdout w.
Proof.
  induction k as [|k IH]; simpl.
  - repeat split; lia.
  - destruct IH as (? & ? & ? & ? & ? & ? & ?). repeat split; try assumption. lia.
Qed.

Lemma build_word_loop_letters n : forall x w,
  exists cs, build_word_loop n x w = Ok (x ++ map (fun c => [c]) cs, np_skip n w)
             /\ length cs = n /\ Forall is_letter cs.
Proof.
  induction n as [|n IH]; intros x w.
  - exists []. simpl. rewrite app_nil_r. repeat split; constructor.
  - destruct (build_simple_letter w) as (c & Hc & Hl).
    cbn [build_word_loop]. rewrite (bind_ok _ _ _ _ _ Hc). cbv beta.
    destruct (IH (x ++ [[c]]) (np_advance w)) as (cs & Hcs & Hlen & Hall).
    exists (c :: cs). split; [|split; [simpl; now f_equal | now constructor]].
    etransitivity; [exact Hcs|]. rewrite np_skip_succ_r. simpl map.
    now rewrite <- app_assoc.
Qed.

Lemma join_singletons (cs : list Z) : join (map (fun c => [c]) cs) = cs.
Proof. unfold join. induction cs; simpl; [reflexivity | now f_equal]. Qed.

Lemma rank_of_letter c : is_letter c -> alphabetic_rank c = Some (c - 97).
Proof.
  unfold is_letter. intros H.
  assert (Hk : exists k, (k < 26)%nat /\ c = 97 + Z.of_nat k).
  { exists (Z.to_nat (c - 97)). split; lia. }
  destruct Hk as (k & Hk & ->).
  do 26 (destruct k as [|k]; [reflexivity|]). lia.
Qed.

(** The shape of what [build_word] returns for a positive length. *)
Lemma build_word_ok word_len w :
  1 <= word_len ->
  exists c cs,
    build_word word_len w = Ok ((c :: cs, c - ord_a), np_skip (Z.to_nat word_len) w)
    /\ length (c :: cs) = Z.to_nat word_len
    /\ Forall is_letter (c :: cs).
Proof.
  intros Hlen. unfold build_word.
  destruct (build_word_loop_letters (Z.to_nat word_len) [] w)
    as (cs & Hloop & Hn & Hall).
  rewrite (bind_ok _ _ _ _ _ Hloop). simpl app. rewrite join_singletons.
  destruct cs as [|c cs]; [simpl in Hn; lia|].
  exists c, cs. repeat split; assumption.
Qed.

Example build_word_runs :
  exists w', build_word 3 example_world = Ok ((codes "dkr", 3), w').
Proof. eexists. vm_compute. reflexivity. Qed.

Example build_word_empty : build_word 0 example_world = Raise IndexError.
Proof. reflexivity. Qed.

(** ** The checksum feature *)

Lemma set_register_range v : 0 <= Crc8.set_register v <= 255.
Proof.
  unfold Crc8.set_register.
  change Crc8.bitmask with (Z.ones 8). rewrite Z.land_ones by lia.
  pose proof (Z.mod_pos_bound v (2 ^ 8)). lia.
Qed.

Lemma update_range data : forall reg,
  0 <= reg <= 255 -> 0 <= Crc8.update reg data <= 255.
Proof.
  unfold Crc8.update.
  induction data as [|b data IH]; intros reg H; simpl; [assumption|].
  apply IH, set_register_range.
Qed.

Lemma checksum_range data : 0 <= Crc8.checksum data <= 255.
Proof.
  unfold Crc8.checksum, Crc8.digest.
  change Crc8.final_xor_value with 0. rewrite Z.lxor_0_r.
  apply update_range, set_register_range.
Qed.

Lemma build_crc_label_ok word data w :
  encode word = Ok data -> build_crc_label word w = Ok ([Crc8.checksum data], w).
Proof. intros H. unfold build_crc_label, bind, lift. now rewrite H. Qed.

(** Words made of letters are their own UTF-8 encoding. *)
Lemma encode_letters word : Forall is_letter word -> encode word = Ok word.
Proof.
  induction 1 as [|c word Hc _ IH]; simpl; [reflexivity|].
  rewrite IH. unfold encode_char, is_letter in *.
  destruct (Z.ltb_spec c 0); [lia|].
  destruct (Z.ltb_spec c 128); [reflexivity|lia].
Qed.

(** C4.  For every word that has a byte encoding, [build_crc_label] returns
    one integer of [0, 255], leaves the interpreter state as it was, and
    returns that same integer on every call, in any state, for any word
    with the same bytes. *)
Theorem build_crc_label_byte_pure (word : str) (data : list Z) (w : world) :
  encode word = Ok data ->
  exists v,
    build_crc_label word w = Ok ([v], w)
    /\ 0 <= v <= 255
    /\ forall word' w', encode word' = Ok data ->
                        build_crc_label word' w' = Ok ([v], w').
Proof.
  intros H. exists (Crc8.checksum data). split; [|split].
  - now apply build_crc_label_ok.
  - apply checksum_range.
  - intros word' w' H'. now apply build_crc_label_ok.
Qed.

Lemma build_crc_label_byte_pure_witness :
  exists v,
    build_crc_label (codes "cat") example_world = Ok ([v], example_world)
    /\ 0 <= v <= 255
    /\ forall word' w', encode word' = Ok (codes "cat") ->
                        build_crc_label word' w' = Ok ([v], w').
Proof.
  apply (build_crc_label_byte_pure (codes "cat") (codes "cat") example_world).
  reflexivity.
Defined.

Example checksum_check_value : Crc8.checksum (codes "123456789") = 0xF4.
Proof. reflexivity. Qed.

(** Distinct words can share a feature value. *)
Example checksum_collision :
  codes "ah" <> codes "ba"
  /\ Crc8.checksum (codes "ah") = Crc8.checksum (codes "ba").
Proof. split; [discriminate | reflexivity]. Qed.

(** ** Shapes through the layers *)

Lemma is_vector_spec n v : is_vector n v = true <-> length v = n.
Proof. apply Nat.eqb_eq. Qed.

Lemma forallb_is_vector c x :
  forallb (is_vector c) x = true <-> Forall (fun v => length v = c) x.
Proof.
  induction x as [|v x IH]; simpl.
  - split; [constructor | reflexivity].
  - rewrite andb_true_iff, IH, is_vector_spec. split.
    + intros [? ?]. now constructor.
    + intros H. now inversion H.
Qed.

Lemma is_matrix_spec r c x : is_matrix r c x = true <-> Matrix r c x.
Proof.
  unfold is_matrix, Matrix.
  now rewrite andb_true_iff, Nat.eqb_eq, forallb_is_vector.
Qed.

Lemma has_width_spec n x :
  has_width n x = true <-> x <> [] /\ Forall (fun v => length v = n) x.
Proof.
  unfold has_width. destruct x as [|v x].
  - split; [discriminate | intros [H _]; now destruct H].
  - change (forallb (fun r => Nat.eqb (length r) n) (v :: x))
      with (forallb (is_vector n) (v :: x)).
    rewrite forallb_is_vector. split.
    + intros H. split; [discriminate | exact H].
    + intros [_ H]. exact H.
Qed.

Lemma Matrix_has_width r c x : Matrix r c x -> r <> 0%nat -> has_width c x = true.
Proof.
  intros [Hr Hc] Hne. apply has_width_spec. split; [|assumption].
  intros ->. simpl in Hr. lia.
Qed.

Lemma Matrix_map r c c' (f : vector -> vector) x :
  (forall v, length v = c -> length (f v) = c') ->
  Matrix r c x -> Matrix r c' (map f x).
Proof.
  intros Hf [Hr Hc]. split; [now rewrite length_map|].
  apply List.Forall_map. revert Hc. apply List.Forall_impl. exact Hf.
Qed.

Lemma Matrix_last_dim r c x : Matrix r c x -> r <> 0%nat -> last_dim x = c.
Proof.
  intros [Hr Hc] Hne. destruct x as [|v x]; [simpl in Hr; lia|].
  now inversion Hc.
Qed.

Lemma linear_call_shape st n_in n_out l r x :
  wf_linear n_in n_out l = true -> Matrix r n_in x -> r <> 0%nat ->
  exists y, linear_call st l x = Ok y /\ Matrix r n_out y.
Proof.
  unfold wf_linear. rewrite !andb_true_iff, !Nat.eqb_eq, is_matrix_spec, is_vector_spec.
  intros [[[Hi Ho] [Hw _]] Hb] Hx Hr.
  unfold linear_call. rewrite Hi, (Matrix_has_width r n_in x Hx Hr).
  eexists. split; [reflexivity|].
  apply (Matrix_map r n_in); [|assumption].
  intros v _. rewrite length_zip_with. lia.
Qed.

Lemma linear_call_rows st l x y : linear_call st l x = Ok y -> length y = length x.
Proof.
  unfold linear_call. destruct (has_width _ x); [|discriminate].
  intros [= <-]. apply length_map.
Qed.

Lemma linear_call_error st l x e : linear_call st l x = Raise e -> e = ShapeError st.
Proof.
  unfold linear_call. destruct (has_width _ x); [discriminate|]. now intros [= <-].
Qed.

Lemma normalise_shape mu var gamma beta r c x :
  Matrix r c x -> Matrix r c (normalise mu var gamma beta x).
Proof.
  apply Matrix_map. intros v Hv. now rewrite length_map, length_seq.
Qed.

Lemma relu_shape r c x : Matrix r c x -> Matrix r c (relu x).
Proof. apply Matrix_map. intros v Hv. now rewrite length_map. Qed.

Lemma length_ema old new : length (ema old new) = Nat.min (length old) (length new).
Proof. apply length_zip_with. Qed.

Lemma batchnorm_call_shape tr n bn r x :
  wf_batchnorm n bn = true -> Matrix r n x -> r <> 0%nat ->
  (tr = true -> r <> 1%nat) ->
  exists y bn',
    batchnorm_call tr bn x = Ok (y, bn')
    /\ Matrix r n y /\ wf_batchnorm n bn' = true
    /\ bn_weight bn' = bn_weight bn /\ bn_bias bn' = bn_bias bn
    /\ (tr = false -> bn' = bn).
Proof.
  intros Hwf Hx Hr Htr.
  pose proof Hwf as Hwf'. unfold wf_batchnorm in Hwf'.
  rewrite !andb_true_iff, !Nat.eqb_eq, !is_vector_spec in Hwf'.
  destruct Hwf' as [[[[Hn Hg] Hb] Hm] Hv].
  unfold batchnorm_call.
  rewrite Hn, (Matrix_has_width r n x Hx Hr). simpl negb. cbv iota.
  destruct tr.
  - destruct (Nat.eqb_spec (length x) 1) as [E|_].
    { destruct Hx as [Hx _]. rewrite Hx in E. now destruct (Htr eq_refl). }
    simpl. eexists _, _. split; [reflexivity|].
    split; [now apply normalise_shape|].
    split; [|repeat split; try reflexivity; discriminate].
    unfold wf_batchnorm. simpl.
    rewrite !andb_true_iff, !Nat.eqb_eq, !is_vector_spec, !length_ema,
      !length_map, !length_seq.
    repeat split; lia.
  - simpl. exists (normalise (running_mean bn) (running_var bn)
                     (bn_weight bn) (bn_bias bn) x), bn.
    split; [reflexivity|]. split; [now apply normalise_shape|].
    repeat split; assumption.
Qed.

Lemma batchnorm_call_rows tr bn x y bn' :
  batchnorm_call tr bn x = Ok (y, bn') -> length y = length x.
Proof.
  unfold batchnorm_call.
  destruct (tr && _); [discriminate|].
  destruct (negb _); [discriminate|].
  destruct tr; intros [= <- _]; unfold normalise; apply length_map.
Qed.

Lemma batchnorm_call_error tr bn x e :
  batchnorm_call tr bn x = Raise e -> e = ShapeError AtBatchNorm.
Proof.
  unfold batchnorm_call.
  destruct (tr && _); [now intros [= <-]|].
  destruct (negb _); [now intros [= <-]|].
  destruct tr; discriminate.
Qed.

Lemma length_relu x : length (relu x) = length x.
Proof. apply length_map. Qed.

Lemma conv_call_shape b c len x :
  wf_conv b c = true -> Matrix b len x -> b <> 0%nat ->
  exists y, conv_call c x = Ok y /\ Matrix b len y.
Proof.
  unfold wf_conv. rewrite !andb_true_iff, !Nat.eqb_eq, is_vector_spec.
  intros [[[Hi Ho] Hw] Hb] Hx Hne.
  unfold is_tensor3 in Hw. rewrite andb_true_iff, Nat.eqb_eq in Hw.
  destruct Hw as [Hw _].
  unfold conv_call.
  rewrite (Matrix_last_dim b len x Hx Hne).
  destruct Hx as [Hx Hrows].
  destruct x as [|v x]; [simpl in Hx; lia|].
  rewrite Hx, Hi, Nat.eqb_refl.
  eexists. split; [reflexivity|]. split.
  - rewrite length_zip_with_l_eq; [exact Hw|]. now rewrite Hb.
  - clear. generalize (conv_bias c). induction (conv_weight c) as [|wt wts IH];
      intros [|bi bs]; simpl; try constructor.
    + now rewrite length_map, length_seq.
    + apply IH.
Qed.

Lemma conv_call_ok_rows c x y : conv_call c x = Ok y -> length x = in_channels c.
Proof.
  unfold conv_call. destruct x as [|v x]; [discriminate|].
  destruct (Nat.eqb_spec (length (v :: x)) (in_channels c)); [|discriminate].
  now intros _.
Qed.

Lemma conv_call_error c x e : conv_call c x = Raise e -> e = ShapeError AtConv.
Proof.
  unfold conv_call. destruct x as [|v x]; [now intros [= <-]|].
  destruct (Nat.eqb _ _); [discriminate | now intros [= <-]].
Qed.

Lemma conv_call_mismatch c x :
  length x <> in_channels c -> conv_call c x = Raise (ShapeError AtConv).
Proof.
  intros H. unfold conv_call. destruct x as [|v x]; [reflexivity|].
  destruct (Nat.eqb_spec (length (v :: x)) (in_channels c)); [contradiction|reflexivity].
Qed.

Lemma length_dropout_row p keep v : forall pos,
  length (dropout_row p keep pos v) = length v.
Proof. induction v as [|a v IH]; intros pos; simpl; [reflexivity | now rewrite IH]. Qed.

Lemma dropout_rows_shape p keep r c x : forall pos,
  Matrix r c x -> Matrix r c (dropout_rows p keep pos x).
Proof.
  revert r. induction x as [|v x IH]; intros r pos [Hr Hc]; simpl.
  - split; [assumption | constructor].
  - inversion Hc as [|? ? Hv Hx]; subst.
    destruct (IH (length x) (pos + length v)%nat) as [Hr' Hc']; [now split|].
    split; [simpl; now rewrite Hr'|].
    constructor; [apply length_dropout_row | assumption].
Qed.

Lemma dropout_call_ok p tr x w :
  exists y w',
    dropout_call p tr x w = Ok (y, w')
    /\ (forall r c, Matrix r c x -> Matrix r c y)
    /\ (tr = false -> y = x /\ w' = w).
Proof.
  unfold dropout_call. destruct tr.
  - eexists _, _. split; [reflexivity|]. split; [|discriminate].
    intros r c. apply dropout_rows_shape.
  - exists x, w. split; [reflexivity|]. split; [now intros r c H | now intros _].
Qed.

Lemma target_ok_all c x : forall r y,
  Matrix r c x -> length y = r ->
  Forall (fun t => 0 <= t < Z.of_nat c) y ->
  forallb target_ok (combine x y) = true.
Proof.
  induction x as [|v x IH]; intros r y [Hr Hc] Hy Hall; [reflexivity|].
  destruct y as [|t y]; [reflexivity|].
  inversion Hc; subst. inversion Hall; subst. simpl in *.
  rewrite (IH (length x) y); [|now split|lia|assumption].
  rewrite andb_true_r. unfold target_ok. simpl.
  apply orb_true_iff. right. apply andb_true_iff.
  split; [apply Z.leb_le | apply Z.ltb_lt]; lia.
Qed.

Lemma cross_entropy_ok r c x y :
  Matrix r c x -> length y = r ->
  Forall (fun t => 0 <= t < Z.of_nat c) y ->
  exists l, cross_entropy x y = Ok l.
Proof.
  intros Hx Hy Hall. unfold cross_entropy.
  destruct Hx as [Hr Hc].
  rewrite Hr, Hy, Nat.eqb_refl. simpl negb. cbv iota.
  rewrite (target_ok_all c x r y); [|now split|assumption|assumption].
  eexists. reflexivity.
Qed.

(** ** The forward pass *)

Lemma lift_ok {A} (r : result A) a w : r = Ok a -> lift r w = Ok (a, w).
Proof. now intros ->. Qed.

Lemma lift_raise {A} (r : result A) e w : r = Raise e -> lift r w = @Raise (A * world) e.
Proof. now intros ->. Qed.

Lemma lift_ok_inv {A} (r : result A) a w w' :
  lift r w = Ok (a, w') -> r = Ok a /\ w' = w.
Proof. unfold lift. destruct r; [|discriminate]. now intros [= -> ->]. Qed.

Lemma lift_raise_inv {A} (r : result A) e w :
  lift r w = Raise e -> r = Raise e.
Proof. unfold lift. destruct r; [discriminate|]. now intros [= ->]. Qed.

Lemma wf_model_set_batchnorm b m bn :
  wf_model b m = true -> wf_batchnorm 26 bn = true ->
  wf_model b (set_batchnorm m bn) = true.
Proof.
  unfold wf_model. simpl. rewrite !andb_true_iff. intros [[[? ?] ?] _] ?.
  repeat split; assumption.
Qed.

Lemma call_batchnorm_shape b m r x w :
  wf_model b m = true -> Matrix r 26 x -> r <> 0%nat ->
  (training m = true -> r <> 1%nat) ->
  exists y m',
    call_batchnorm m x w = Ok ((y, m'), w)
    /\ Matrix r 26 y /\ wf_model b m' = true
    /\ conv m' = conv m /\ layer1 m' = layer1 m /\ layer2 m' = layer2 m
    /\ dropout m' = dropout m /\ training m' = training m /\ grad m' = grad m
    /\ parameters m' = parameters m
    /\ (training m = false -> m' = m).
Proof.
  intros Hwf Hx Hr Htr.
  assert (Hbn : wf_batchnorm 26 (batchnorm m) = true).
  { unfold wf_model in Hwf. now rewrite !andb_true_iff in Hwf. }
  destruct (batchnorm_call_shape (training m) 26 (batchnorm m) r x Hbn Hx Hr Htr)
    as (y & bn' & Hcall & Hy & Hbn' & Hg & Hb & Heval).
  exists y, (set_batchnorm m bn').
  unfold call_batchnorm. rewrite (bind_ok _ _ _ _ _ (lift_ok _ _ w Hcall)).
  split; [reflexivity|]. split; [assumption|].
  split; [now apply wf_model_set_batchnorm|].
  repeat split; try reflexivity.
  - unfold parameters. simpl. now rewrite Hg, Hb.
  - intros Hev. rewrite (Heval Hev). now destruct m.
Qed.

(** What one call of [forward] does on a batch of the size the model was
    built for: the scores have 26 columns, the module keeps its shape, its
    parameters and its mode, and the labelled call is the unlabelled one
    followed by the loss. *)
Lemma forward_run b m x w :
  wf_model b m = true -> Matrix b 1 x -> b <> 0%nat ->
  (training m = true -> b <> 1%nat) ->
  exists s m' w',
    forward m x None w = Ok ((Scores s, m'), w')
    /\ Matrix b 26 s
    /\ wf_model b m' = true
    /\ training m' = training m /\ grad m' = grad m
    /\ parameters m' = parameters m
    /\ (training m = false -> m' = m /\ w' = w)
    /\ forall y,
         forward m x (Some y) w =
         match cross_entropy s y with
         | Ok l => Ok ((LossValue l, m'), w')
         | Raise e => Raise e
         end.
Proof.
  intros Hwf Hx Hb Htr.
  pose proof Hwf as Hwf0. unfold wf_model in Hwf0.
  rewrite !andb_true_iff in Hwf0. destruct Hwf0 as [[[Hc Hl1] Hl2] _].
  destruct (linear_call_shape AtLayer1 1 26 (layer1 m) b x Hl1 Hx Hb)
    as (x1 & E1 & Hx1).
  destruct (call_batchnorm_shape b m b x1 w Hwf Hx1 Hb Htr)
    as (x2 & m1 & E2 & Hx2 & Hwf1 & Hc1 & Hl11 & Hl21 & Hd1 & Ht1 & Hg1 & Hp1 & Hev1).
  destruct (conv_call_shape b (conv m) 26 (relu x2) Hc (relu_shape _ _ _ Hx2) Hb)
    as (x3 & E3 & Hx3).
  assert (Htr1 : training m1 = true -> b <> 1%nat) by (rewrite Ht1; exact Htr).
  destruct (call_batchnorm_shape b m1 b x3 w Hwf1 Hx3 Hb Htr1)
    as (x4 & m2 & E4 & Hx4 & Hwf2 & Hc2 & Hl12 & Hl22 & Hd2 & Ht2 & Hg2 & Hp2 & Hev2).
  destruct (linear_call_shape AtLayer2 26 26 (layer2 m) b (relu x4) Hl2
              (relu_shape _ _ _ Hx4) Hb) as (x5 & E5 & Hx5).
  assert (Htr2 : training m2 = true -> b <> 1%nat) by (rewrite Ht2, Ht1; exact Htr).
  destruct (call_batchnorm_shape b m2 b x5 w Hwf2 Hx5 Hb Htr2)
    as (x6 & m3 & E6 & Hx6 & Hwf3 & Hc3 & Hl13 & Hl23 & Hd3 & Ht3 & Hg3 & Hp3 & Hev3).
  destruct (dropout_call_ok (dropout m3) (training m3) (relu x6) w)
    as (x7 & w' & E7 & Hx7 & Hev7).
  assert (Hrun : forall y,
    forward m x y w =
    match y with
    | Some y => bind (lift (cross_entropy x7 y)) (fun l => ret (LossValue l, m3)) w'
    | None => Ok ((Scores x7, m3), w')
    end).
  { intros y. unfold forward.
    rewrite (bind_ok _ _ _ _ _ (lift_ok _ _ w E1)).
    rewrite (bind_ok _ _ _ _ _ E2). cbv beta iota.
    rewrite Hc1, (bind_ok _ _ _ _ _ (lift_ok _ _ w E3)).
    rewrite (bind_ok _ _ _ _ _ E4). cbv beta iota.
    rewrite Hl22, Hl21, (bind_ok _ _ _ _ _ (lift_ok _ _ w E5)).
    rewrite (bind_ok _ _ _ _ _ E6). cbv beta iota.
    rewrite (bind_ok _ _ _ _ _ E7).
    destruct y; reflexivity. }
  exists x7, m3, w'.
  split; [exact (Hrun None)|].
  split; [apply Hx7, relu_shape, Hx6|].
  split; [assumption|].
  split; [congruence|]. split; [congruence|]. split; [congruence|].
  split.
  - intros Hev. assert (training m3 = false) by congruence.
    destruct (Hev7 H) as [_ ->].
    rewrite (Hev3 ltac:(congruence)), (Hev2 ltac:(congruence)), (Hev1 Hev).
    now split.
  - intros y. rewrite (Hrun (Some y)). unfold bind, lift, ret.
    destruct (cross_entropy x7 y); reflexivity.
Qed.

(** ** The sample generator *)

Lemma Sample_feature word crc label :
  Sample word crc label -> exists v, crc = [v] /\ 0 <= v <= 255.
Proof.
  intros (_ & -> & _). eexists. split; [reflexivity | apply checksum_range].
Qed.

Lemma Sample_label word crc label : Sample word crc label -> 0 <= label < 26.
Proof.
  intros (Hw & _ & c & Hc & ->).
  destruct word as [|c' word]; [discriminate|]. injection Hc as ->.
  inversion Hw as [|? ? Hl _]; subst. unfold is_letter, ord_a in *. lia.
Qed.

Lemma build_words_loop_ok word_dim :
  2 <= word_dim <= 2 ^ 63 ->
  forall n words crclabels labels w,
  exists ws cs ls k,
    build_words_loop n word_dim words crclabels labels w
    = Ok ((words ++ ws, crclabels ++ cs, labels ++ ls), np_skip k w)
    /\ Forall3 Sample ws cs ls
    /\ length ws = n
    /\ (2 * n <= k)%nat.
Proof.
  intros Hdim. induction n as [|n IH]; intros words crclabels labels w.
  - exists [], [], [], 0%nat. simpl. rewrite !app_nil_r.
    repeat split; [constructor | lia].
  - cbn [build_words_loop].
    destruct (randint_ok 1 word_dim w) as (len & Hr & Hlen);
      [unfold int64_min; lia | lia | unfold int64_max; lia |].
    rewrite (bind_ok _ _ _ _ _ Hr). cbv beta.
    destruct (build_word_ok len (np_advance w)) as (c & cs & Hb & Hl & Hall); [lia|].
    rewrite (bind_ok _ _ _ _ _ Hb). cbv beta iota.
    rewrite (bind_ok _ _ _ _ _
               (build_crc_label_ok _ _ _ (encode_letters _ Hall))). cbv beta.
    destruct (IH (words ++ [c :: cs]) (crclabels ++ [[Crc8.checksum (c :: cs)]])
                (labels ++ [c - ord_a]) (np_skip (Z.to_nat len) (np_advance w)))
      as (ws & fs & ls & k & Hloop & Hs & Hn & Hk).
    exists ((c :: cs) :: ws), ([Crc8.checksum (c :: cs)] :: fs), ((c - ord_a) :: ls),
      (S (Z.to_nat len) + k)%nat.
    split; [|split; [|split]].
    + etransitivity; [exact Hloop|].
      rewrite np_skip_succ_r, np_skip_add, <- !app_assoc. reflexivity.
    + constructor; [|assumption].
      split; [assumption|]. split; [reflexivity|]. now exists c.
    + simpl. now f_equal.
    + lia.
Qed.

Lemma build_words_ok n word_dim w :
  2 <= word_dim <= 2 ^ 63 ->
  exists words crclabels labels k,
    build_words n word_dim w = Ok ((words, crclabels, labels), np_skip k w)
    /\ Forall3 Sample words crclabels labels
    /\ length words = n
    /\ (2 * n <= k)%nat.
Proof.
  intros Hdim. unfold build_words.
  destruct (build_words_loop_ok word_dim Hdim n [] [] [] w)
    as (ws & cs & ls & k & H). now exists ws, cs, ls, k.
Qed.

Lemma build_words_bad_dim n word_dim w :
  word_dim < 2 \/ 2 ^ 63 < word_dim ->
  build_words (S n) word_dim w = Raise ValueError.
Proof.
  intros H. unfold build_words. cbn [build_words_loop].
  apply bind_raise, randint_raise. unfold int64_min, int64_max. lia.
Qed.

Lemma Samples_lengths ws cs ls :
  Forall3 Sample ws cs ls -> length cs = length ws /\ length ls = length ws.
Proof. induction 1; simpl; [split; reflexivity | lia]. Qed.

Lemma Samples_labels ws cs ls :
  Forall3 Sample ws cs ls -> Forall (fun t => 0 <= t < 26) ls.
Proof.
  induction 1 as [|? ? ? ? ? ? Hs]; constructor; [|assumption].
  exact (Sample_label _ _ _ Hs).
Qed.

Lemma forallb_length {A} n (l : list (list A)) :
  Forall (fun c => length c = n) l ->
  forallb (fun r => Nat.eqb (length r) n) l = true.
Proof.
  induction 1 as [|c l Hc _ IH]; simpl; [reflexivity|].
  now rewrite IH, Hc, Nat.eqb_refl.
Qed.

Lemma FloatTensor_features ws cs ls w :
  Forall3 Sample ws cs ls ->
  FloatTensor cs w = Ok (map (map IZR) cs, w)
  /\ Matrix (length ws) 1 (map (map IZR) cs).
Proof.
  intros Hs.
  assert (Hone : Forall (fun c => length c = 1%nat) cs).
  { induction Hs as [|? ? ? ? ? ? Hs]; constructor; [|assumption].
    destruct (Sample_feature _ _ _ Hs) as (v & -> & _). reflexivity. }
  split.
  - unfold FloatTensor.
    replace (forallb _ cs) with true; [reflexivity|]. symmetry.
    destruct cs as [|c cs]; [reflexivity|].
    inversion Hone as [|? ? Hc Hcs]; subst.
    cbn [last_dim]. rewrite Hc. now apply forallb_length.
  - split.
    + rewrite length_map. apply (Samples_lengths _ _ _ Hs).
    + apply List.Forall_map. revert Hone. apply List.Forall_impl.
      intros c Hc. now rewrite length_map.
Qed.

(** A word labelled with the rank of its first letter. *)
Lemma Sample_rank word crc label :
  Sample word crc label ->
  exists c, head word = Some c /\ alphabetic_rank c = Some label /\ 0 <= label < 26.
Proof.
  intros Hs. pose proof (Sample_label _ _ _ Hs) as Hl.
  destruct Hs as (Hw & _ & c & Hc & ->). exists c.
  split; [exact Hc|]. split; [|exact Hl].
  destruct word as [|c' word]; [discriminate|]. injection Hc as ->.
  inversion Hw as [|? ? Hlet _]; subst. now apply rank_of_letter.
Qed.

(** C3.  For every length of at least 1 and every state of the generator,
    [build_word] returns a word and a label such that the label is the
    alphabetic rank of the word's first character, an integer of [0, 26);
    and whatever the length bound, every word that [build_words] returns
    comes with such a label; [build_words] fails to return only when a word
    is asked for and the bound is below 2 or beyond what numpy's generator
    accepts, 2^63. *)
Theorem build_word_label_is_rank (word_len : Z) (w : world) :
  1 <= word_len ->
  (exists word label w' c,
      build_word word_len w = Ok ((word, label), w')
      /\ head word = Some c
      /\ alphabetic_rank c = Some label
      /\ 0 <= label < 26)
  /\ (forall n word_dim,
        match build_words n word_dim w with
        | Ok ((words, _, labels), _) =>
            Forall2 (fun word label =>
                       exists c, head word = Some c
                                 /\ alphabetic_rank c = Some label
                                 /\ 0 <= label < 26)
              words labels
        | Raise e =>
            e = ValueError /\ (word_dim < 2 \/ 2 ^ 63 < word_dim) /\ n <> 0%nat
        end).
Proof.
  intros Hlen. split.
  - destruct (build_word_ok word_len w Hlen) as (c & cs & Hb & _ & Hall).
    exists (c :: cs), (c - ord_a), (np_skip (Z.to_nat word_len) w), c.
    assert (Hc : is_letter c) by now inversion Hall.
    repeat split; try assumption.
    + now apply rank_of_letter.
    + unfold ord_a, is_letter in *. lia.
    + unfold ord_a, is_letter in *. lia.
  - intros n word_dim.
    destruct (Z_lt_le_dec word_dim 2) as [Hd|Hd];
      [|destruct (Z_lt_le_dec (2 ^ 63) word_dim) as [Hu|Hu]].
    + destruct n as [|n]; [constructor|].
      rewrite (build_words_bad_dim n word_dim w (or_introl Hd)).
      split; [reflexivity|]. split; [now left | discriminate].
    + destruct n as [|n]; [constructor|].
      rewrite (build_words_bad_dim n word_dim w (or_intror Hu)).
      split; [reflexivity|]. split; [now right | discriminate].
    + destruct (build_words_ok n word_dim w (conj Hd Hu))
        as (ws & cs & ls & k & -> & Hs & _).
      induction Hs as [|? ? ? ? ? ? Hs]; constructor; [|assumption].
      exact (Sample_rank _ _ _ Hs).
Qed.

Lemma build_word_label_is_rank_witness :
  exists word label w' c,
    build_word 3 example_world = Ok ((word, label), w')
    /\ head word = Some c
    /\ alphabetic_rank c = Some label
    /\ 0 <= label < 26.
Proof. apply (build_word_label_is_rank 3 example_world). lia. Defined.

(** ** Evaluation *)

Lemma np_max_top p : p <> [] -> np_max p = Ok (top_value p).
Proof. destruct p; [congruence | reflexivity]. Qed.

Lemma hits_le pairs : (hits pairs <= length pairs)%nat.
Proof. unfold hits. apply List.filter_length_le. Qed.

Lemma hits_cons pt pairs :
  hits (pt :: pairs) = ((if hit pt then 1 else 0) + hits pairs)%nat.
Proof. unfold hits. simpl. now destruct (hit pt). Qed.

Lemma ok_pair_eq (a a' b b' : nat) :
  a = a' -> b = b' -> @Ok (nat * nat) (a, b) = Ok (a', b').
Proof. now intros -> ->. Qed.

(** The counting loop adds the hits to [correct] and the rest to [wrong]. *)
Lemma count_loop_hits pairs :
  Forall (fun pt => fst pt <> []) pairs ->
  forall correct wrong,
    count_loop pairs correct wrong
    = Ok ((correct + hits pairs)%nat, (wrong + (length pairs - hits pairs))%nat).
Proof.
  induction 1 as [|[p t] pairs Hp _ IH]; intros correct wrong.
  - simpl. unfold hits. simpl. apply ok_pair_eq; lia.
  - cbn [count_loop]. rewrite (np_max_top p Hp). rewrite hits_cons.
    pose proof (hits_le pairs) as Hle. unfold vector in Hle.
    unfold hit. cbn [fst snd].
    destruct (Req_dec_T (top_value p) (IZR t)); rewrite IH; simpl length;
      apply ok_pair_eq; lia.
Qed.

Lemma combine_rows_nonempty r c (s : matrix) (labels : list Z) :
  Matrix r c s -> c <> 0%nat ->
  Forall (fun pt : vector * Z => fst pt <> []) (combine s labels).
Proof.
  intros [_ Hc] Hne. revert labels.
  induction Hc as [|v s Hv _ IH]; intros [|t labels]; simpl; try constructor.
  - simpl. intros ->. simpl in Hv. lia.
  - apply IH.
Qed.

Lemma true_div_ok a b : b <> 0%nat -> true_div a b = Ok (INR a / INR b)%R.
Proof.
  intros H. unfold true_div. destruct (Nat.eqb_spec b 0); [contradiction|reflexivity].
Qed.

Lemma ratio_in_unit a b : (a <= b)%nat -> b <> 0%nat -> (0 <= INR a / INR b <= 1)%R.
Proof.
  intros Hab Hb.
  assert (0 < INR b)%R by (apply lt_0_INR; lia).
  assert (0 <= INR a)%R by apply pos_INR.
  assert (INR a <= INR b)%R by now apply le_INR.
  split.
  - apply Rmult_le_pos; [assumption|]. left. now apply Rinv_0_lt_compat.
  - apply (Rmult_le_reg_r (INR b)); [assumption|].
    unfold Rdiv. rewrite Rmult_assoc, Rinv_l, Rmult_1_r, Rmult_1_l; [assumption|].
    now apply Rgt_not_eq.
Qed.

Lemma wf_model_eval b m : wf_model b (eval m) = wf_model b m.
Proof. reflexivity. Qed.

(** What one call of [evaluate] does when the sample count is the batch
    size of the model. *)
Lemma evaluate_run b m word_dim w :
  wf_model b m = true -> b <> 0%nat -> 2 <= word_dim <= 2 ^ 63 ->
  exists words crclabels labels k s w',
    build_words b word_dim w = Ok ((words, crclabels, labels), np_skip k w)
    /\ Forall3 Sample words crclabels labels
    /\ length words = b
    /\ (2 * b <= k)%nat
    /\ forward (eval m) (map (map IZR) crclabels) None (np_skip k w)
       = Ok ((Scores s, eval m), np_skip k w)
    /\ Matrix b 26 s
    /\ print (EvalLine (hits (combine s labels))
                (INR (hits (combine s labels)) / INR b)%R) (np_skip k w)
       = Ok (tt, w')
    /\ evaluate m b word_dim w
       = Ok (((INR (hits (combine s labels)) / INR b)%R, eval m), w').
Proof.
  intros Hwf Hb Hdim.
  destruct (build_words_ok b word_dim w Hdim) as (ws & cs & ls & k & Hbw & Hs & Hn & Hk).
  destruct (FloatTensor_features ws cs ls (np_skip k w) Hs) as [Hft Hx].
  rewrite Hn in Hx.
  destruct (forward_run b (eval m) (map (map IZR) cs) (np_skip k w))
    as (s & m' & w1 & Hf & Hsc & _ & _ & _ & _ & Hev & _);
    [assumption | assumption | assumption | discriminate |].
  destruct (Hev eq_refl) as [-> ->].
  destruct (Samples_lengths _ _ _ Hs) as [_ Hll]. rewrite Hn in Hll.
  assert (Hlen : length (combine s ls) = b).
  { rewrite length_combine. destruct Hsc as [-> _]. lia. }
  pose proof (count_loop_hits (combine s ls)
                (combine_rows_nonempty b 26 s ls Hsc ltac:(lia)) 0 0) as Hcl.
  pose proof (hits_le (combine s ls)) as Hle.
  unfold vector in Hle, Hcl, Hlen. rewrite Hlen in Hle, Hcl.
  simpl in Hcl.
  eexists ws, cs, ls, k, s, _.
  split; [exact Hbw|]. split; [exact Hs|]. split; [exact Hn|]. split; [exact Hk|].
  split; [exact Hf|]. split; [exact Hsc|]. split; [reflexivity|].
  unfold evaluate.
  rewrite (bind_ok _ _ _ _ _ Hbw). cbv beta iota.
  rewrite (bind_ok _ _ _ _ _ Hft).
  rewrite (bind_ok _ _ _ _ _ Hf). cbv beta iota.
  rewrite (bind_ok _ _ _ _ _ (lift_ok _ _ _ Hcl)). cbv beta iota.
  replace (hits (combine s ls) + (b - hits (combine s ls)))%nat with b by lia.
  rewrite (bind_ok _ _ _ _ _ (lift_ok _ _ _ (true_div_ok _ b Hb))).
  unfold print at 1. unfold bind at 1. cbv beta iota.
  rewrite (bind_ok _ _ _ _ _ (lift_ok _ _ _ (true_div_ok _ b Hb))).
  reflexivity.
Qed.

Local Open Scope R_scope.

Lemma fold_Rmax_ge l : forall a, a <= fold_left Rmax l a.
Proof.
  induction l as [|b l IH]; intros a; simpl; [lra|].
  apply Rle_trans with (Rmax a b); [apply Rmax_l | apply IH].
Qed.

Lemma fold_Rmax_upper l : forall a, Forall (fun b => b <= fold_left Rmax l a) l.
Proof.
  induction l as [|b l IH]; intros a; simpl; constructor.
  - apply Rle_trans with (Rmax a b); [apply Rmax_r | apply fold_Rmax_ge].
  - apply IH.
Qed.

Lemma fold_Rmax_in l : forall a, In (fold_left Rmax l a) (a :: l).
Proof.
  induction l as [|b l IH]; intros a; simpl; [now left|].
  destruct (IH (Rmax a b)) as [H|H]; [|now right; right].
  rewrite <- H. unfold Rmax. destruct (Rle_dec a b); [right; now left | now left].
Qed.

(** [top_value] is the largest entry of a row that has one. *)
Lemma top_value_is_max p :
  p <> [] -> In (top_value p) p /\ Forall (fun a => a <= top_value p) p.
Proof.
  destruct p as [|a p]; [congruence|]. intros _. simpl top_value. split.
  - apply fold_Rmax_in.
  - constructor; [apply fold_Rmax_ge | apply fold_Rmax_upper].
Qed.

Lemma hit_spec p t : hit (p, t) = true <-> top_value p = IZR t.
Proof.
  unfold hit. simpl. destruct (Req_dec_T (top_value p) (IZR t)).
  - now split.
  - split; [discriminate | contradiction].
Qed.

Lemma fold_Rmax_zeros n a : 0 <= a -> fold_left Rmax (repeat 0 n) a = a.
Proof.
  intros Ha. induction n as [|n IH]; simpl; [reflexivity|].
  now rewrite Rmax_left.
Qed.

Lemma argmax_from_zeros n best i j :
  0 <= best -> argmax_from best i j (repeat 0 n) = i.
Proof.
  intros Hb. revert j. induction n as [|n IH]; intros j; simpl; [reflexivity|].
  destruct (Rlt_dec best 0); [lra | apply IH].
Qed.

Lemma np_argmax_cons a p : np_argmax (a :: p) = Ok (argmax_from a 0 1 p).
Proof. reflexivity. Qed.

Lemma argmax_from_cons best best_i i a p :
  argmax_from best best_i i (a :: p)
  = if Rlt_dec best a then argmax_from a i (S i) p
    else argmax_from best best_i (S i) p.
Proof. reflexivity. Qed.

Lemma top_value_cons a p : top_value (a :: p) = fold_left Rmax p a.
Proof. reflexivity. Qed.

Lemma fold_Rmax_cons a b p : fold_left Rmax (b :: p) a = fold_left Rmax p (Rmax a b).
Proof. reflexivity. Qed.

Lemma row_top_at_label_facts :
  length row_top_at_label = 26%nat
  /\ np_argmax row_top_at_label = Ok 0%nat
  /\ hit (row_top_at_label, 0%Z) = false.
Proof.
  split; [reflexivity|]. split.
  - unfold row_top_at_label. rewrite np_argmax_cons.
    now rewrite argmax_from_zeros by lra.
  - unfold hit, row_top_at_label. cbv beta iota delta [fst snd].
    rewrite top_value_cons, fold_Rmax_zeros by lra.
    destruct (Req_dec_T (1 / 2) 0); [lra | reflexivity].
Qed.

Lemma row_top_is_label_facts :
  length row_top_is_label = 26%nat
  /\ np_argmax row_top_is_label = Ok 1%nat
  /\ hit (row_top_is_label, 3%Z) = true.
Proof.
  split; [reflexivity|]. split.
  - unfold row_top_is_label. rewrite np_argmax_cons, argmax_from_cons.
    destruct (Rlt_dec 0 3); [|lra].
    now rewrite argmax_from_zeros by lra.
  - apply hit_spec. unfold row_top_is_label.
    rewrite top_value_cons, fold_Rmax_cons, Rmax_right by lra.
    now rewrite fold_Rmax_zeros by lra.
Qed.

Local Open Scope Z_scope.

Lemma print_stdout l w w' : print l w = Ok (tt, w') -> stdout w' = stdout w ++ [l].
Proof. unfold print. now intros [= <-]. Qed.

(** C1.  For a batch size other than 0 and a length bound from 2 to 2^63,
    the bounds for which the samples can be drawn, [evaluate] prints and
    returns the number of samples for which the largest score of the row,
    as a number, equals the label; whether the position of that score is
    the label plays no part. *)
Theorem evaluate_counts_top_value_equal_label
    (b : nat) (m : TxtClassifyModel) (word_dim : Z) (w : world) :
  wf_model b m = true -> b <> 0%nat -> 2 <= word_dim <= 2 ^ 63 ->
  (exists words crclabels labels k s w',
      build_words b word_dim w = Ok ((words, crclabels, labels), np_skip k w)
      /\ forward (eval m) (map (map IZR) crclabels) None (np_skip k w)
         = Ok ((Scores s, eval m), np_skip k w)
      /\ evaluate m b word_dim w
         = Ok (((INR (hits (combine s labels)) / INR b)%R, eval m), w')
      /\ stdout w' = stdout w ++ [EvalLine (hits (combine s labels))
                                    (INR (hits (combine s labels)) / INR b)%R])
  /\ (forall p t, hit (p, t) = true <-> top_value p = IZR t)
  /\ (forall p, p <> [] ->
        In (top_value p) p /\ Forall (fun a => (a <= top_value p)%R) p)
  /\ (exists p t, length p = 26%nat /\ 0 <= t < 26
                  /\ np_argmax p = Ok (Z.to_nat t) /\ hit (p, t) = false)
  /\ (exists p t, length p = 26%nat /\ 0 <= t < 26
                  /\ np_argmax p <> Ok (Z.to_nat t) /\ hit (p, t) = true).
Proof.
  intros Hwf Hb Hdim. split; [|split; [|split; [|split]]].
  - destruct (evaluate_run b m word_dim w Hwf Hb Hdim)
      as (ws & cs & ls & k & s & w' & Hbw & _ & _ & _ & Hf & _ & Hp & He).
    exists ws, cs, ls, k, s, w'. repeat split; try assumption.
    rewrite (print_stdout _ _ _ Hp).
    now destruct (np_skip_fields k w) as (_ & _ & _ & _ & _ & _ & ->).
  - apply hit_spec.
  - apply top_value_is_max.
  - destruct row_top_at_label_facts as (Hl & Ha & Hh).
    exists row_top_at_label, 0. repeat split; try assumption; lia.
  - destruct row_top_is_label_facts as (Hl & Ha & Hh).
    exists row_top_is_label, 3. repeat split; try assumption; try lia.
    rewrite Ha. discriminate.
Qed.


(** ** The batch size is part of the model *)

Lemma wf_model_in_channels b m : wf_model b m = true -> in_channels (conv m) = b.
Proof.
  unfold wf_model, wf_conv. rewrite !andb_true_iff, !Nat.eqb_eq. tauto.
Qed.

Lemma wf_model_fields b m :
  wf_model b m = true ->
  (in_channels (conv m) = b /\ out_channels (conv m) = b
   /\ is_tensor3 b b 1 (conv_weight (conv m)) = true
   /\ length (conv_bias (conv m)) = b)
  /\ (in_features (layer1 m) = 1%nat /\ out_features (layer1 m) = 26%nat
      /\ Matrix 26 1 (lin_weight (layer1 m))
      /\ length (lin_bias (layer1 m)) = 26%nat)
  /\ (in_features (layer2 m) = 26%nat /\ out_features (layer2 m) = 26%nat
      /\ Matrix 26 26 (lin_weight (layer2 m))
      /\ length (lin_bias (layer2 m)) = 26%nat)
  /\ (num_features (batchnorm m) = 26%nat
      /\ length (bn_weight (batchnorm m)) = 26%nat
      /\ length (bn_bias (batchnorm m)) = 26%nat
      /\ length (running_mean (batchnorm m)) = 26%nat
      /\ length (running_var (batchnorm m)) = 26%nat).
Proof.
  unfold wf_model, wf_conv, wf_linear, wf_batchnorm.
  rewrite !andb_true_iff, !Nat.eqb_eq, !is_matrix_spec, !is_vector_spec. tauto.
Qed.

Lemma call_batchnorm_inv m x w r w' :
  call_batchnorm m x w = Ok (r, w') ->
  length (fst r) = length x /\ conv (snd r) = conv m /\ w' = w.
Proof.
  unfold call_batchnorm, bind, lift, ret.
  destruct (batchnorm_call (training m) (batchnorm m) x) as [[y bn]|e] eqn:E;
    [|discriminate].
  intros [= <- <-]. simpl. split; [|split; reflexivity].
  exact (batchnorm_call_rows _ _ _ _ _ E).
Qed.

Lemma call_batchnorm_error m x w e :
  call_batchnorm m x w = Raise e -> e = ShapeError AtBatchNorm.
Proof.
  unfold call_batchnorm, bind, lift, ret.
  destruct (batchnorm_call (training m) (batchnorm m) x) as [[y bn]|e'] eqn:E;
    [discriminate|].
  intros [= <-]. exact (batchnorm_call_error _ _ _ _ E).
Qed.

(** A batch whose number of rows is not the number of channels of the
    convolution never gets past it. *)
Lemma forward_wrong_rows m x y w :
  length x <> in_channels (conv m) ->
  exists st, forward m x y w = Raise (ShapeError st).
Proof.
  intros Hne. unfold forward.
  destruct (lift (linear_call AtLayer1 (layer1 m) x) w) as [[x1 w1]|e] eqn:E1.
  2:{ exists AtLayer1. rewrite (bind_raise _ _ _ _ E1).
      apply lift_raise_inv in E1. now rewrite (linear_call_error _ _ _ _ E1). }
  rewrite (bind_ok _ _ _ _ _ E1). apply lift_ok_inv in E1. destruct E1 as [E1 ->].
  destruct (call_batchnorm m x1 w) as [[[x2 m1] w1]|e] eqn:E2.
  2:{ exists AtBatchNorm. rewrite (bind_raise _ _ _ _ E2).
      now rewrite (call_batchnorm_error _ _ _ _ E2). }
  rewrite (bind_ok _ _ _ _ _ E2). cbv beta iota.
  destruct (call_batchnorm_inv _ _ _ _ _ E2) as (Hlen & Hconv & ->).
  cbv beta iota delta [fst snd] in Hlen, Hconv.
  exists AtConv.
  apply bind_raise, lift_raise, conv_call_mismatch.
  rewrite Hconv, length_relu, Hlen, (linear_call_rows _ _ _ _ E1). exact Hne.
Qed.

Lemma forward_ok_rows m x y w r :
  forward m x y w = Ok r -> length x = in_channels (conv m).
Proof.
  intros H. destruct (Nat.eq_dec (length x) (in_channels (conv m))) as [|Hne];
    [assumption|].
  destruct (forward_wrong_rows m x y w Hne) as (st & E). congruence.
Qed.

Lemma evaluate_wrong_size b n m word_dim w :
  wf_model b m = true -> n <> b -> 2 <= word_dim <= 2 ^ 63 ->
  exists st, evaluate m n word_dim w = Raise (ShapeError st).
Proof.
  intros Hwf Hne Hdim.
  destruct (build_words_ok n word_dim w Hdim) as (ws & cs & ls & k & Hbw & Hs & Hn & _).
  destruct (FloatTensor_features ws cs ls (np_skip k w) Hs) as [Hft [Hrows _]].
  destruct (forward_wrong_rows (eval m) (map (map IZR) cs) None (np_skip k w))
    as (st & Hf).
  { change (conv (eval m)) with (conv m).
    rewrite (wf_model_in_channels b m Hwf), Hrows. lia. }
  exists st. unfold evaluate.
  rewrite (bind_ok _ _ _ _ _ Hbw). cbv beta iota.
  rewrite (bind_ok _ _ _ _ _ Hft).
  now rewrite (bind_raise _ _ _ _ Hf).
Qed.

(** C9.  A call of [evaluate] with a sample count of at least 1 either
    stops before the counting loop (the sample count is not the model's
    batch size, or no word length can be drawn) or ends the loop with
    counters that sum to the sample count, divides by that sum, which is
    not zero, and returns a number of [0, 1].  With the sample count equal
    to the batch size and a length bound from 2 to 2^63, the largest that
    numpy's generator accepts, it does return. *)
Theorem evaluate_accuracy_is_probability
    (b n : nat) (m : TxtClassifyModel) (word_dim : Z) (w : world) :
  wf_model b m = true -> (1 <= n)%nat ->
  match evaluate m n word_dim w with
  | Ok ((acc, _), _) =>
      exists words crclabels labels k s correct wrong,
        build_words n word_dim w = Ok ((words, crclabels, labels), np_skip k w)
        /\ forward (eval m) (map (map IZR) crclabels) None (np_skip k w)
           = Ok ((Scores s, eval m), np_skip k w)
        /\ count_loop (combine s labels) 0 0 = Ok (correct, wrong)
        /\ (correct + wrong)%nat = n
        /\ true_div correct (correct + wrong) = Ok acc
        /\ (0 <= acc <= 1)%R
  | Raise e =>
      e <> ZeroDivisionError
      /\ (n <> b \/ word_dim < 2 \/ 2 ^ 63 < word_dim)
  end.
Proof.
  intros Hwf Hn.
  destruct (Z_lt_le_dec word_dim 2) as [Hdim|Hdim].
  { destruct n as [|n]; [lia|]. unfold evaluate.
    rewrite (bind_raise _ _ _ _ (build_words_bad_dim n word_dim w (or_introl Hdim))).
    split; [discriminate | right; now left]. }
  destruct (Z_lt_le_dec (2 ^ 63) word_dim) as [Hbig|Hbig].
  { destruct n as [|n]; [lia|]. unfold evaluate.
    rewrite (bind_raise _ _ _ _ (build_words_bad_dim n word_dim w (or_intror Hbig))).
    split; [discriminate | right; now right]. }
  destruct (Nat.eq_dec n b) as [->|Hne].
  2:{ destruct (evaluate_wrong_size b n m word_dim w Hwf Hne) as (st & ->); [lia|].
      split; [discriminate | now left]. }
  assert (Hb : b <> 0%nat) by lia.
  destruct (evaluate_run b m word_dim w Hwf Hb) as
    (ws & cs & ls & k & s & w' & Hbw & Hs & Hlen & _ & Hf & Hsc & _ & ->); [lia|].
  destruct (Samples_lengths _ _ _ Hs) as [_ Hll]. rewrite Hlen in Hll.
  assert (Hcomb : length (combine s ls) = b).
  { rewrite length_combine. destruct Hsc as [-> _]. lia. }
  pose proof (count_loop_hits (combine s ls)
                (combine_rows_nonempty b 26 s ls Hsc ltac:(lia)) 0 0) as Hcl.
  pose proof (hits_le (combine s ls)) as Hle.
  unfold vector in Hle, Hcl, Hcomb. rewrite Hcomb in Hle, Hcl. simpl in Hcl.
  exists ws, cs, ls, k, s, (hits (combine s ls)), (b - hits (combine s ls))%nat.
  split; [exact Hbw|]. split; [exact Hf|]. split; [exact Hcl|].
  replace (hits (combine s ls) + (b - hits (combine s ls)))%nat with b by lia.
  split; [reflexivity|]. split; [now apply true_div_ok|].
  now apply ratio_in_unit.
Qed.

Lemma example_model_wf : wf_model 25 (example_model 25) = true.
Proof. reflexivity. Qed.

Lemma evaluate_accuracy_is_probability_witness :
  match evaluate (example_model 25) 25 10 example_world with
  | Ok ((acc, _), _) =>
      exists words crclabels labels k s correct wrong,
        build_words 25 10 example_world
        = Ok ((words, crclabels, labels), np_skip k example_world)
        /\ forward (eval (example_model 25)) (map (map IZR) crclabels) None
             (np_skip k example_world)
           = Ok ((Scores s, eval (example_model 25)), np_skip k example_world)
        /\ count_loop (combine s labels) 0 0 = Ok (correct, wrong)
        /\ (correct + wrong)%nat = 25%nat
        /\ true_div correct (correct + wrong) = Ok acc
        /\ (0 <= acc <= 1)%R
  | Raise e =>
      e <> ZeroDivisionError
      /\ (25%nat <> 25%nat \/ 10 < 2 \/ 2 ^ 63 < 10)
  end.
Proof.
  apply (evaluate_accuracy_is_probability 25 25 (example_model 25) 10 example_world).
  - reflexivity.
  - lia.
Defined.

Lemma evaluate_counts_top_value_equal_label_witness :
  exists words crclabels labels k s w',
    build_words 25 10 example_world
    = Ok ((words, crclabels, labels), np_skip k example_world)
    /\ forward (eval (example_model 25)) (map (map IZR) crclabels) None
         (np_skip k example_world)
       = Ok ((Scores s, eval (example_model 25)), np_skip k example_world)
    /\ evaluate (example_model 25) 25 10 example_world
       = Ok (((INR (hits (combine s labels)) / INR 25)%R, eval (example_model 25)), w')
    /\ stdout w' = stdout example_world
                   ++ [EvalLine (hits (combine s labels))
                         (INR (hits (combine s labels)) / INR 25)%R].
Proof.
  apply (evaluate_counts_top_value_equal_label 25 (example_model 25) 10 example_world).
  - reflexivity.
  - lia.
  - lia.
Defined.

(** A call that returns was made on a batch the model was built for. *)
Lemma forward_ok_pre b m x y w r :
  wf_model b m = true -> forward m x y w = Ok r ->
  Matrix b 1 x /\ b <> 0%nat /\ (training m = true -> b <> 1%nat).
Proof.
  intros Hwf H.
  pose proof (forward_ok_rows _ _ _ _ _ H) as Hrows.
  rewrite (wf_model_in_channels b m Hwf) in Hrows.
  destruct (wf_model_fields b m Hwf) as (_ & (H1i & _) & _).
  destruct r as [r w']. unfold forward in H.
  apply bind_inv in H as (x1 & w1 & E & H). apply lift_ok_inv in E as [E ->].
  apply bind_inv in H as ([x2 m1] & w2 & E2 & _).
  pose proof (linear_call_rows _ _ _ _ E) as Hx1.
  unfold linear_call in E. rewrite H1i in E.
  destruct (has_width 1 x) eqn:Hw; [|discriminate].
  apply has_width_spec in Hw as [Hne Hcols].
  split; [now split|]. split.
  - intros ->. destruct x; [congruence | discriminate].
  - intros Htr ->.
    unfold call_batchnorm, bind, lift, batchnorm_call in E2.
    rewrite Htr, Hx1, Hrows in E2. discriminate.
Qed.

Lemma target_ok_labels (b : nat) (s : matrix) : forall labels,
  Forall (fun v => length v = 26%nat) s -> length labels = length s ->
  forallb target_ok (combine s labels) = true ->
  Forall (fun t => t = -100 \/ 0 <= t < 26) labels.
Proof.
  induction s as [|row s IH]; intros [|t labels] Hs Hlen Hok;
    try discriminate; [constructor|].
  inversion Hs as [|? ? Hrow Hs']; subst.
  cbn [combine forallb] in Hok. apply andb_true_iff in Hok as [Ht Hok].
  constructor; [|apply IH; [assumption | simpl in Hlen; lia | assumption]].
  unfold target_ok, ignore_index in Ht. cbn [fst snd] in Ht. rewrite Hrow in Ht.
  apply orb_true_iff in Ht as [Ht|Ht].
  - left. now apply Z.eqb_eq.
  - right. apply andb_true_iff in Ht as [H0 H1].
    apply Z.leb_le in H0. apply Z.ltb_lt in H1. lia.
Qed.

(** What [F.cross_entropy] returns for scores of 26 classes: there is one
    label per row, each the ignore index or a class, and the value is the
    mean, over the rows whose label is a class, of the logarithm of the sum
    of the exponentials of the row minus the score at the label. *)
Lemma cross_entropy_value (b : nat) (s : matrix) (labels : list Z) (loss : R) :
  Matrix b 26 s -> cross_entropy s labels = Ok loss ->
  length labels = b
  /\ Forall (fun t => t = -100 \/ 0 <= t < 26) labels
  /\ loss
     = (rsum (map (fun rt => ln (rsum (map exp (fst rt)))
                             - nth (Z.to_nat (snd rt)) (fst rt) 0)
                  (List.filter (fun rt => negb (snd rt =? -100)) (combine s labels)))
        / INR (length (List.filter (fun rt : vector * Z => negb (snd rt =? -100))
                         (combine s labels))))%R.
Proof.
  intros [Hr Hc]. unfold cross_entropy.
  destruct (Nat.eqb_spec (length s) (length labels)) as [Hlen|]; [|discriminate].
  cbn [negb].
  destruct (forallb target_ok (combine s labels)) eqn:Hok; [|discriminate].
  intros [= <-]. split; [congruence|]. split.
  - apply (target_ok_labels b s labels Hc); [congruence | exact Hok].
  - change (fun rt : vector * Z => negb (snd rt =? -100)) with counted.
    f_equal. f_equal. apply map_ext. intros [row t]. unfold log_softmax_at.
    cbn [fst snd]. lra.
Qed.

(** C5.  Whatever the batch, a call of [forward] that is given labels
    returns one number, the cross-entropy of the scores against the labels:
    the scores are those the call without labels returns, a matrix of one
    row of 26 scores per sample; there is one label per row, each a class
    or the ignore index -100; and, when at least one label is a class, the
    number is the mean over the rows with a class label of
    [ln (sum of exp of the row) - score at the label].  (When every label is
    the ignore index the mean is over nothing, torch's result is not a
    number, and nothing is said about it.)  The call raises only when the
    batch is not one the model was built for or the labels are not one
    class index per sample. *)
Theorem forward_returns_loss_or_scores
    (b : nat) (m : TxtClassifyModel) (x : matrix) (y : option (list Z)) (w : world) :
  wf_model b m = true ->
  match forward m x y w with
  | Ok ((LossValue loss, m'), w') =>
      exists labels s,
        y = Some labels
        /\ Matrix b 1 x
        /\ forward m x None w = Ok ((Scores s, m'), w')
        /\ Matrix b 26 s
        /\ length labels = b
        /\ Forall (fun t => t = -100 \/ 0 <= t < 26) labels
        /\ let rows :=
             List.filter (fun rt : vector * Z => negb (snd rt =? -100))
               (combine s labels) in
           rows <> [] ->
           loss = (rsum (map (fun rt => ln (rsum (map exp (fst rt)))
                                        - nth (Z.to_nat (snd rt)) (fst rt) 0)
                             rows)
                   / INR (length rows))%R
  | Ok ((Scores s, _), _) =>
      y = None /\ Matrix b 1 x /\ Matrix b 26 s
  | Raise _ =>
      ~ (Matrix b 1 x /\ b <> 0%nat /\ (training m = true -> b <> 1%nat)
         /\ match y with Some labels => Labels b labels | None => True end)
  end.
Proof.
  intros Hwf.
  destruct (forward m x y w) as [[[out m'] w']|e] eqn:E.
  - destruct (forward_ok_pre b m x y w _ Hwf E) as (Hx & Hb & Htr).
    destruct (forward_run b m x w Hwf Hx Hb Htr)
      as (s & m1 & w1 & Hf & Hs & _ & _ & _ & _ & _ & Hy).
    destruct y as [labels|].
    + rewrite Hy in E. destruct (cross_entropy s labels) as [loss|] eqn:El;
        [|discriminate].
      injection E as <- <- <-.
      destruct (cross_entropy_value b s labels loss Hs El) as (Hlen & Hall & Hv).
      exists labels, s.
      split; [reflexivity|]. split; [exact Hx|]. split; [exact Hf|].
      split; [exact Hs|]. split; [exact Hlen|]. split; [exact Hall|].
      intros rows _. exact Hv.
    + rewrite Hf in E. injection E as <- <- <-.
      split; [reflexivity|]. split; [exact Hx | exact Hs].
  - intros (Hx & Hb & Htr & Hy).
    destruct (forward_run b m x w Hwf Hx Hb Htr)
      as (s & m1 & w1 & Hf & Hs & _ & _ & _ & _ & _ & Hrun).
    destruct y as [labels|]; [|congruence].
    destruct Hy as [Hlen Hall].
    destruct (cross_entropy_ok b 26 s labels Hs Hlen) as (loss & Hl).
    { revert Hall. apply List.Forall_impl. intros t Ht. lia. }
    rewrite Hrun, Hl in E. discriminate.
Qed.

Lemma forward_returns_loss_or_scores_witness :
  match forward (example_model 25) (repeat [1%R] 25) (Some (repeat 3 25))
          example_world with
  | Ok ((LossValue loss, m'), w') =>
      exists labels s,
        Some (repeat 3 25) = Some labels
        /\ Matrix 25 1 (repeat [1%R] 25)
        /\ forward (example_model 25) (repeat [1%R] 25) None example_world
           = Ok ((Scores s, m'), w')
        /\ Matrix 25 26 s
        /\ length labels = 25%nat
        /\ Forall (fun t => t = -100 \/ 0 <= t < 26) labels
        /\ let rows :=
             List.filter (fun rt : vector * Z => negb (snd rt =? -100))
               (combine s labels) in
           rows <> [] ->
           loss = (rsum (map (fun rt => ln (rsum (map exp (fst rt)))
                                        - nth (Z.to_nat (snd rt)) (fst rt) 0)
                             rows)
                   / INR (length rows))%R
  | Ok ((Scores s, _), _) =>
      Some (repeat 3 25) = None /\ Matrix 25 1 (repeat [1%R] 25) /\ Matrix 25 26 s
  | Raise _ =>
      ~ (Matrix 25 1 (repeat [1%R] 25) /\ 25%nat <> 0%nat
         /\ (training (example_model 25) = true -> 25%nat <> 1%nat)
         /\ Labels 25 (repeat 3 25))
  end.
Proof.
  apply (forward_returns_loss_or_scores 25 (example_model 25) (repeat [1%R] 25)
           (Some (repeat 3 25)) example_world).
  reflexivity.
Defined.

(** ** Saving and loading *)

Lemma state_dict_dom m :
  dom (state_dict m) = list_to_set (map fst (state_items m)).
Proof. unfold state_dict. apply dom_list_to_map_L. Qed.

Lemma state_dict_lookups m :
  state_dict m !! "conv.weight" = Some (T3 (conv_weight (conv m)))
  /\ state_dict m !! "conv.bias" = Some (T1 (conv_bias (conv m)))
  /\ state_dict m !! "layer1.weight" = Some (T2 (lin_weight (layer1 m)))
  /\ state_dict m !! "layer1.bias" = Some (T1 (lin_bias (layer1 m)))
  /\ state_dict m !! "layer2.weight" = Some (T2 (lin_weight (layer2 m)))
  /\ state_dict m !! "layer2.bias" = Some (T1 (lin_bias (layer2 m)))
  /\ state_dict m !! "batchnorm.weight" = Some (T1 (bn_weight (batchnorm m)))
  /\ state_dict m !! "batchnorm.bias" = Some (T1 (bn_bias (batchnorm m)))
  /\ state_dict m !! "batchnorm.running_mean" = Some (T1 (running_mean (batchnorm m)))
  /\ state_dict m !! "batchnorm.running_var" = Some (T1 (running_var (batchnorm m)))
  /\ state_dict m !! "batchnorm.num_batches_tracked"
     = Some (T0 (num_batches_tracked (batchnorm m))).
Proof. repeat split; reflexivity. Qed.

Lemma same_len_true {A B} (a : list A) (b : list B) :
  length a = length b -> same_len a b = true.
Proof. intros H. unfold same_len. rewrite H. apply Nat.eqb_refl. Qed.

Lemma same_len_n {A B} n (a : list A) (b : list B) :
  length a = n -> length b = n -> same_len a b = true.
Proof. intros Ha Hb. apply same_len_true. now rewrite Ha, Hb. Qed.

Lemma same_shape_matrix r c (x y : matrix) :
  Matrix r c x -> Matrix r c y -> forallb2 same_len x y = true.
Proof.
  intros [Hx Hxc] [Hy Hyc]. revert r y Hx Hy Hyc.
  induction Hxc as [|v x Hv _ IH]; intros r y Hx Hy Hyc.
  - destruct y; [reflexivity | simpl in *; lia].
  - destruct y as [|u y]; [simpl in *; lia|].
    inversion Hyc as [|? ? Hu Hyc']; subst. simpl.
    rewrite same_len_true by congruence.
    simpl in Hy. apply (IH (length x) y); [reflexivity | lia | assumption].
Qed.

Lemma same_shape_tensor3 d0 d1 d2 (x y : list matrix) :
  is_tensor3 d0 d1 d2 x = true -> is_tensor3 d0 d1 d2 y = true ->
  forallb2 (forallb2 same_len) x y = true.
Proof.
  unfold is_tensor3. rewrite !andb_true_iff, !Nat.eqb_eq.
  intros [Hx Hxc] [Hy Hyc]. revert d0 y Hx Hy Hyc.
  induction x as [|v x IH]; intros d0 y Hx Hy Hyc.
  - destruct y; [reflexivity | simpl in *; lia].
  - destruct y as [|u y]; [simpl in *; lia|].
    simpl in Hxc, Hyc. rewrite andb_true_iff, is_matrix_spec in Hxc, Hyc.
    destruct Hxc as [Hv Hxc], Hyc as [Hu Hyc]. simpl.
    rewrite (same_shape_matrix d1 d2 v u Hv Hu). simpl in Hx, Hy.
    apply (IH Hxc (length x) y); [reflexivity | lia | assumption].
Qed.

(** Loading the state dict of [m] into a module of the same batch size
    gives a module with the layers of [m]. *)
Lemma load_state_dict_of_state_dict b m m0 :
  wf_model b m = true -> wf_model b m0 = true ->
  exists m',
    load_state_dict m0 (state_dict m) = Ok m'
    /\ conv m' = conv m /\ layer1 m' = layer1 m /\ layer2 m' = layer2 m
    /\ batchnorm m' = batchnorm m
    /\ dropout m' = dropout m0 /\ training m' = training m0 /\ grad m' = grad m0.
Proof.
  intros Hm Hm0.
  destruct (wf_model_fields b m Hm)
    as ((Hci & Hco & Hcw & Hcb) & (H1i & H1o & H1w & H1b)
        & (H2i & H2o & H2w & H2b) & (Hn & Hg & Hbt & Hrm & Hrv)).
  destruct (wf_model_fields b m0 Hm0)
    as ((Hci0 & Hco0 & Hcw0 & Hcb0) & (H1i0 & H1o0 & H1w0 & H1b0)
        & (H2i0 & H2o0 & H2w0 & H2b0) & (Hn0 & Hg0 & Hbt0 & Hrm0 & Hrv0)).
  destruct (state_dict_lookups m)
    as (L1 & L2 & L3 & L4 & L5 & L6 & L7 & L8 & L9 & L10 & L11).
  destruct (state_dict_lookups m0)
    as (K1 & K2 & K3 & K4 & K5 & K6 & K7 & K8 & K9 & K10 & K11).
  unfold load_state_dict.
  rewrite bool_decide_true by (rewrite !state_dict_dom; reflexivity).
  replace (forallb (key_matches (state_dict m0) (state_dict m))
             (map fst (state_items m0))) with true.
  - rewrite L1, L2, L3, L4, L5, L6, L7, L8, L9, L10, L11. cbv beta iota.
    eexists. split; [reflexivity|]. cbn [conv layer1 layer2 batchnorm dropout training grad].
    rewrite Hci0, Hco0, H1i0, H1o0, H2i0, H2o0, Hn0.
    rewrite <- Hci at 1. rewrite <- Hco at 1.
    rewrite <- H1i at 1. rewrite <- H1o at 1.
    rewrite <- H2i at 1. rewrite <- H2o at 1. rewrite <- Hn at 1.
    repeat split.
    + now destruct (conv m).
    + now destruct (layer1 m).
    + now destruct (layer2 m).
    + now destruct (batchnorm m).
  - symmetry. cbn [map fst state_items forallb]. unfold key_matches.
    rewrite L1, L2, L3, L4, L5, L6, L7, L8, L9, L10, L11.
    rewrite K1, K2, K3, K4, K5, K6, K7, K8, K9, K10, K11.
    cbn [same_shape].
    rewrite (same_shape_tensor3 b b 1 _ _ Hcw0 Hcw).
    rewrite (same_shape_matrix 26 1 _ _ H1w0 H1w).
    rewrite (same_shape_matrix 26 26 _ _ H2w0 H2w).
    rewrite (same_len_n b _ _ Hcb0 Hcb), (same_len_n 26 _ _ H1b0 H1b),
      (same_len_n 26 _ _ H2b0 H2b), (same_len_n 26 _ _ Hg0 Hg),
      (same_len_n 26 _ _ Hbt0 Hbt), (same_len_n 26 _ _ Hrm0 Hrm),
      (same_len_n 26 _ _ Hrv0 Hrv).
    reflexivity.
Qed.

Lemma call_batchnorm_ext m1 m2 x w :
  same_layers_eval m1 m2 ->
  match call_batchnorm m1 x w, call_batchnorm m2 x w with
  | Ok ((y1, m1'), w1), Ok ((y2, m2'), w2) =>
      y1 = y2 /\ same_layers_eval m1' m2' /\ w1 = w /\ w2 = w
  | Raise e1, Raise e2 => e1 = e2
  | _, _ => False
  end.
Proof.
  intros (Hc & H1 & H2 & Hb & T1 & T2).
  unfold call_batchnorm, bind, lift, ret. rewrite T1, T2, Hb.
  destruct (batchnorm_call false (batchnorm m2) x) as [[y bn]|e]; [|reflexivity].
  cbn [fst snd]. repeat split; assumption.
Qed.

Lemma scores_of_bind {A} (c : Py A) k1 k2 w :
  (forall a w', c w = Ok (a, w') -> scores_of (k1 a w') = scores_of (k2 a w')) ->
  scores_of (bind c k1 w) = scores_of (bind c k2 w).
Proof.
  intros H. unfold bind. destruct (c w) as [[a w']|e]; [now apply H | reflexivity].
Qed.

Lemma scores_of_bind_batchnorm m1 m2 x k1 k2 w :
  same_layers_eval m1 m2 ->
  (forall y m1' m2', same_layers_eval m1' m2' ->
     scores_of (k1 (y, m1') w) = scores_of (k2 (y, m2') w)) ->
  scores_of (bind (call_batchnorm m1 x) k1 w)
  = scores_of (bind (call_batchnorm m2 x) k2 w).
Proof.
  intros Hag H. pose proof (call_batchnorm_ext m1 m2 x w Hag) as E.
  unfold bind.
  destruct (call_batchnorm m1 x w) as [[[y1 m1'] w1']|e1],
           (call_batchnorm m2 x w) as [[[y2 m2'] w2']|e2];
    try contradiction; [|now subst].
  destruct E as (-> & Hag' & -> & ->). now apply H.
Qed.

(** In evaluation mode the scores are a function of the layers alone. *)
Lemma forward_eval_ext m1 m2 x w :
  same_layers_eval m1 m2 ->
  scores_of (forward m1 x None w) = scores_of (forward m2 x None w).
Proof.
  intros Hag. pose proof Hag as (_ & H1 & _).
  unfold forward. rewrite H1.
  apply scores_of_bind. intros x1 w1 _.
  apply scores_of_bind_batchnorm; [assumption|].
  clear Hag H1 m1 m2. intros y m1 m2 Hag. pose proof Hag as (Hc & _).
  cbv beta iota. rewrite Hc.
  apply scores_of_bind. intros x3 w3 _.
  apply scores_of_bind_batchnorm; [assumption|].
  clear Hag Hc m1 m2. intros y' m1 m2 Hag. pose proof Hag as (_ & _ & H2 & _).
  cbv beta iota. rewrite H2.
  apply scores_of_bind. intros x5 w5 _.
  apply scores_of_bind_batchnorm; [assumption|].
  clear Hag H2 m1 m2. intros y'' m1 m2 (_ & _ & _ & _ & T1 & T2).
  cbv beta iota. unfold dropout_call. rewrite T1, T2. reflexivity.
Qed.

Lemma torch_only_refl w : torch_only w w.
Proof. repeat split. Qed.

Lemma torch_only_trans w1 w2 w3 : torch_only w1 w2 -> torch_only w2 w3 -> torch_only w1 w3.
Proof. unfold torch_only. intuition congruence. Qed.

Lemma draw_vector_ok n w :
  exists v w', draw_vector n w = Ok (v, w') /\ length v = n /\ torch_only w w'.
Proof.
  eexists _, _. split; [reflexivity|]. split.
  - now rewrite length_map, length_seq.
  - repeat split.
Qed.

Lemma draw_matrix_ok r c : forall w,
  exists m w', draw_matrix r c w = Ok (m, w') /\ Matrix r c m /\ torch_only w w'.
Proof.
  induction r as [|r IH]; intros w.
  - exists [], w. split; [reflexivity|]. split; [split; [reflexivity|constructor]|].
    apply torch_only_refl.
  - destruct (draw_vector_ok c w) as (v & w1 & Hv & Hlen & Hw1).
    destruct (IH w1) as (m & w2 & Hm & [Hr Hc] & Hw2).
    exists (v :: m), w2. cbn [draw_matrix].
    rewrite (bind_ok _ _ _ _ _ Hv), (bind_ok _ _ _ _ _ Hm).
    split; [reflexivity|]. split.
    + split; [simpl; now rewrite Hr | now constructor].
    + exact (torch_only_trans _ _ _ Hw1 Hw2).
Qed.

Lemma draw_tensor3_ok d0 d1 d2 : forall w,
  exists t w', draw_tensor3 d0 d1 d2 w = Ok (t, w')
               /\ is_tensor3 d0 d1 d2 t = true /\ torch_only w w'.
Proof.
  induction d0 as [|d0 IH]; intros w.
  - exists [], w. split; [reflexivity|]. split; [reflexivity | apply torch_only_refl].
  - destruct (draw_matrix_ok d1 d2 w) as (m & w1 & Hm & Hsh & Hw1).
    destruct (IH w1) as (t & w2 & Ht & Hts & Hw2).
    exists (m :: t), w2. cbn [draw_tensor3].
    rewrite (bind_ok _ _ _ _ _ Hm), (bind_ok _ _ _ _ _ Ht).
    split; [reflexivity|]. split.
    + unfold is_tensor3 in *. rewrite andb_true_iff, Nat.eqb_eq in Hts.
      destruct Hts as [Hl Hf]. simpl. rewrite Hl, Nat.eqb_refl, Hf.
      apply is_matrix_spec in Hsh. now rewrite Hsh.
    + exact (torch_only_trans _ _ _ Hw1 Hw2).
Qed.

(** A new model has the shape of its batch size, is in training mode and
    has no gradient; constructing it draws from torch's generator only. *)
Lemma TxtClassifyModel_init_ok b w :
  exists m0 w',
    TxtClassifyModel_init b w = Ok (m0, w')
    /\ wf_model b m0 = true /\ training m0 = true /\ grad m0 = None
    /\ torch_only w w'.
Proof.
  unfold TxtClassifyModel_init, Conv1d_init, Linear_init.
  destruct (draw_tensor3_ok b b 1 w) as (cw & w1 & E1 & Hcw & T1).
  destruct (draw_vector_ok b w1) as (cb & w2 & E2 & Hcb & T2).
  destruct (draw_matrix_ok 26 1 w2) as (a1 & w3 & E3 & Ha1 & T3).
  destruct (draw_vector_ok 26 w3) as (b1 & w4 & E4 & Hb1 & T4).
  destruct (draw_matrix_ok 26 26 w4) as (a2 & w5 & E5 & Ha2 & T5).
  destruct (draw_vector_ok 26 w5) as (b2 & w6 & E6 & Hb2 & T6).
  eexists _, w6.
  split.
  - unfold bind at 1. unfold bind at 1. rewrite E1.
    unfold bind at 1. rewrite E2. unfold ret at 1.
    unfold bind at 1. unfold bind at 1. rewrite E3.
    unfold bind at 1. rewrite E4. unfold ret at 1.
    unfold bind at 1. unfold bind at 1. rewrite E5.
    unfold bind at 1. rewrite E6. unfold ret at 1.
    reflexivity.
  - split; [|split; [reflexivity|split; [reflexivity|]]].
    + unfold wf_model, wf_conv, wf_linear, wf_batchnorm. cbn -[is_tensor3 is_matrix is_vector].
      apply is_matrix_spec in Ha1, Ha2.
      apply is_vector_spec in Hcb, Hb1, Hb2.
      rewrite !Nat.eqb_refl, Hcw, Hcb, Ha1, Hb1, Ha2, Hb2. reflexivity.
    + eauto 10 using torch_only_trans.
Qed.

Lemma torch_save_load sd path w :
  exists w1, torch_save sd path w = Ok (tt, w1)
             /\ files w1 !! path = Some sd.
Proof.
  eexists. split; [reflexivity|]. simpl. apply lookup_insert_eq.
Qed.

Lemma torch_load_ok sd path w :
  files w !! path = Some sd -> torch_load path w = Ok (sd, w).
Proof. intros H. unfold torch_load. now rewrite H. Qed.

Lemma same_layers_eval_of m' m :
  conv m' = conv m -> layer1 m' = layer1 m -> layer2 m' = layer2 m ->
  batchnorm m' = batchnorm m -> same_layers_eval (eval m') (eval m).
Proof. intros. repeat split; assumption. Qed.

(** C8.  Saving the state dict of a model and loading the file into a newly
    constructed model of the same batch size succeeds, and in evaluation
    mode the loaded model produces, on every batch and in every state of
    the interpreter, what the original produces: the same scores or the
    same exception. *)
Theorem save_then_load_same_outputs
    (b : nat) (m : TxtClassifyModel) (path : string) (w : world) :
  wf_model b m = true ->
  exists m' w',
    (torch_save (state_dict m) path ;;;
     m0 <- TxtClassifyModel_init b ;;
     sd <- torch_load path ;;
     lift (load_state_dict m0 sd)) w = Ok (m', w')
    /\ forall x w'',
         scores_of (forward (eval m') x None w'')
         = scores_of (forward (eval m) x None w'').
Proof.
  intros Hwf.
  destruct (torch_save_load (state_dict m) path w) as (w1 & Hsave & Hfile).
  destruct (TxtClassifyModel_init_ok b w1) as (m0 & w2 & Hinit & Hwf0 & _ & _ & Hw2).
  destruct (load_state_dict_of_state_dict b m m0 Hwf Hwf0)
    as (m' & Hload & Hc & H1 & H2 & Hbn & _).
  assert (Hfile2 : files w2 !! path = Some (state_dict m)).
  { destruct Hw2 as (_ & _ & _ & _ & -> & _). exact Hfile. }
  exists m', w2. split.
  - rewrite (bind_ok _ _ _ _ _ Hsave), (bind_ok _ _ _ _ _ Hinit).
    rewrite (bind_ok _ _ _ _ _ (torch_load_ok _ _ _ Hfile2)).
    now apply lift_ok.
  - intros x w''. apply forward_eval_ext. now apply same_layers_eval_of.
Qed.

Lemma save_then_load_same_outputs_witness :
  exists m' w',
    (torch_save (state_dict (example_model 25)) "txtclassify.pt" ;;;
     m0 <- TxtClassifyModel_init 25 ;;
     sd <- torch_load "txtclassify.pt" ;;
     lift (load_state_dict m0 sd)) example_world = Ok (m', w')
    /\ forall x w'',
         scores_of (forward (eval m') x None w'')
         = scores_of (forward (eval (example_model 25)) x None w'').
Proof.
  apply (save_then_load_same_outputs 25 (example_model 25) "txtclassify.pt"
           example_world).
  reflexivity.
Defined.

(** ** Prediction *)

Lemma argmax_from_lt p : forall best best_i i,
  (best_i < i)%nat -> (argmax_from best best_i i p < i + length p)%nat.
Proof.
  induction p as [|a p IH]; intros best best_i i H; simpl; [lia|].
  destruct (Rlt_dec best a).
  - specialize (IH a i (S i)). lia.
  - specialize (IH best best_i (S i)). lia.
Qed.

Lemma np_argmax_lt p :
  p <> [] -> exists i, np_argmax p = Ok i /\ (i < length p)%nat.
Proof.
  destruct p as [|a p]; [congruence|]. intros _.
  exists (argmax_from a 0 1 p). split; [reflexivity|].
  pose proof (argmax_from_lt p a 0%nat 1%nat). simpl. lia.
Qed.

Lemma predict_loop_ok words : forall result labels w,
  Forall (fun r => length r = 26%nat) result ->
  Forall (fun t => 0 <= t < 26) labels ->
  exists w', predict_loop words result labels w = Ok (tt, w')
             /\ files w' = files w.
Proof.
  induction words as [|word words IH]; intros result labels w Hr Hl.
  - exists w. now split.
  - destruct result as [|pred result]; [exists w; now split|].
    destruct labels as [|label labels]; [exists w; now split|].
    inversion Hr as [|? ? Hp Hr']; subst. inversion Hl as [|? ? Ht Hl']; subst.
    destruct (np_argmax_lt pred) as (i & Hi & Hlt).
    { intros ->. discriminate Hp. }
    rewrite Hp in Hlt. cbn [predict_loop].
    rewrite (bind_ok _ _ _ _ _ (lift_ok _ _ w Hi)).
    rewrite (bind_ok _ _ _ _ _ (chr_ok (Z.of_nat i + ord_a) w ltac:(unfold ord_a; lia))).
    rewrite (bind_ok _ _ _ _ _ (lift_ok _ _ w Hi)).
    rewrite (bind_ok _ _ _ _ _ (chr_ok (label + ord_a) w ltac:(unfold ord_a; lia))).
    unfold bind at 1. unfold print at 1. cbv beta iota.
    match goal with |- exists w', predict_loop _ _ _ ?w1 = _ /\ _ =>
      destruct (IH result labels w1 Hr' Hl') as (w' & Hw' & Hf) end.
    exists w'. split; [exact Hw' | exact Hf].
Qed.

Lemma wf_model_layers b m' m :
  conv m' = conv m -> layer1 m' = layer1 m -> layer2 m' = layer2 m ->
  batchnorm m' = batchnorm m -> wf_model b m' = wf_model b m.
Proof. intros Hc H1 H2 Hb. unfold wf_model. now rewrite Hc, H1, H2, Hb. Qed.

Lemma Softmax_shape r c x : Matrix r c x -> Matrix r c (Softmax x).
Proof. apply Matrix_map. intros v Hv. unfold softmax_row. now rewrite length_map. Qed.

(** [predict] runs to its end on 25 samples of the generator when the file
    holds the state dict of a model for batches of 25. *)
Lemma predict_ok m path words crclabels labels w :
  wf_model 25 m = true ->
  files w !! path = Some (state_dict m) ->
  Forall3 Sample words crclabels labels -> length words = 25%nat ->
  exists w', predict path (words, crclabels, labels) w = Ok (tt, w').
Proof.
  intros Hwf Hfile Hs Hlen. unfold predict.
  destruct (TxtClassifyModel_init_ok 25 w) as (m0 & w1 & Hinit & Hwf0 & _ & _ & Hw1).
  rewrite (bind_ok _ _ _ _ _ Hinit).
  assert (Hfile1 : files w1 !! path = Some (state_dict m)).
  { destruct Hw1 as (_ & _ & _ & _ & -> & _). exact Hfile. }
  rewrite (bind_ok _ _ _ _ _ (torch_load_ok _ _ _ Hfile1)).
  destruct (load_state_dict_of_state_dict 25 m m0 Hwf Hwf0)
    as (m' & Hload & Hc & H1 & H2 & Hbn & _).
  rewrite (bind_ok _ _ _ _ _ (lift_ok _ _ w1 Hload)).
  destruct (FloatTensor_features words crclabels labels w1 Hs) as [Hft Hx].
  rewrite Hlen in Hx.
  rewrite (bind_ok _ _ _ _ _ Hft).
  assert (Hwf' : wf_model 25 (eval m') = true).
  { rewrite wf_model_eval, (wf_model_layers 25 m' m); assumption. }
  destruct (forward_run 25 (eval m') (map (map IZR) crclabels) w1)
    as (s & m'' & w2 & Hf & Hsc & _); [assumption | assumption | lia | discriminate |].
  rewrite (bind_ok _ _ _ _ _ Hf). cbn [fst].
  destruct (predict_loop_ok words (Softmax s) labels w2) as (w' & Hw' & _).
  - apply (Softmax_shape 25 26 s Hsc).
  - exact (Samples_labels _ _ _ Hs).
  - now exists w'.
Qed.

Lemma script_ok m w :
  wf_model 25 m = true ->
  files w !! "txtclassify.pt" = Some (state_dict m) ->
  exists w', script w = Ok (tt, w').
Proof.
  intros Hwf Hfile. unfold script.
  destruct (build_words_ok 25 10 w) as (ws & cs & ls & k & Hbw & Hs & Hlen & _); [lia|].
  rewrite (bind_ok _ _ _ _ _ Hbw). cbv beta iota.
  unfold bind at 1. unfold print at 1. cbv beta iota.
  apply (predict_ok m); try assumption. cbn [files].
  now destruct (np_skip_fields k w) as (_ & _ & _ & _ & _ & -> & _).
Qed.

(** C10.  [forward] returns only for batches whose number of rows is the
    batch size the model was built with; every other batch ends in a shape
    error.  [evaluate] called with the batch size as sample count and a
    length bound from 2 to 2^63, as [main] calls it, and the entry point,
    which predicts 25 samples with a model for 25, meet that condition and
    return. *)
Theorem forward_defined_only_for_batch_size
    (b : nat) (m : TxtClassifyModel) (x : matrix) (y : option (list Z)) (w : world) :
  wf_model b m = true ->
  (length x <> b -> exists st, forward m x y w = Raise (ShapeError st))
  /\ (forall r, forward m x y w = Ok r -> length x = b)
  /\ (b <> 0%nat -> forall word_dim, 2 <= word_dim <= 2 ^ 63 ->
        exists words crclabels labels k s r,
          build_words b word_dim w = Ok ((words, crclabels, labels), np_skip k w)
          /\ length (map (map IZR) crclabels) = b
          /\ forward (eval m) (map (map IZR) crclabels) None (np_skip k w)
             = Ok ((Scores s, eval m), np_skip k w)
          /\ evaluate m b word_dim w = Ok r)
  /\ (b = 25%nat -> files w !! "txtclassify.pt" = Some (state_dict m) ->
        exists w', script w = Ok (tt, w')).
Proof.
  intros Hwf. pose proof (wf_model_in_channels b m Hwf) as Hch.
  split; [|split; [|split]].
  - intros Hne. apply forward_wrong_rows. now rewrite Hch.
  - intros r Hr. rewrite <- Hch. exact (forward_ok_rows _ _ _ _ _ Hr).
  - intros Hb word_dim Hdim.
    destruct (evaluate_run b m word_dim w Hwf Hb Hdim)
      as (ws & cs & ls & k & s & w' & Hbw & Hs & Hlen & _ & Hf & _ & _ & He).
    exists ws, cs, ls, k, s. eexists.
    split; [exact Hbw|]. split; [|split; [exact Hf | exact He]].
    rewrite length_map. destruct (Samples_lengths _ _ _ Hs) as [-> _]. exact Hlen.
  - intros -> Hfile. now apply (script_ok m).
Qed.

Lemma forward_defined_only_for_batch_size_witness :
  (exists st, forward (example_model 25) (repeat [1%R] 3) None
                (saved_world (example_model 25)) = Raise (ShapeError st))
  /\ (exists w', script (saved_world (example_model 25)) = Ok (tt, w')).
Proof.
  destruct (forward_defined_only_for_batch_size 25 (example_model 25)
              (repeat [1%R] 3) None (saved_world (example_model 25)) eq_refl)
    as (Hbad & _ & _ & Hscript).
  split.
  - apply Hbad. simpl. lia.
  - apply Hscript; reflexivity.
Defined.

(** ** The order of the stages *)

(** C6.  [forward] is the run of the ten stages linear 1->26, batch-norm,
    ReLU, 1x1 convolution, batch-norm, ReLU, linear 26->26, batch-norm,
    ReLU, dropout, in this order, followed by the loss when labels are
    given. *)
Theorem forward_is_the_pipeline
    (m : TxtClassifyModel) (x : matrix) (y : option (list Z)) (w : world) :
  forward m x y w = forward_by_ops m x y w
  /\ forward_ops = [OpLayer1; OpBatchNorm; OpReLU; OpConv; OpBatchNorm; OpReLU;
                    OpLayer2; OpBatchNorm; OpReLU; OpDropout].
Proof.
  split; [|reflexivity].
  unfold forward_by_ops, forward, forward_ops. cbn [for_each].
  cbv beta iota delta [run_op bind ret fst snd].
  destruct (lift (linear_call AtLayer1 (layer1 m) x) w) as [[x1 w1]|e];
    [|reflexivity].
  cbv beta iota delta [run_op bind ret fst snd].
  destruct (call_batchnorm m x1 w1) as [[[x2 m1] w2]|e]; [|reflexivity].
  cbv beta iota delta [run_op bind ret fst snd].
  destruct (lift (conv_call (conv m1) (relu x2)) w2) as [[x3 w3]|e];
    [|reflexivity].
  cbv beta iota delta [run_op bind ret fst snd].
  destruct (call_batchnorm m1 x3 w3) as [[[x4 m2] w4]|e]; [|reflexivity].
  cbv beta iota delta [run_op bind ret fst snd].
  destruct (lift (linear_call AtLayer2 (layer2 m2) (relu x4)) w4) as [[x5 w5]|e];
    [|reflexivity].
  cbv beta iota delta [run_op bind ret fst snd].
  destruct (call_batchnorm m2 x5 w5) as [[[x6 m3] w6]|e]; [|reflexivity].
  cbv beta iota delta [run_op bind ret fst snd].
  destruct (dropout_call (dropout m3) (training m3) (relu x6) w6) as [[x7 w7]|e];
    [|reflexivity].
  cbv beta iota delta [run_op bind ret fst snd].
  destruct y; reflexivity.
Qed.

(** ** The 1x1 convolution *)

Local Open Scope R_scope.

Lemma nth_map_seq (f : nat -> R) len l :
  nth l (map f (seq 0 len)) 0 = if (l <? len)%nat then f l else 0.
Proof.
  destruct (Nat.ltb_spec l len) as [H|H].
  - rewrite (nth_indep _ 0 (f 0%nat)) by now rewrite length_map, length_seq.
    now rewrite map_nth, seq_nth.
  - apply nth_overflow. now rewrite length_map, length_seq.
Qed.

Lemma zip_with_column l (wt x : matrix) :
  zip_with (fun wk row => nth 0 wk 0 * nth l row 0) wt x
  = zip_with (fun wk a => nth 0 wk 0 * a) wt (column l x).
Proof.
  revert x. induction wt as [|wk wt IH]; intros [|row x]; simpl; try reflexivity.
  now rewrite IH.
Qed.

(** Entry [l] of output row [o] is the bias of [o] plus the weighted sum of
    the entries [l] of all input rows. *)
Lemma conv_call_entry c x y o l :
  conv_call c x = Ok y -> (o < length y)%nat -> (l < last_dim x)%nat ->
  nth l (nth o y []) 0
  = nth o (conv_bias c) 0
    + rsum (zip_with (fun wk a => nth 0 wk 0 * a) (nth o (conv_weight c) []) (column l x)).
Proof.
  unfold conv_call. destruct x as [|v x]; [discriminate|].
  destruct (Nat.eqb _ _); [|discriminate]. intros [= <-].
  cbn [last_dim]. set (len := length v). clearbody len.
  generalize (conv_bias c). revert o.
  induction (conv_weight c) as [|wt wts IH]; intros o bs; [simpl; lia|].
  destruct bs as [|bi bs]; [simpl; lia|].
  destruct o as [|o]; cbn [zip_with nth length]; intros Ho Hl.
  - rewrite nth_map_seq. destruct (Nat.ltb_spec l len); [|lia].
    now rewrite zip_with_column.
  - apply IH; [lia | assumption].
Qed.

Lemma conv_call_column c x y l :
  conv_call c x = Ok y ->
  column l y
  = if (l <? last_dim x)%nat
    then zip_with (fun wt bi =>
                     bi + rsum (zip_with (fun wk a => nth 0 wk 0 * a) wt (column l x)))
           (conv_weight c) (conv_bias c)
    else repeat 0 (length y).
Proof.
  unfold conv_call. destruct x as [|v x]; [discriminate|].
  destruct (Nat.eqb _ _); [|discriminate]. intros [= <-].
  cbn [last_dim]. set (len := length v). clearbody len.
  generalize (conv_bias c).
  induction (conv_weight c) as [|wt wts IH]; intros bs.
  - simpl. now destruct (l <? len)%nat.
  - destruct bs as [|bi bs]; [simpl; now destruct (l <? len)%nat|].
    cbn [zip_with column map length]. unfold column in IH. rewrite IH.
    rewrite nth_map_seq. destruct (l <? len)%nat; [|reflexivity].
    now rewrite zip_with_column.
Qed.

(** C2, as the code has it.  The convolution takes the rows of the batch as
    its channels: every output row is a bias plus a weighted sum of all
    input rows, computed position by position.  Column [l] of the output
    is determined by column [l] of the input, so the 26 feature positions
    are never mixed, while the rows of the batch are. *)
Theorem conv_mixes_rows_not_columns
    (c : Conv1d) (x x' y y' : matrix) (l : nat) :
  conv_call c x = Ok y -> conv_call c x' = Ok y' ->
  last_dim x = last_dim x' -> column l x = column l x' ->
  column l y = column l y'
  /\ forall o, (o < length y)%nat -> (l < last_dim x)%nat ->
       nth l (nth o y []) 0
       = nth o (conv_bias c) 0
         + rsum (zip_with (fun wk a => nth 0 wk 0 * a)
                   (nth o (conv_weight c) []) (column l x)).
Proof.
  intros Hy Hy' Hdim Hcol. split.
  - rewrite (conv_call_column c x y l Hy), (conv_call_column c x' y' l Hy').
    rewrite <- Hdim, <- Hcol.
    destruct (l <? last_dim x)%nat; [reflexivity|]. f_equal.
    pose proof (f_equal (@length R) Hcol) as Hlen. unfold column in Hlen.
    rewrite !length_map in Hlen.
    unfold conv_call in Hy, Hy'.
    destruct x as [|v x]; [discriminate|]. destruct x' as [|v' x']; [discriminate|].
    destruct (Nat.eqb _ _); [|discriminate].
    destruct (Nat.eqb _ _); [|discriminate].
    injection Hy as <-. injection Hy' as <-.
    now rewrite !length_zip_with.
  - intros o Ho Hl. now apply conv_call_entry.
Qed.

Lemma conv_example_rows (x : matrix) :
  length x = 2%nat ->
  conv_call (conv (example_model 2)) x = Ok (conv_example_output x).
Proof.
  intros H. unfold conv_call. destruct x as [|v x]; [discriminate|].
  rewrite H. reflexivity.
Qed.

(** C2, as the specification has it, fails: the first rows of the two
    batches are equal and the first rows after the convolution are not. *)
Lemma conv_mixes_batch_rows :
  match conv_call (conv (example_model 2)) batch_one_zero,
        conv_call (conv (example_model 2)) batch_one_one with
  | Ok y, Ok y' =>
      nth_error batch_one_zero 0 = nth_error batch_one_one 0
      /\ nth_error y 0 <> nth_error y' 0
  | _, _ => False
  end.
Proof.
  rewrite !conv_example_rows by reflexivity.
  split; [reflexivity|].
  unfold conv_example_output. cbn [map nth_error]. intros H.
  apply (f_equal (fun o => match o with Some r => nth 0 r 0 | None => 0 end)) in H.
  rewrite !nth_map_seq in H.
  change (last_dim batch_one_zero) with 26%nat in H.
  change (last_dim batch_one_one) with 26%nat in H.
  change (0 <? 26)%nat with true in H. cbv iota in H.
  unfold batch_one_zero, batch_one_one in H.
  cbn [zip_with rsum fold_right nth repeat] in H. lra.
Qed.

Lemma conv_mixes_rows_not_columns_witness :
  column 0 (conv_example_output batch_one_zero)
  = column 0 (conv_example_output batch_one_zero_other)
  /\ forall o, (o < length (conv_example_output batch_one_zero))%nat ->
       (0 < last_dim batch_one_zero)%nat ->
       nth 0 (nth o (conv_example_output batch_one_zero) []) 0
       = nth o (conv_bias (conv (example_model 2))) 0
         + rsum (zip_with (fun wk a => nth 0 wk 0 * a)
                   (nth o (conv_weight (conv (example_model 2))) [])
                   (column 0 batch_one_zero)).
Proof.
  apply (conv_mixes_rows_not_columns (conv (example_model 2))
           batch_one_zero batch_one_zero_other).
  - apply conv_example_rows. reflexivity.
  - apply conv_example_rows. reflexivity.
  - reflexivity.
  - reflexivity.
Defined.

Local Open Scope Z_scope.

(** ** Shapes of parameters under the optimiser *)

Lemma shape_of_tmap f t : shape_of (tmap f t) = shape_of t.
Proof.
  destruct t as [n|v|m|a]; simpl; [reflexivity|..].
  - now rewrite length_map.
  - f_equal. rewrite map_map. apply map_ext. intros r. apply length_map.
  - f_equal. rewrite map_map. apply map_ext. intros r.
    rewrite map_map. apply map_ext. intros q. apply length_map.
Qed.

Lemma length_zip_with_shape {A B C} (f : A -> B -> C) x y :
  length x = length y -> length (zip_with f x y) = length x.
Proof. intros H. rewrite length_zip_with. lia. Qed.

Lemma map_zip_with_shape {A B C D} (g : C -> D) (gA : A -> D) (gB : B -> D)
    (f : A -> B -> C) x y :
  (forall a b, gA a = gB b -> g (f a b) = gA a) ->
  map gA x = map gB y -> map g (zip_with f x y) = map gA x.
Proof.
  intros Hf. revert y. induction x as [|a x IH]; intros [|b y] H; simpl in *;
    try discriminate; [reflexivity|].
  injection H as Hab H. now rewrite (Hf a b Hab), (IH y H).
Qed.

Lemma shape_of_tmap2 f a b :
  shape_of a = shape_of b -> shape_of (tmap2 f a b) = shape_of a.
Proof.
  destruct a as [n|x|x|x], b as [n'|y|y|y]; simpl; try discriminate;
    try reflexivity; intros [= H]; f_equal.
  - now apply length_zip_with_shape.
  - apply (map_zip_with_shape _ _ (@length R)); [|assumption].
    intros u v Huv. now apply length_zip_with_shape.
  - apply (map_zip_with_shape _ _ (map (@length R))); [|assumption].
    intros u v Huv. apply (map_zip_with_shape _ _ (@length R)); [|assumption].
    intros p q Hpq. now apply length_zip_with_shape.
Qed.

Lemma length_zip_with3_shape {A B C D} (f : A -> B -> C -> D) x y z :
  length x = length y -> length x = length z ->
  length (zip_with3 f x y z) = length x.
Proof.
  revert y z. induction x as [|a x IH]; intros [|b y] [|c z] Hy Hz; simpl in *;
    try discriminate; [reflexivity|].
  f_equal. apply IH; lia.
Qed.

Lemma map_zip_with3_shape {A B C D E} (g : D -> E) (gA : A -> E) (gB : B -> E)
    (gC : C -> E) (f : A -> B -> C -> D) x y z :
  (forall a b c, gA a = gB b -> gA a = gC c -> g (f a b c) = gA a) ->
  map gA x = map gB y -> map gA x = map gC z ->
  map g (zip_with3 f x y z) = map gA x.
Proof.
  intros Hf. revert y z.
  induction x as [|a x IH]; intros [|b y] [|c z] Hy Hz; simpl in *;
    try discriminate; [reflexivity|].
  injection Hy as Hab Hy. injection Hz as Hac Hz.
  now rewrite (Hf a b c Hab Hac), (IH y z Hy Hz).
Qed.

Lemma shape_of_tmap3 f a b c :
  shape_of a = shape_of b -> shape_of a = shape_of c ->
  shape_of (tmap3 f a b c) = shape_of a.
Proof.
  destruct a as [n|x|x|x], b as [n'|y|y|y]; simpl; try discriminate;
    try reflexivity;
    destruct c as [n''|z|z|z]; simpl; try discriminate;
    intros [= Hy] [= Hz]; f_equal.
  - now apply length_zip_with3_shape.
  - apply (map_zip_with3_shape _ _ (@length R) (@length R));
      [|assumption|assumption].
    intros u v t' Huv Hut. now apply length_zip_with3_shape.
  - apply (map_zip_with3_shape _ _ (map (@length R)) (map (@length R)));
      [|assumption|assumption].
    intros u v t' Huv Hut.
    apply (map_zip_with3_shape _ _ (@length R) (@length R));
      [|assumption|assumption].
    intros p q r Hpq Hpr. now apply length_zip_with3_shape.
Qed.

Lemma shapes_tmap f ps : shapes (map (tmap f) ps) = shapes ps.
Proof.
  unfold shapes. rewrite map_map. apply map_ext. intros t. apply shape_of_tmap.
Qed.

Lemma shapes_tmap2 f ps gs :
  shapes ps = shapes gs -> shapes (zip_with (tmap2 f) ps gs) = shapes ps.
Proof.
  unfold shapes. apply (map_zip_with_shape _ _ shape_of).
  intros a b. apply shape_of_tmap2.
Qed.

Lemma shapes_tmap3 f ps avg avg_sq :
  shapes ps = shapes avg -> shapes ps = shapes avg_sq ->
  shapes (zip_with3 (tmap3 f) ps avg avg_sq) = shapes ps.
Proof.
  unfold shapes. apply (map_zip_with3_shape _ _ shape_of shape_of).
  intros a b c. apply shape_of_tmap3.
Qed.

Lemma is_matrix_shape r c (m m' : matrix) :
  map (@length R) m' = map (@length R) m -> is_matrix r c m' = is_matrix r c m.
Proof.
  intros H. unfold is_matrix.
  assert (Hlen : length m' = length m).
  { now rewrite <- (length_map (@length R) m'), H, length_map. }
  rewrite Hlen. f_equal.
  revert m' H Hlen. intros m' H _. revert m' H. induction m as [|v m IH]; intros [|v' m'] H; simpl in *;
      try discriminate; [reflexivity|].
    injection H as Hv H. unfold is_vector at 1 3. now rewrite Hv, (IH m' H).
Qed.


Lemma is_tensor3_shape d0 d1 d2 (t t' : list matrix) :
  map (map (@length R)) t' = map (map (@length R)) t ->
  is_tensor3 d0 d1 d2 t' = is_tensor3 d0 d1 d2 t.
Proof.
  intros H. unfold is_tensor3. unfold matrix in *.
  assert (Hlen : length t' = length t).
  { now rewrite <- (length_map (map (@length R)) t'), H, length_map. }
  rewrite Hlen. f_equal. clear Hlen.
  revert t' H. induction t as [|m t IH]; intros [|m' t'] H; simpl in *;
      try discriminate; [reflexivity|].
    injection H as Hm H. now rewrite (is_matrix_shape d1 d2 m m' Hm), (IH t' H).
Qed.

(** Writing tensors of the parameters' shapes into a model keeps its shape. *)
Lemma set_parameters_shapes b m ps :
  wf_model b m = true -> shapes ps = shapes (parameters m) ->
  parameters (set_parameters ps m) = ps
  /\ wf_model b (set_parameters ps m) = true
  /\ grad (set_parameters ps m) = grad m
  /\ training (set_parameters ps m) = training m.
Proof.
  intros Hwf H. unfold shapes, parameters in H.
  do 8 (destruct ps as [|? ps]; [discriminate H|]).
  destruct ps; [|discriminate H].
  cbn [map] in H. injection H as H1 H2 H3 H4 H5 H6 H7 H8.
  repeat match goal with
         | t : tensor |- _ => destruct t; try discriminate
         end.
  cbn [shape_of] in *.
  injection H1 as H1. injection H2 as H2. injection H3 as H3. injection H4 as H4.
  injection H5 as H5. injection H6 as H6. injection H7 as H7. injection H8 as H8.
  split; [reflexivity|]. split; [|split; reflexivity].
  revert Hwf. unfold wf_model, wf_conv, wf_linear, wf_batchnorm, set_parameters.
  cbn [conv layer1 layer2 batchnorm in_channels out_channels conv_weight conv_bias
       in_features out_features lin_weight lin_bias num_features bn_weight bn_bias
       running_mean running_var].
  rewrite (is_tensor3_shape b b 1 _ _ H1).
  rewrite (is_matrix_shape 26 1 _ _ H3), (is_matrix_shape 26 26 _ _ H5).
  unfold is_vector. rewrite H2, H4, H6, H7, H8. exact (fun h => h).
Qed.

Lemma adam_step_ok b o m g :
  wf_model b m = true -> grad m = Some g ->
  shapes g = shapes (parameters m) ->
  match moments o with
  | None => True
  | Some (avg, avg_sq) =>
      shapes avg = shapes (parameters m) /\ shapes avg_sq = shapes (parameters m)
  end ->
  steps (fst (adam_step o m)) = S (steps o)
  /\ wf_model b (snd (adam_step o m)) = true
  /\ training (snd (adam_step o m)) = training m
  /\ match moments (fst (adam_step o m)) with
     | None => False
     | Some (avg, avg_sq) =>
         shapes avg = shapes (parameters (snd (adam_step o m)))
         /\ shapes avg_sq = shapes (parameters (snd (adam_step o m)))
     end.
Proof.
  intros Hwf Hg Hsh Hmom. unfold adam_step. rewrite Hg.
  set (avgs := match moments o with
               | Some s => s
               | None => (map (tmap (fun _ => 0%R)) (parameters m),
                          map (tmap (fun _ => 0%R)) (parameters m))
               end).
  assert (Havgs : shapes (fst avgs) = shapes (parameters m)
                  /\ shapes (snd avgs) = shapes (parameters m)).
  { subst avgs. destruct (moments o) as [[avg avg_sq]|]; [exact Hmom|].
    cbn [fst snd]. split; apply shapes_tmap. }
  destruct avgs as [avg avg_sq]. cbn [fst snd] in *. destruct Havgs as [Ha Hv].
  match goal with
  | |- context [set_parameters ?ps m] =>
      destruct (set_parameters_shapes b m ps Hwf) as (Hps & Hwf' & _ & Htr)
  end.
  { apply shapes_tmap3.
    - symmetry. rewrite shapes_tmap2; [assumption | congruence].
    - symmetry. rewrite shapes_tmap2; [assumption | congruence]. }
  split; [reflexivity|]. split; [exact Hwf'|]. split; [exact Htr|].
  rewrite Hps. split.
  - rewrite shapes_tmap3; [rewrite shapes_tmap2; congruence | |];
      symmetry; rewrite shapes_tmap2; congruence.
  - rewrite shapes_tmap3; [rewrite shapes_tmap2; congruence | |];
      symmetry; rewrite shapes_tmap2; congruence.
Qed.

(** ** The training driver *)

Lemma dropout_call_torch_only p tr x w y w' :
  dropout_call p tr x w = Ok (y, w') -> torch_only w w'.
Proof.
  unfold dropout_call. destruct tr.
  - intros [= _ <-]. repeat split.
  - intros [= _ <-]. apply torch_only_refl.
Qed.

(** A call of [forward] changes nothing in the interpreter but the position
    of torch's generator. *)
Lemma forward_torch_only m x y w r w' :
  forward m x y w = Ok (r, w') -> torch_only w w'.
Proof.
  unfold forward. intros H.
  apply bind_inv in H as (x1 & w1 & E & H). apply lift_ok_inv in E as [_ ->].
  apply bind_inv in H as ([x2 m1] & w2 & E & H).
  apply call_batchnorm_inv in E as (_ & _ & ->).
  apply bind_inv in H as (x3 & w3 & E & H). apply lift_ok_inv in E as [_ ->].
  apply bind_inv in H as ([x4 m2] & w4 & E & H).
  apply call_batchnorm_inv in E as (_ & _ & ->).
  apply bind_inv in H as (x5 & w5 & E & H). apply lift_ok_inv in E as [_ ->].
  apply bind_inv in H as ([x6 m3] & w6 & E & H).
  apply call_batchnorm_inv in E as (_ & _ & ->).
  apply bind_inv in H as (x7 & w7 & E & H).
  apply dropout_call_torch_only in E.
  destruct y as [y|].
  - apply bind_inv in H as (l & w8 & E' & H). apply lift_ok_inv in E' as [_ ->].
    unfold ret in H. now injection H as _ <-.
  - unfold ret in H. now injection H as _ <-.
Qed.

Lemma FloatTensor_ok cs w :
  Forall (fun c : list Z => length c = 1%nat) cs ->
  FloatTensor cs w = Ok (map (map IZR) cs, w)
  /\ Matrix (length cs) 1 (map (map IZR) cs).
Proof.
  intros Hone. split.
  - unfold FloatTensor.
    replace (forallb _ cs) with true; [reflexivity|]. symmetry.
    destruct cs as [|c cs]; [reflexivity|].
    inversion Hone as [|? ? Hc Hcs]; subst.
    cbn [last_dim]. rewrite Hc. now apply forallb_length.
  - split; [apply length_map|].
    apply List.Forall_map. revert Hone. apply List.Forall_impl.
    intros c Hc. now rewrite length_map.
Qed.

Lemma slice_length {A} (l : list A) i b :
  ((i + 1) * b <= length l)%nat ->
  length (slice l (i * b) ((i + 1) * b)) = b.
Proof.
  intros H. unfold slice. rewrite length_take, length_drop. nia.
Qed.

Lemma slice_Forall {A} (P : A -> Prop) (l : list A) a b :
  Forall P l -> Forall P (slice l a b).
Proof. intros H. unfold slice. now apply Forall_take, Forall_drop. Qed.

(** The slices of the inner loop are consecutive and together make up the
    part of the list that full batches cover. *)
Lemma slices_partition {A} (l : list A) b k :
  concat (map (fun i => slice l (i * b) ((i + 1) * b)) (seq 0 k))
  = firstn (k * b) l.
Proof.
  induction k as [|k IH]; [reflexivity|].
  rewrite seq_S, map_app, concat_app, IH. cbn [map concat Nat.add].
  rewrite app_nil_r. unfold slice.
  replace ((k + 1) * b - k * b)%nat with b by nia.
  replace (S k * b)%nat with (k * b + b)%nat by nia.
  now rewrite take_take_drop.
Qed.

Lemma TrainSet_slice n data labels i b :
  TrainSet n data labels -> ((i + 1) * b <= n)%nat ->
  length (slice data (i * b) ((i + 1) * b)) = b
  /\ Forall (fun c => length c = 1%nat) (slice data (i * b) ((i + 1) * b))
  /\ Labels b (slice labels (i * b) ((i + 1) * b)).
Proof.
  intros (Hd & Hone & Hl & Hrange) Hi.
  split; [apply slice_length; lia|]. split; [now apply slice_Forall|].
  split; [apply slice_length; lia | now apply slice_Forall].
Qed.

Lemma Samples_TrainSet ws cs ls :
  Forall3 Sample ws cs ls -> TrainSet (length ws) cs ls.
Proof.
  intros Hs. destruct (Samples_lengths _ _ _ Hs) as [Hc Hl].
  split; [exact Hc|]. split; [|split; [exact Hl | exact (Samples_labels _ _ _ Hs)]].
  clear Hc Hl. induction Hs as [|? ? ? ? ? ? Hs]; constructor; [|assumption].
  destruct (Sample_feature _ _ _ Hs) as (v & -> & _). reflexivity.
Qed.

Lemma floor_div_ok a b : b <> 0%nat -> floor_div a b = Ok (a / b)%nat.
Proof.
  intros H. unfold floor_div. destruct (Nat.eqb_spec b 0); [contradiction|reflexivity].
Qed.

(** The optimiser writes parameters only, never the buffers of the batch
    normalisation. *)
Lemma set_parameters_buffers ps m :
  running_mean (batchnorm (set_parameters ps m)) = running_mean (batchnorm m)
  /\ running_var (batchnorm (set_parameters ps m)) = running_var (batchnorm m)
  /\ num_batches_tracked (batchnorm (set_parameters ps m))
     = num_batches_tracked (batchnorm m).
Proof.
  unfold set_parameters.
  repeat (match goal with
          | |- context [match ?x with _ => _ end] =>
              is_var x; destruct x; cbv beta iota
          end);
    repeat split; reflexivity.
Qed.

(** What one step of the optimiser writes: the new averages and the
    parameters, entry by entry by Adam's rule; the coefficients stay. *)
Lemma adam_step_update b o m g :
  wf_model b m = true -> grad m = Some g ->
  shapes g = shapes (parameters m) ->
  match moments o with
  | None => True
  | Some (avg, avg_sq) =>
      shapes avg = shapes (parameters m) /\ shapes avg_sq = shapes (parameters m)
  end ->
  hyperparameters (fst (adam_step o m)) = hyperparameters o
  /\ moments (fst (adam_step o m))
     = Some (zip_with (tmap2 (adam_average (beta1 o))) (first_moments o m) g,
             zip_with (tmap2 (fun v d => adam_average (beta2 o) v (d * d)))
               (second_moments o m) g)
  /\ parameters (snd (adam_step o m))
     = zip_with3
         (tmap3 (adam_parameter (lr o) (beta1 o) (beta2 o) (adam_eps o) (S (steps o))))
         (parameters m)
         (zip_with (tmap2 (adam_average (beta1 o))) (first_moments o m) g)
         (zip_with (tmap2 (fun v d => adam_average (beta2 o) v (d * d)))
            (second_moments o m) g)
  /\ running_mean (batchnorm (snd (adam_step o m))) = running_mean (batchnorm m)
  /\ running_var (batchnorm (snd (adam_step o m))) = running_var (batchnorm m)
  /\ num_batches_tracked (batchnorm (snd (adam_step o m)))
     = num_batches_tracked (batchnorm m).
Proof.
  intros Hwf Hg Hsh Hmom. unfold adam_step, first_moments, second_moments.
  rewrite Hg.
  set (avgs := match moments o with
               | Some s => s
               | None => (map (tmap (fun _ => 0%R)) (parameters m),
                          map (tmap (fun _ => 0%R)) (parameters m))
               end).
  assert (Havgs : shapes (fst avgs) = shapes (parameters m)
                  /\ shapes (snd avgs) = shapes (parameters m)).
  { subst avgs. destruct (moments o) as [[avg avg_sq]|]; [exact Hmom|].
    cbn [fst snd]. split; apply shapes_tmap. }
  assert (Hfst : match moments o with
                 | Some s => fst s
                 | None => map (tmap (fun _ => 0%R)) (parameters m)
                 end = fst avgs)
    by (subst avgs; now destruct (moments o)).
  assert (Hsnd : match moments o with
                 | Some s => snd s
                 | None => map (tmap (fun _ => 0%R)) (parameters m)
                 end = snd avgs)
    by (subst avgs; now destruct (moments o)).
  rewrite Hfst, Hsnd. clearbody avgs.
  destruct avgs as [avg avg_sq]. cbn [fst snd] in *. destruct Havgs as [Ha Hv].
  match goal with
  | |- context [set_parameters ?ps m] =>
      destruct (set_parameters_shapes b m ps Hwf) as (Hps & _)
  end.
  { apply shapes_tmap3.
    - symmetry. rewrite shapes_tmap2; [assumption | congruence].
    - symmetry. rewrite shapes_tmap2; [assumption | congruence]. }
  split; [reflexivity|]. split; [reflexivity|]. split; [exact Hps|].
  apply set_parameters_buffers.
Qed.

Lemma adam_step_hyperparameters o m :
  hyperparameters (fst (adam_step o m)) = hyperparameters o.
Proof.
  unfold adam_step. destruct (grad m); [|reflexivity].
  now destruct (moments o) as [[avg avg_sq]|].
Qed.

(** A property of the state that every step of a loop keeps is kept by the
    loop. *)
Lemma for_each_invariant {A S} (I : S -> Prop) (body : S -> A -> Py S) (l : list A) :
  (forall s a w s' w', I s -> body s a w = Ok (s', w') -> I s') ->
  forall s w s' w', I s -> for_each l body s w = Ok (s', w') -> I s'.
Proof.
  intros Hbody. induction l as [|a l IH]; intros s w s' w' Hs; cbn [for_each].
  - now intros [= <- _].
  - intros H. apply bind_inv in H as (s1 & w1 & H1 & H2).
    exact (IH _ _ _ _ (Hbody _ _ _ _ _ Hs H1) H2).
Qed.

Section TrainingProperties.

Variable autograd : TxtClassifyModel -> world -> matrix -> list Z -> list tensor.

(** Gradients have the shapes of the parameters they belong to. *)
Hypothesis autograd_shapes :
  forall m w x y, shapes (autograd m w x y) = shapes (parameters m).

Lemma train_batch_ok b n data labels m o losses i w :
  TrainState b m o -> training m = true -> (2 <= b)%nat ->
  TrainSet n data labels -> ((i + 1) * b <= n)%nat ->
  exists loss mf m' o' w',
    forward m (map (map IZR) (slice data (i * b) ((i + 1) * b)))
      (Some (slice labels (i * b) ((i + 1) * b))) w
    = Ok ((LossValue loss, mf), w')
    /\ train_batch autograd b data labels (m, o, losses) i w
       = Ok ((m', o', losses ++ [loss]), w')
    /\ steps o' = S (steps o)
    /\ TrainState b m' o' /\ training m' = true /\ torch_only w w'.
Proof.
  intros (Hwf & Hgrad & Hmom) Htr Hb Hset Hi.
  destruct (TrainSet_slice n data labels i b Hset Hi) as (Hlen & Hone & Hlab).
  set (cs := slice data (i * b) ((i + 1) * b)) in *.
  set (ls := slice labels (i * b) ((i + 1) * b)) in *.
  destruct (FloatTensor_ok cs w Hone) as [Hft Hx]. rewrite Hlen in Hx.
  destruct (forward_run b m (map (map IZR) cs) w Hwf Hx) as
    (s & mf & w' & Hf & Hs & Hwff & Htrf & Hgf & Hpf & _ & Hy); [lia | lia |].
  destruct Hlab as [Hll Hrange].
  destruct (cross_entropy_ok b 26 s ls Hs Hll) as (loss & Hloss).
  { revert Hrange. apply List.Forall_impl. intros t Ht. lia. }
  specialize (Hy ls). rewrite Hloss in Hy.
  set (g := autograd m w (map (map IZR) cs) ls).
  assert (Hg : shapes g = shapes (parameters (backward g mf))).
  { change (parameters (backward g mf)) with (parameters mf).
    rewrite Hpf. apply autograd_shapes. }
  assert (Hgb : grad (backward g mf) = Some g).
  { unfold backward. cbn [grad set_grad]. now rewrite Hgf, Hgrad. }
  destruct (adam_step_ok b o (backward g mf) g) as (Hst & Hwf' & Htr' & Hmom');
    [exact Hwff | exact Hgb | exact Hg | |].
  { change (parameters (backward g mf)) with (parameters mf). now rewrite Hpf. }
  exists loss, mf, (zero_grad (snd (adam_step o (backward g mf)))),
    (fst (adam_step o (backward g mf))), w'.
  split; [exact Hy|]. split.
  - unfold train_batch. fold cs ls.
    rewrite (bind_ok _ _ _ _ _ Hft).
    unfold bind at 1. unfold current_world at 1. cbv beta iota.
    rewrite (bind_ok _ _ _ _ _ Hy). reflexivity.
  - split; [exact Hst|]. split; [|split].
    + split; [exact Hwf'|]. split; [reflexivity|].
      change (parameters (zero_grad (snd (adam_step o (backward g mf)))))
        with (parameters (snd (adam_step o (backward g mf)))).
      destruct (moments (fst (adam_step o (backward g mf)))) as [[avg avg_sq]|];
        [exact Hmom' | exact I].
    + change (training (zero_grad (snd (adam_step o (backward g mf)))))
        with (training (snd (adam_step o (backward g mf)))).
      rewrite Htr'. change (training (backward g mf)) with (training mf).
      now rewrite Htrf.
    + exact (forward_torch_only _ _ _ _ _ _ Hy).
Qed.

Lemma train_batches_ok b n data labels :
  (2 <= b)%nat -> TrainSet n data labels ->
  forall k start m o losses w,
    TrainState b m o -> training m = true -> ((start + k) * b <= n)%nat ->
    exists ls m' o' w',
      for_each (seq start k) (train_batch autograd b data labels) (m, o, losses) w
      = Ok ((m', o', losses ++ ls), w')
      /\ length ls = k
      /\ steps o' = (steps o + k)%nat
      /\ TrainState b m' o' /\ training m' = true /\ torch_only w w'.
Proof.
  intros Hb Hset. induction k as [|k IH]; intros start m o losses w Hst Htr Hk.
  - exists [], m, o, w. rewrite app_nil_r. cbn [seq for_each].
    split; [reflexivity|]. split; [reflexivity|]. split; [lia|].
    split; [exact Hst|]. split; [exact Htr | apply torch_only_refl].
  - destruct (train_batch_ok b n data labels m o losses start w Hst Htr Hb Hset)
      as (loss & mf & m1 & o1 & w1 & _ & Hstep & Hsteps & Hst1 & Htr1 & Hw1); [nia|].
    destruct (IH (S start) m1 o1 (losses ++ [loss]) w1 Hst1 Htr1) as
      (ls & m' & o' & w' & Hrest & Hlen & Hsteps' & Hst' & Htr' & Hw'); [nia|].
    exists (loss :: ls), m', o', w'. cbn [seq for_each].
    rewrite (bind_ok _ _ _ _ _ Hstep).
    split; [rewrite Hrest; now rewrite <- app_assoc|].
    split; [simpl; now rewrite Hlen|]. split; [lia|].
    split; [exact Hst'|]. split; [exact Htr'|].
    exact (torch_only_trans _ _ _ Hw1 Hw').
Qed.

Lemma print_fields l w w' :
  print l w = Ok (tt, w') ->
  np_pos w' = np_pos w /\ files w' = files w /\ stdout w' = stdout w ++ [l].
Proof. unfold print. intros [= <-]. repeat split. Qed.

(** One epoch: the full batches in order, one optimiser step each, then
    the mean loss, then an evaluation on samples drawn after all earlier
    draws. *)
Lemma train_epoch_ok b n word_dim data labels m o log epoch w :
  TrainState b m o -> (2 <= b)%nat -> 2 <= word_dim <= 2 ^ 63 -> TrainSet n data labels ->
  exists ls m1 o' w1 w2 acc w',
    for_each (seq 0 (n / b)) (train_batch autograd b data labels) (train m, o, []) w
    = Ok ((m1, o', ls), w1)
    /\ length ls = (n / b)%nat
    /\ steps o' = (steps o + n / b)%nat
    /\ print (EpochLine (epoch + 1) (mean ls)) w1 = Ok (tt, w2)
    /\ evaluate m1 b word_dim w2 = Ok ((acc, eval m1), w')
    /\ train_epoch autograd word_dim b n data labels (m, o, log) epoch w
       = Ok ((eval m1, o', log ++ [(acc, mean ls)]), w')
    /\ TrainState b (eval m1) o'
    /\ (0 <= acc <= 1)%R
    /\ (np_pos w + 2 * b <= np_pos w')%nat.
Proof.
  intros Hst Hb Hdim Hset.
  assert (Hb0 : b <> 0%nat) by lia.
  pose proof (Nat.Div0.mul_div_le n b) as Hdiv.
  destruct (train_batches_ok b n data labels Hb Hset (n / b)%nat 0%nat
              (train m) o [] w) as
    (ls & m1 & o' & w1 & Hloop & Hlen & Hsteps & Hst1 & Htr1 & Hw1);
    [exact Hst | reflexivity | simpl; nia |].
  cbn [app] in Hloop.
  destruct Hst1 as (Hwf1 & Hg1 & Hmom1).
  destruct (evaluate_run b m1 word_dim
              {| np_tape := np_tape w1; np_pos := np_pos w1;
                 torch_unif := torch_unif w1; torch_bern := torch_bern w1;
                 torch_pos := torch_pos w1; files := files w1;
                 stdout := stdout w1 ++ [EpochLine (epoch + 1) (mean ls)] |}
              Hwf1 Hb0 Hdim)
    as (ws & cs & lbs & k & s & w' & _ & Hs & Hws & Hk & _ & Hsc & Hp & He).
  pose proof (hits_le (combine s lbs)) as Hle.
  assert (Hcomb : length (combine s lbs) = b).
  { rewrite length_combine. destruct Hsc as [-> _].
    destruct (Samples_lengths _ _ _ Hs) as [_ ->]. lia. }
  unfold vector in Hle, Hcomb. rewrite Hcomb in Hle.
  eexists ls, m1, o', w1, _, _, w'.
  split; [exact Hloop|]. split; [exact Hlen|]. split; [exact Hsteps|].
  split; [reflexivity|]. split; [exact He|]. split; [|split; [|split]].
  - unfold train_epoch.
    rewrite (bind_ok _ _ _ _ _ (lift_ok _ _ w (floor_div_ok n b Hb0))).
    rewrite (bind_ok _ _ _ _ _ Hloop). cbv beta iota.
    unfold bind at 1. unfold print at 1. cbv beta iota.
    rewrite (bind_ok _ _ _ _ _ He). reflexivity.
  - split; [exact Hwf1|]. split; [exact Hg1 | exact Hmom1].
  - now apply ratio_in_unit.
  - destruct (print_fields _ _ _ Hp) as (-> & _ & _).
    destruct (np_skip_fields k
                {| np_tape := np_tape w1; np_pos := np_pos w1;
                   torch_unif := torch_unif w1; torch_bern := torch_bern w1;
                   torch_pos := torch_pos w1; files := files w1;
                   stdout := stdout w1 ++ [EpochLine (epoch + 1) (mean ls)] |})
      as (_ & -> & _).
    cbn [np_pos]. destruct Hw1 as (_ & -> & _). lia.
Qed.

Lemma epochs_ok b n word_dim data labels :
  (2 <= b)%nat -> 2 <= word_dim <= 2 ^ 63 -> TrainSet n data labels ->
  forall k start m o log w,
    TrainState b m o ->
    exists es m' o' w',
      for_each (seq start k) (train_epoch autograd word_dim b n data labels)
        (m, o, log) w
      = Ok ((m', o', log ++ es), w')
      /\ length es = k
      /\ steps o' = (steps o + k * (n / b))%nat
      /\ TrainState b m' o'
      /\ Forall (fun e => (0 <= fst e <= 1)%R) es
      /\ (np_pos w + k * (2 * b) <= np_pos w')%nat.
Proof.
  intros Hb Hdim Hset. induction k as [|k IH]; intros start m o log w Hst.
  - exists [], m, o, w. rewrite app_nil_r. cbn [seq for_each].
    split; [reflexivity|]. split; [reflexivity|]. split; [lia|].
    split; [exact Hst|]. split; [constructor | lia].
  - destruct (train_epoch_ok b n word_dim data labels m o log start w Hst Hb Hdim Hset)
      as (ls & m1 & o1 & w1 & w2 & acc & w3 & _ & _ & Hsteps & _ & _ & Hep & Hst1
          & Hacc & Hpos).
    destruct (IH (S start) (eval m1) o1 (log ++ [(acc, mean ls)]) w3 Hst1)
      as (es & m' & o' & w' & Hrest & Hlen & Hsteps' & Hst' & Hall & Hpos').
    exists ((acc, mean ls) :: es), m', o', w'. cbn [seq for_each].
    rewrite (bind_ok _ _ _ _ _ Hep).
    split; [rewrite Hrest; now rewrite <- app_assoc|].
    split; [simpl; now rewrite Hlen|]. split; [nia|].
    split; [exact Hst'|]. split; [now constructor | nia].
Qed.

Lemma training_loop_ok word_dim epoch_num b n learning_rate w :
  (2 <= b)%nat -> 2 <= word_dim <= 2 ^ 63 ->
  exists model optim log w',
    training_loop autograd word_dim epoch_num b n learning_rate w
    = Ok ((model, optim, log), w')
    /\ length log = epoch_num
    /\ steps optim = (epoch_num * (n / b))%nat
    /\ wf_model b model = true
    /\ Forall (fun e => (0 <= fst e <= 1)%R) log.
Proof.
  intros Hb Hdim. unfold training_loop.
  destruct (TxtClassifyModel_init_ok b w) as (m0 & w1 & Hinit & Hwf0 & _ & Hg0 & _).
  rewrite (bind_ok _ _ _ _ _ Hinit).
  destruct (build_words_ok n word_dim w1 Hdim) as (ws & cs & ls & k & Hbw & Hs & Hn & _).
  rewrite (bind_ok _ _ _ _ _ Hbw). cbv beta iota.
  pose proof (Samples_TrainSet _ _ _ Hs) as Hset. rewrite Hn in Hset.
  destruct (epochs_ok b n word_dim cs ls Hb Hdim Hset epoch_num 0%nat m0
              (Adam_init learning_rate) [] (np_skip k w1))
    as (es & m' & o' & w' & Hrun & Hlen & Hsteps & (Hwf' & _) & Hall & _).
  { split; [exact Hwf0|]. split; [exact Hg0 | exact I]. }
  exists m', o', es, w'. cbn [app] in Hrun.
  split; [exact Hrun|]. split; [exact Hlen|]. split; [exact Hsteps|].
  split; [exact Hwf' | exact Hall].
Qed.

(** One batch, with what the optimiser writes: the step is Adam's, taken
    with the gradient of this batch's loss. *)
Lemma train_batch_update b n data labels m o losses i w :
  TrainState b m o -> training m = true -> (2 <= b)%nat ->
  TrainSet n data labels -> ((i + 1) * b <= n)%nat ->
  let x := map (map IZR) (slice data (i * b) ((i + 1) * b)) in
  let y := slice labels (i * b) ((i + 1) * b) in
  let g := autograd m w x y in
  let avg := zip_with (tmap2 (adam_average (beta1 o))) (first_moments o m) g in
  let avg_sq :=
    zip_with (tmap2 (fun v d => adam_average (beta2 o) v (d * d)%R))
      (second_moments o m) g in
  exists loss mf m' o' w',
    forward m x (Some y) w = Ok ((LossValue loss, mf), w')
    /\ train_batch autograd b data labels (m, o, losses) i w
       = Ok ((m', o', losses ++ [loss]), w')
    /\ steps o' = S (steps o)
    /\ hyperparameters o' = hyperparameters o
    /\ moments o' = Some (avg, avg_sq)
    /\ parameters m'
       = zip_with3
           (tmap3 (adam_parameter (lr o) (beta1 o) (beta2 o) (adam_eps o)
                     (S (steps o))))
           (parameters m) avg avg_sq
    /\ running_mean (batchnorm m') = running_mean (batchnorm mf)
    /\ running_var (batchnorm m') = running_var (batchnorm mf)
    /\ TrainState b m' o' /\ training m' = true.
Proof.
  intros Hst Htr Hb Hset Hi x y g avg avg_sq.
  destruct (train_batch_ok b n data labels m o losses i w Hst Htr Hb Hset Hi)
    as (loss & mf & m' & o' & w' & Hf & Hbatch & Hsteps & Hst' & Htr' & _).
  fold x y in Hf.
  exists loss, mf, m', o', w'.
  split; [exact Hf|]. split; [exact Hbatch|]. split; [exact Hsteps|].
  destruct Hst as (Hwf & Hgrad & Hmom).
  destruct (TrainSet_slice n data labels i b Hset Hi) as (Hlen & Hone & Hlab).
  destruct (FloatTensor_ok (slice data (i * b) ((i + 1) * b)) w Hone) as [Hft Hx].
  rewrite Hlen in Hx. fold x in Hft, Hx.
  destruct (forward_run b m x w Hwf Hx) as
    (s & mf0 & w0 & Hf0 & _ & Hwff & _ & Hgf & Hpf & _ & Hy); [lia | lia |].
  specialize (Hy y). rewrite Hf in Hy.
  destruct (cross_entropy s y) as [l|]; [|discriminate].
  injection Hy as <- <- <-.
  assert (Hgb : grad (backward g mf) = Some g).
  { unfold backward. cbn [grad set_grad]. now rewrite Hgf, Hgrad. }
  assert (Hpb : parameters (backward g mf) = parameters m) by exact Hpf.
  destruct (adam_step_update b o (backward g mf) g) as (Hh & Hm & Hp & Hrm & Hrv & _);
    [exact Hwff | exact Hgb | rewrite Hpb; apply autograd_shapes | now rewrite Hpb |].
  unfold first_moments, second_moments in Hm, Hp. rewrite Hpb in Hm, Hp.
  unfold train_batch in Hbatch. fold x y in Hbatch.
  rewrite (bind_ok _ _ _ _ _ Hft) in Hbatch.
  unfold bind at 1 in Hbatch. unfold current_world at 1 in Hbatch.
  cbv beta iota in Hbatch.
  rewrite (bind_ok _ _ _ _ _ Hf) in Hbatch. cbn [fst snd] in Hbatch.
  fold g in Hbatch. unfold ret in Hbatch. injection Hbatch as <- <-.
  split; [exact Hh|]. split; [exact Hm|]. split; [exact Hp|].
  split; [exact Hrm|]. split; [exact Hrv|]. split; [exact Hst' | exact Htr'].
Qed.

Lemma train_batch_hyperparameters b data labels m o losses i w m' o' losses' w' :
  train_batch autograd b data labels (m, o, losses) i w = Ok ((m', o', losses'), w') ->
  hyperparameters o' = hyperparameters o.
Proof.
  unfold train_batch. intros H.
  apply bind_inv in H as (x & w1 & _ & H).
  apply bind_inv in H as (before & w2 & _ & H).
  apply bind_inv in H as ([out mf] & w3 & _ & H). cbn [fst snd] in H.
  destruct out; [|discriminate]. unfold ret in H. injection H as _ <- _ _.
  apply adam_step_hyperparameters.
Qed.

Lemma train_epoch_hyperparameters word_dim b n data labels m o log epoch w m' o' log' w' :
  train_epoch autograd word_dim b n data labels (m, o, log) epoch w
  = Ok ((m', o', log'), w') ->
  hyperparameters o' = hyperparameters o.
Proof.
  unfold train_epoch. intros H.
  apply bind_inv in H as (batches & w1 & _ & H).
  apply bind_inv in H as ([[m1 o1] ls] & w2 & Hloop & H).
  apply bind_inv in H as ([] & w3 & _ & H).
  apply bind_inv in H as (am & w4 & _ & H).
  unfold ret in H. injection H as _ <- _ _.
  refine (for_each_invariant
            (fun st : TxtClassifyModel * Adam * list R =>
               hyperparameters (snd (fst st)) = hyperparameters o)
            _ _ _ _ _ _ _ _ Hloop); [|reflexivity].
  intros [[ma oa] la] a wa [[mb ob] lb] wb Ha Hstep. cbn [fst snd] in *.
  rewrite <- Ha. exact (train_batch_hyperparameters _ _ _ _ _ _ _ _ _ _ _ _ Hstep).
Qed.

Lemma training_loop_hyperparameters word_dim epoch_num b n learning_rate w
    model optim log w' :
  training_loop autograd word_dim epoch_num b n learning_rate w
  = Ok ((model, optim, log), w') ->
  hyperparameters optim = hyperparameters (Adam_init learning_rate).
Proof.
  unfold training_loop. intros H.
  apply bind_inv in H as (m0 & w1 & _ & H).
  apply bind_inv in H as ([[ws cs] ls] & w2 & _ & H).
  refine (for_each_invariant
            (fun st : TxtClassifyModel * Adam * list (R * R) =>
               hyperparameters (snd (fst st))
               = hyperparameters (Adam_init learning_rate))
            _ _ _ _ _ _ _ _ H); [|reflexivity].
  intros [[ma oa] la] a wa [[mb ob] lb] wb Ha Hstep. cbn [fst snd] in *.
  rewrite <- Ha.
  exact (train_epoch_hyperparameters _ _ _ _ _ _ _ _ _ _ _ _ _ _ Hstep).
Qed.

(** C7.  [main] runs its 500 epochs to the end, with an Adam optimiser of
    learning rate 0.001 and the default coefficients.  Each epoch takes the
    5000 // 25 = 200 consecutive slices of 25 samples of the one training
    set, makes one optimiser step on each, and then evaluates on 25
    samples drawn after every earlier draw and appends that accuracy and
    the mean of the epoch's 200 losses to the log.  The step on a slice is
    a gradient step: with the gradient of the loss of that slice, the
    optimiser moves its two running averages and then every parameter by
    Adam's rule, and leaves everything else in the model as the forward
    call left it. *)
Theorem main_trains_in_epochs_and_batches (w : world) :
  (exists model optim log w1 w',
      training_loop autograd 10 500 25 5000 (1 / 1000) w
      = Ok ((model, optim, log), w1)
      /\ length log = 500%nat
      /\ steps optim = (500 * (5000 / 25))%nat
      /\ hyperparameters optim
         = (1 / 1000, 9 / 10, 999 / 1000, 1 / 100000000)%R
      /\ Forall (fun e => (0 <= fst e <= 1)%R) log
      /\ main autograd w = Ok (tt, w')
      /\ files w' !! "txtclassify.pt" = Some (state_dict model))
  /\ (forall m o log epoch data labels w0,
        TrainState 25 m o -> TrainSet 5000 data labels ->
        exists ls m1 o' w1 w2 acc w',
          for_each (seq 0 (5000 / 25)) (train_batch autograd 25 data labels)
            (train m, o, []) w0
          = Ok ((m1, o', ls), w1)
          /\ length ls = (5000 / 25)%nat
          /\ steps o' = (steps o + 5000 / 25)%nat
          /\ hyperparameters o' = hyperparameters o
          /\ print (EpochLine (epoch + 1) (mean ls)) w1 = Ok (tt, w2)
          /\ evaluate m1 25 10 w2 = Ok ((acc, eval m1), w')
          /\ train_epoch autograd 10 25 5000 data labels (m, o, log) epoch w0
             = Ok ((eval m1, o', log ++ [(acc, mean ls)]), w')
          /\ TrainState 25 (eval m1) o'
          /\ (0 <= acc <= 1)%R
          /\ (np_pos w0 + 2 * 25 <= np_pos w')%nat)
  /\ (forall m o losses i data labels w0,
        TrainState 25 m o -> training m = true -> TrainSet 5000 data labels ->
        (i < 5000 / 25)%nat ->
        let x := map (map IZR) (slice data (i * 25) ((i + 1) * 25)) in
        let y := slice labels (i * 25) ((i + 1) * 25) in
        let g := autograd m w0 x y in
        let avg := zip_with (tmap2 (adam_average (beta1 o))) (first_moments o m) g in
        let avg_sq :=
          zip_with (tmap2 (fun v d => adam_average (beta2 o) v (d * d)%R))
            (second_moments o m) g in
        exists loss mf m' o' w',
          forward m x (Some y) w0 = Ok ((LossValue loss, mf), w')
          /\ train_batch autograd 25 data labels (m, o, losses) i w0
             = Ok ((m', o', losses ++ [loss]), w')
          /\ steps o' = S (steps o)
          /\ hyperparameters o' = hyperparameters o
          /\ moments o' = Some (avg, avg_sq)
          /\ parameters m'
             = zip_with3
                 (tmap3 (adam_parameter (lr o) (beta1 o) (beta2 o) (adam_eps o)
                           (S (steps o))))
                 (parameters m) avg avg_sq
          /\ running_mean (batchnorm m') = running_mean (batchnorm mf)
          /\ running_var (batchnorm m') = running_var (batchnorm mf)
          /\ TrainState 25 m' o' /\ training m' = true)
  /\ (forall data : list (list Z),
        length data = 5000%nat ->
        concat (map (fun i => slice data (i * 25) ((i + 1) * 25)) (seq 0 (5000 / 25)))
        = data).
Proof.
  assert (Hq : (5000 / 25 = 200)%nat) by reflexivity.
  split; [|split; [|split]].
  - destruct (training_loop_ok 10 500 25 5000 (1 / 1000)%R w)
      as (model & optim & log & w1 & Hrun & Hlen & Hsteps & Hwf & Hall); [lia | lia |].
    destruct (torch_save_load (state_dict model) "txtclassify.pt" w1)
      as (w2 & Hsave & Hfile).
    eexists model, optim, log, w1, _.
    split; [exact Hrun|]. split; [exact Hlen|]. split; [exact Hsteps|].
    split; [exact (training_loop_hyperparameters _ _ _ _ _ _ _ _ _ _ Hrun)|].
    split; [exact Hall|]. split.
    + unfold main. rewrite (bind_ok _ _ _ _ _ Hrun). cbv beta iota.
      rewrite (bind_ok _ _ _ _ _ Hsave).
      unfold bind, print. cbv beta iota. reflexivity.
    + cbn [files]. exact Hfile.
  - intros m o log epoch data labels w0 Hst Hset.
    destruct (train_epoch_ok 25 5000 10 data labels m o log epoch w0 Hst)
      as (ls & m1 & o' & w1 & w2 & acc & w' & H1 & H2 & H3 & H4 & H5 & H6 & H7);
      [lia | lia | assumption |].
    exists ls, m1, o', w1, w2, acc, w'.
    split; [exact H1|]. split; [exact H2|]. split; [exact H3|].
    split; [exact (train_epoch_hyperparameters _ _ _ _ _ _ _ _ _ _ _ _ _ _ H6)|].
    split; [exact H4|]. split; [exact H5|]. split; [exact H6 | exact H7].
  - intros m o losses i data labels w0 Hst Htr Hset Hi.
    apply (train_batch_update 25 5000 data labels m o losses i w0 Hst Htr);
      [lia | assumption | rewrite Hq in Hi; lia].
  - intros data Hlen. rewrite slices_partition, Hq.
    apply firstn_all2. rewrite Hlen. reflexivity.
Qed.

End TrainingProperties.

Lemma zero_gradient_shapes m w x y :
  shapes (zero_gradient m w x y) = shapes (parameters m).
Proof. apply shapes_tmap. Qed.

Lemma unit_gradient_shapes m w x y :
  shapes (unit_gradient m w x y) = shapes (parameters m).
Proof. apply shapes_tmap. Qed.

Lemma main_trains_in_epochs_and_batches_witness :
  exists model optim log w1 w',
    training_loop unit_gradient 10 500 25 5000 (1 / 1000) example_world
    = Ok ((model, optim, log), w1)
    /\ length log = 500%nat
    /\ steps optim = (500 * (5000 / 25))%nat
    /\ hyperparameters optim
       = (1 / 1000, 9 / 10, 999 / 1000, 1 / 100000000)%R
    /\ Forall (fun e => (0 <= fst e <= 1)%R) log
    /\ main unit_gradient example_world = Ok (tt, w')
    /\ files w' !! "txtclassify.pt" = Some (state_dict model).
Proof.
  exact (proj1 (main_trains_in_epochs_and_batches unit_gradient
                  unit_gradient_shapes example_world)).
Defined.


(** * Further properties of the script *)

(** ** The generator of words *)

(** X1.  [build_word] raises IndexError for every length that is not
    positive, without having drawn anything it keeps; for a positive length
    it returns a word of exactly that many lowercase letters and has drawn
    exactly that many numbers. *)
Theorem build_word_length_or_index_error (word_len : Z) (w : world) :
  if word_len <=? 0
  then build_word word_len w = Raise IndexError
  else exists word label,
         build_word word_len w
         = Ok ((word, label), np_skip (Z.to_nat word_len) w)
         /\ Z.of_nat (length word) = word_len
         /\ Forall is_letter word.
Proof.
  destruct (Z.leb_spec word_len 0) as [H|H].
  - unfold build_word. replace (Z.to_nat word_len) with 0%nat by lia. reflexivity.
  - destruct (build_word_ok word_len w) as (c & cs & Hb & Hlen & Hall); [lia|].
    exists (c :: cs), (c - ord_a). split; [exact Hb|]. split; [lia | exact Hall].
Qed.

Lemma build_words_loop_exact word_dim :
  2 <= word_dim <= 2 ^ 63 ->
  forall n words crclabels labels w,
  exists ws cs ls,
    build_words_loop n word_dim words crclabels labels w
    = Ok ((words ++ ws, crclabels ++ cs, labels ++ ls),
          np_skip (n + length (concat ws)) w)
    /\ Forall3 Sample ws cs ls
    /\ length ws = n
    /\ Forall (fun word => 1 <= Z.of_nat (length word) < word_dim) ws.
Proof.
  intros Hdim. induction n as [|n IH]; intros words crclabels labels w.
  - exists [], [], []. simpl. rewrite !app_nil_r.
    split; [reflexivity|]. split; [constructor|]. split; [reflexivity|constructor].
  - cbn [build_words_loop].
    destruct (randint_ok 1 word_dim w) as (len & Hr & Hlen);
      [unfold int64_min; lia | lia | unfold int64_max; lia |].
    rewrite (bind_ok _ _ _ _ _ Hr). cbv beta.
    destruct (build_word_ok len (np_advance w)) as (c & cs & Hb & Hl & Hall); [lia|].
    rewrite (bind_ok _ _ _ _ _ Hb). cbv beta iota.
    rewrite (bind_ok _ _ _ _ _
               (build_crc_label_ok _ _ _ (encode_letters _ Hall))). cbv beta.
    destruct (IH (words ++ [c :: cs]) (crclabels ++ [[Crc8.checksum (c :: cs)]])
                (labels ++ [c - ord_a]) (np_skip (Z.to_nat len) (np_advance w)))
      as (ws & fs & ls & Hloop & Hs & Hn & Hlens).
    exists ((c :: cs) :: ws), ([Crc8.checksum (c :: cs)] :: fs), ((c - ord_a) :: ls).
    split; [|split; [|split]].
    + etransitivity; [exact Hloop|].
      rewrite np_skip_succ_r, np_skip_add, <- !app_assoc.
      cbn [concat]. rewrite length_app, <- Hl.
      replace (S (length (c :: cs)) + (n + length (concat ws)))%nat
        with (S n + (length (c :: cs) + length (concat ws)))%nat by lia.
      reflexivity.
    + constructor; [|assumption].
      split; [assumption|]. split; [reflexivity|]. now exists c.
    + simpl. now f_equal.
    + constructor; [lia | assumption].
Qed.

(** X2.  With a length bound from 2 to 2^63, the largest that numpy's
    generator accepts, [build_words] returns three lists of [n] entries
    that belong together: entry by entry a word of
    lowercase letters whose length is at least 1 and below the bound, the
    one-element list of that word's checksum, and the rank of its first
    letter.  It draws one number per word and one per letter, and nothing
    else in the interpreter changes. *)
Theorem build_words_samples_and_draws (n : nat) (word_dim : Z) (w : world) :
  2 <= word_dim <= 2 ^ 63 ->
  exists words crclabels labels,
    build_words n word_dim w
    = Ok ((words, crclabels, labels), np_skip (n + length (concat words)) w)
    /\ length words = n /\ length crclabels = n /\ length labels = n
    /\ Forall3 Sample words crclabels labels
    /\ Forall (fun word => 1 <= Z.of_nat (length word) < word_dim) words.
Proof.
  intros Hdim. unfold build_words.
  destruct (build_words_loop_exact word_dim Hdim n [] [] [] w)
    as (ws & cs & ls & Hrun & Hs & Hn & Hlens).
  exists ws, cs, ls. destruct (Samples_lengths _ _ _ Hs) as [Hc Hl].
  split; [exact Hrun|]. repeat split; try assumption; congruence.
Qed.

Lemma build_words_samples_and_draws_witness :
  exists words crclabels labels,
    build_words 25 10 example_world
    = Ok ((words, crclabels, labels),
          np_skip (25 + length (concat words)) example_world)
    /\ length words = 25%nat /\ length crclabels = 25%nat /\ length labels = 25%nat
    /\ Forall3 Sample words crclabels labels
    /\ Forall (fun word => 1 <= Z.of_nat (length word) < 10) words.
Proof. apply (build_words_samples_and_draws 25 10 example_world). lia. Defined.

(** X3.  When the length bound is below 2 no length can be drawn:
    [build_words] raises ValueError as soon as one word is asked for, and
    returns three empty lists without drawing when none is. *)
Theorem build_words_small_bound (n : nat) (word_dim : Z) (w : world) :
  word_dim < 2 ->
  build_words n word_dim w
  = match n with
    | O => Ok (([], [], []), w)
    | S _ => Raise ValueError
    end.
Proof.
  intros H. destruct n as [|n]; [reflexivity|].
  exact (build_words_bad_dim n word_dim w (or_introl H)).
Qed.

Lemma build_words_small_bound_witness :
  build_words 3 1 example_world = Raise ValueError.
Proof. apply (build_words_small_bound 3 1 example_world). lia. Defined.

(** ** The feature *)

Lemma letter_in_alphabet c : is_letter c -> In c alphabet.
Proof.
  unfold is_letter. intros H.
  assert (Hk : exists k, (k < 26)%nat /\ c = 97 + Z.of_nat k).
  { exists (Z.to_nat (c - 97)). split; lia. }
  destruct Hk as (k & Hk & ->).
  do 26 (destruct k as [|k]; [simpl; tauto|]). lia.
Qed.

Lemma letters_distinct_features_true : letters_distinct_features = true.
Proof. vm_compute. reflexivity. Qed.

(** X4.  The feature tells one-letter words apart, and only those: two
    one-letter words with the same feature are the same word, while there
    are two-letter words with different first letters and the same
    feature. *)
Theorem feature_separates_one_letter_words_only :
  (forall a b w,
      is_letter a -> is_letter b ->
      build_crc_label [a] w = build_crc_label [b] w ->
      a = b)
  /\ (exists u v,
        Forall is_letter u /\ Forall is_letter v
        /\ length u = 2%nat /\ length v = 2%nat
        /\ head u <> head v
        /\ forall w, build_crc_label u w = build_crc_label v w).
Proof.
  split.
  - intros a b w Ha Hb.
    assert (Ea : encode [a] = Ok [a]).
    { apply encode_letters. constructor; [exact Ha | constructor]. }
    assert (Eb : encode [b] = Ok [b]).
    { apply encode_letters. constructor; [exact Hb | constructor]. }
    rewrite (build_crc_label_ok [a] [a] w Ea), (build_crc_label_ok [b] [b] w Eb).
    intros [= H].
    pose proof letters_distinct_features_true as Hall.
    unfold letters_distinct_features in Hall.
    rewrite forallb_forall in Hall.
    specialize (Hall a (letter_in_alphabet a Ha)).
    rewrite forallb_forall in Hall.
    specialize (Hall b (letter_in_alphabet b Hb)).
    rewrite H, Z.eqb_refl in Hall. simpl in Hall. now apply Z.eqb_eq.
  - exists [97; 104], [98; 97].
    assert (Hl : forall c d, is_letter c -> is_letter d -> Forall is_letter [c; d]).
    { intros c d Hc Hd. constructor; [exact Hc|]. constructor; [exact Hd|constructor]. }
    split; [apply Hl; unfold is_letter; lia|].
    split; [apply Hl; unfold is_letter; lia|].
    split; [reflexivity|]. split; [reflexivity|]. split; [discriminate|].
    intros w. reflexivity.
Qed.

(** ** The forward pass, stage by stage *)

Lemma call_batchnorm_stage m x w y m' w' :
  call_batchnorm m x w = Ok ((y, m'), w') ->
  w' = w
  /\ batchnorm_call (training m) (batchnorm m) x = Ok (y, batchnorm m')
  /\ m' = set_batchnorm m (batchnorm m').
Proof.
  unfold call_batchnorm, bind, lift, ret.
  destruct (batchnorm_call (training m) (batchnorm m) x) as [[y0 bn]|e];
    [|discriminate].
  intros [= <- <- <-]. repeat split.
Qed.

(** The stages a returning call has gone through. *)
Lemma forward_stages m x w s m' w' :
  forward m x None w = Ok ((Scores s, m'), w') ->
  exists x1 x2 bn1 x3 x4 bn2 x5 x6 bn3,
    linear_call AtLayer1 (layer1 m) x = Ok x1
    /\ batchnorm_call (training m) (batchnorm m) x1 = Ok (x2, bn1)
    /\ conv_call (conv m) (relu x2) = Ok x3
    /\ batchnorm_call (training m) bn1 x3 = Ok (x4, bn2)
    /\ linear_call AtLayer2 (layer2 m) (relu x4) = Ok x5
    /\ batchnorm_call (training m) bn2 x5 = Ok (x6, bn3)
    /\ dropout_call (dropout m) (training m) (relu x6) w = Ok (s, w')
    /\ m' = set_batchnorm m bn3.
Proof.
  unfold forward. intros H.
  apply bind_inv in H as (x1 & w1 & E1 & H). apply lift_ok_inv in E1 as [E1 ->].
  apply bind_inv in H as ([x2 m1] & w2 & E2 & H).
  apply call_batchnorm_stage in E2 as (-> & E2 & Hm1).
  apply bind_inv in H as (x3 & w3 & E3 & H). apply lift_ok_inv in E3 as [E3 ->].
  apply bind_inv in H as ([x4 m2] & w4 & E4 & H).
  apply call_batchnorm_stage in E4 as (-> & E4 & Hm2).
  apply bind_inv in H as (x5 & w5 & E5 & H). apply lift_ok_inv in E5 as [E5 ->].
  apply bind_inv in H as ([x6 m3] & w6 & E6 & H).
  apply call_batchnorm_stage in E6 as (-> & E6 & Hm3).
  apply bind_inv in H as (x7 & w7 & E7 & H).
  unfold ret in H. injection H as <- <- <-.
  rewrite Hm1 in E3, E4. cbn [conv training batchnorm set_batchnorm] in E3, E4.
  rewrite Hm2 in E5, E6. cbn [layer2 training batchnorm set_batchnorm] in E5, E6.
  rewrite Hm1 in E5, E6. cbn [layer2 training batchnorm set_batchnorm] in E5, E6.
  rewrite Hm3 in E7. cbn [dropout training set_batchnorm] in E7.
  rewrite Hm2 in E7. cbn [dropout training set_batchnorm] in E7.
  rewrite Hm1 in E7. cbn [dropout training set_batchnorm] in E7.
  exists x1, x2, (batchnorm m1), x3, x4, (batchnorm m2), x5, x6, (batchnorm m3).
  repeat (split; [assumption|]).
  rewrite Hm3, Hm2, Hm1. reflexivity.
Qed.

Lemma batchnorm_call_train_counter bn x y bn' :
  batchnorm_call true bn x = Ok (y, bn') ->
  num_batches_tracked bn' = (num_batches_tracked bn + 1)%Z
  /\ bn_weight bn' = bn_weight bn /\ bn_bias bn' = bn_bias bn.
Proof.
  unfold batchnorm_call. cbn [andb].
  destruct (Nat.eqb (length x) 1); [discriminate|].
  destruct (negb _); [discriminate|].
  intros [= _ <-]. repeat split.
Qed.

Lemma length_concat_matrix r c (x : matrix) :
  Matrix r c x -> length (concat x) = (r * c)%nat.
Proof.
  intros [Hr Hc]. subst r. induction Hc as [|v x Hv _ IH]; [reflexivity|].
  simpl. rewrite length_app, IH, Hv. lia.
Qed.

(** X5.  In evaluation mode a call of [forward] on a batch of the model's
    size is an observation: it returns the scores and leaves the module,
    both random generators, the files and the output exactly as they were. *)
Theorem forward_eval_changes_nothing
    (b : nat) (m : TxtClassifyModel) (x : matrix) (w : world) :
  wf_model b m = true -> training m = false -> Matrix b 1 x -> b <> 0%nat ->
  exists s, forward m x None w = Ok ((Scores s, m), w) /\ Matrix b 26 s.
Proof.
  intros Hwf Hev Hx Hb.
  destruct (forward_run b m x w Hwf Hx Hb) as
    (s & m' & w' & Hf & Hs & _ & _ & _ & _ & Hsame & _); [congruence|].
  destruct (Hsame Hev) as [-> ->]. now exists s.
Qed.

Lemma forward_eval_changes_nothing_witness :
  exists s,
    forward (eval (example_model 25)) (repeat [1%R] 25) None example_world
    = Ok ((Scores s, eval (example_model 25)), example_world)
    /\ Matrix 25 26 s.
Proof.
  apply (forward_eval_changes_nothing 25 (eval (example_model 25))
           (repeat [1%R] 25) example_world).
  - reflexivity.
  - reflexivity.
  - split; [reflexivity | repeat constructor].
  - lia.
Defined.

Lemma wf_model_parts b m :
  wf_model b m = true ->
  wf_conv b (conv m) = true /\ wf_linear 1 26 (layer1 m) = true
  /\ wf_linear 26 26 (layer2 m) = true /\ wf_batchnorm 26 (batchnorm m) = true.
Proof. unfold wf_model. rewrite !andb_true_iff. tauto. Qed.

(** The last stage before dropout, with its shape and the batch counter. *)
Lemma forward_before_dropout b m x w s m' w' :
  wf_model b m = true -> Matrix b 1 x -> b <> 0%nat ->
  (training m = true -> b <> 1%nat) ->
  forward m x None w = Ok ((Scores s, m'), w') ->
  exists x6 bn3,
    dropout_call (dropout m) (training m) (relu x6) w = Ok (s, w')
    /\ Matrix b 26 x6
    /\ m' = set_batchnorm m bn3
    /\ (training m = true ->
        num_batches_tracked bn3 = (num_batches_tracked (batchnorm m) + 3)%Z).
Proof.
  intros Hwf Hx Hb Htr Hf.
  destruct (wf_model_parts b m Hwf) as (Hc & Hl1 & Hl2 & Hbn).
  destruct (forward_stages m x w s m' w' Hf)
    as (x1 & x2 & bn1 & x3 & x4 & bn2 & x5 & x6 & bn3
        & E1 & E2 & E3 & E4 & E5 & E6 & E7 & Hm').
  destruct (linear_call_shape AtLayer1 1 26 (layer1 m) b x Hl1 Hx Hb)
    as (y1 & E1' & Hx1).
  rewrite E1 in E1'. injection E1' as <-.
  destruct (batchnorm_call_shape (training m) 26 (batchnorm m) b x1 Hbn Hx1 Hb Htr)
    as (y2 & c1 & E2' & Hx2 & Hbn1 & _).
  rewrite E2 in E2'. injection E2' as <- <-.
  destruct (conv_call_shape b (conv m) 26 (relu x2) Hc (relu_shape _ _ _ Hx2) Hb)
    as (y3 & E3' & Hx3).
  rewrite E3 in E3'. injection E3' as <-.
  destruct (batchnorm_call_shape (training m) 26 bn1 b x3 Hbn1 Hx3 Hb Htr)
    as (y4 & c2 & E4' & Hx4 & Hbn2 & _).
  rewrite E4 in E4'. injection E4' as <- <-.
  destruct (linear_call_shape AtLayer2 26 26 (layer2 m) b (relu x4) Hl2
              (relu_shape _ _ _ Hx4) Hb) as (y5 & E5' & Hx5).
  rewrite E5 in E5'. injection E5' as <-.
  destruct (batchnorm_call_shape (training m) 26 bn2 b x5 Hbn2 Hx5 Hb Htr)
    as (y6 & c3 & E6' & Hx6 & _).
  rewrite E6 in E6'. injection E6' as <- <-.
  exists x6, bn3. split; [exact E7|]. split; [exact Hx6|]. split; [exact Hm'|].
  intros T. rewrite T in E2, E4, E6.
  destruct (batchnorm_call_train_counter _ _ _ _ E2) as (C1 & _).
  destruct (batchnorm_call_train_counter _ _ _ _ E4) as (C2 & _).
  destruct (batchnorm_call_train_counter _ _ _ _ E6) as (C3 & _).
  lia.
Qed.

(** X6.  In training mode one call of [forward] on a batch of [b >= 2]
    samples applies the one normalisation layer three times, so its batch
    counter grows by exactly 3; dropout draws one keep-bit per score,
    [b * 26] in all; and no parameter, gradient or mode flag changes. *)
Theorem forward_train_effects
    (b : nat) (m : TxtClassifyModel) (x : matrix) (w : world) :
  wf_model b m = true -> training m = true -> Matrix b 1 x -> (2 <= b)%nat ->
  exists s m' w',
    forward m x None w = Ok ((Scores s, m'), w')
    /\ num_batches_tracked (batchnorm m')
       = (num_batches_tracked (batchnorm m) + 3)%Z
    /\ torch_pos w' = (torch_pos w + b * 26)%nat
    /\ torch_only w w'
    /\ parameters m' = parameters m
    /\ grad m' = grad m /\ training m' = true.
Proof.
  intros Hwf Htr Hx Hb.
  destruct (forward_run b m x w Hwf Hx) as
    (s & m' & w' & Hf & Hs & _ & Htr' & Hg & Hp & _ & _); [lia | lia |].
  exists s, m', w'. split; [exact Hf|].
  destruct (forward_before_dropout b m x w s m' w' Hwf Hx) as
    (x6 & bn3 & E7 & Hx6 & Hm' & Hcount); [lia | lia | exact Hf |].
  split; [rewrite Hm'; cbn [batchnorm set_batchnorm]; exact (Hcount Htr)|].
  split.
  - rewrite Htr in E7. unfold dropout_call in E7. injection E7 as _ <-.
    cbn [torch_pos]. f_equal.
    exact (length_concat_matrix b 26 _ (relu_shape _ _ _ Hx6)).
  - split; [exact (forward_torch_only _ _ _ _ _ _ Hf)|].
    split; [exact Hp|]. split; [exact Hg | congruence].
Qed.

Lemma forward_train_effects_witness :
  exists s m' w',
    forward (example_model 25) (repeat [1%R] 25) None example_world
    = Ok ((Scores s, m'), w')
    /\ num_batches_tracked (batchnorm m')
       = (num_batches_tracked (batchnorm (example_model 25)) + 3)%Z
    /\ torch_pos w' = (torch_pos example_world + 25 * 26)%nat
    /\ torch_only example_world w'
    /\ parameters m' = parameters (example_model 25)
    /\ grad m' = grad (example_model 25) /\ training m' = true.
Proof.
  apply (forward_train_effects 25 (example_model 25) (repeat [1%R] 25) example_world).
  - reflexivity.
  - reflexivity.
  - split; [reflexivity | repeat constructor].
  - lia.
Defined.

(** X7.  In training mode a batch of one sample never gets through: the
    call raises a shape error at the first linear layer or at the first
    batch normalisation, whatever batch size the model was built for, so a
    model built for batches of one cannot be trained at all. *)
Theorem forward_train_refuses_single_sample
    (m : TxtClassifyModel) (x : matrix) (y : option (list Z)) (w : world) :
  training m = true -> length x = 1%nat ->
  forward m x y w = Raise (ShapeError AtLayer1)
  \/ forward m x y w = Raise (ShapeError AtBatchNorm).
Proof.
  intros Htr Hlen. unfold forward.
  destruct (lift (linear_call AtLayer1 (layer1 m) x) w) as [[x1 w1]|e] eqn:E1.
  - right. rewrite (bind_ok _ _ _ _ _ E1).
    apply lift_ok_inv in E1 as [E1 ->].
    apply bind_raise. unfold call_batchnorm.
    apply bind_raise, lift_raise. unfold batchnorm_call.
    now rewrite Htr, (linear_call_rows _ _ _ _ E1), Hlen.
  - left. rewrite (bind_raise _ _ _ _ E1).
    apply lift_raise_inv in E1. now rewrite (linear_call_error _ _ _ _ E1).
Qed.

Lemma forward_train_refuses_single_sample_witness :
  forward (example_model 1) [[1%R]] None example_world = Raise (ShapeError AtLayer1)
  \/ forward (example_model 1) [[1%R]] None example_world
     = Raise (ShapeError AtBatchNorm).
Proof.
  apply (forward_train_refuses_single_sample (example_model 1) [[1%R]] None
           example_world); reflexivity.
Defined.

Local Open Scope R_scope.






Local Open Scope Z_scope.

(** ** Evaluation, beyond the accuracy *)

(** X9.  A call of [evaluate] with the batch size as sample count, for a
    batch size other than 0 and a length bound from 2 to 2^63 (the largest
    that numpy's generator accepts), returns; it leaves the model in
    evaluation mode and changes nothing else in it; it draws from numpy's
    generator only (at least two numbers per sample), prints exactly one
    line, and touches neither torch's generator nor the files. *)
Theorem evaluate_only_switches_mode
    (b : nat) (m : TxtClassifyModel) (word_dim : Z) (w : world) :
  wf_model b m = true -> b <> 0%nat -> 2 <= word_dim <= 2 ^ 63 ->
  exists correct w',
    evaluate m b word_dim w = Ok (((INR correct / INR b)%R, eval m), w')
    /\ (correct <= b)%nat
    /\ stdout w' = stdout w ++ [EvalLine correct (INR correct / INR b)%R]
    /\ files w' = files w
    /\ torch_pos w' = torch_pos w
    /\ np_tape w' = np_tape w
    /\ (np_pos w + 2 * b <= np_pos w')%nat.
Proof.
  intros Hwf Hb Hdim.
  destruct (evaluate_run b m word_dim w Hwf Hb Hdim)
    as (ws & cs & ls & k & s & w' & _ & Hs & Hlen & Hk & _ & Hsc & Hp & He).
  exists (hits (combine s ls)), w'. split; [exact He|].
  destruct (np_skip_fields k w) as (F1 & F2 & _ & _ & F5 & F6 & F7).
  unfold print in Hp. injection Hp as <-. cbn [stdout files torch_pos np_tape np_pos].
  rewrite F1, F2, F5, F6, F7.
  split; [|repeat split; lia].
  pose proof (hits_le (combine s ls)) as Hle.
  assert (Hcomb : length (combine s ls) = b).
  { rewrite length_combine. destruct Hsc as [-> _].
    destruct (Samples_lengths _ _ _ Hs) as [_ ->]. lia. }
  unfold vector in Hle, Hcomb. now rewrite Hcomb in Hle.
Qed.

Lemma evaluate_only_switches_mode_witness :
  exists correct w',
    evaluate (example_model 25) 25 10 example_world
    = Ok (((INR correct / INR 25)%R, eval (example_model 25)), w')
    /\ (correct <= 25)%nat
    /\ stdout w' = stdout example_world
                   ++ [EvalLine correct (INR correct / INR 25)%R]
    /\ files w' = files example_world
    /\ torch_pos w' = torch_pos example_world
    /\ np_tape w' = np_tape example_world
    /\ (np_pos example_world + 2 * 25 <= np_pos w')%nat.
Proof.
  apply (evaluate_only_switches_mode 25 (example_model 25) 10 example_world).
  - reflexivity.
  - lia.
  - lia.
Defined.

(** X10.  A call of [evaluate] with a sample count other than the model's
    batch size never reaches the counting loop or the division: it raises
    ValueError when a word is asked for and no length can be drawn (the
    bound is below 2, or beyond 2^63 and refused by numpy's generator), and
    a shape error otherwise; a sample count of 0 ends in a shape error, not
    in a division by zero. *)
Theorem evaluate_other_sample_counts
    (b n : nat) (m : TxtClassifyModel) (word_dim : Z) (w : world) :
  wf_model b m = true -> n <> b ->
  if ((word_dim <? 2) || (2 ^ 63 <? word_dim)) && negb (Nat.eqb n 0)
  then evaluate m n word_dim w = Raise ValueError
  else exists st, evaluate m n word_dim w = Raise (ShapeError st).
Proof.
  intros Hwf Hne.
  destruct n as [|n]; cbn [Nat.eqb negb].
  - rewrite andb_false_r.
    destruct (forward_wrong_rows (eval m) [] None w) as (st & Hf).
    { change (conv (eval m)) with (conv m).
      rewrite (wf_model_in_channels b m Hwf). exact Hne. }
    exists st. unfold evaluate, build_words. cbn [build_words_loop].
    unfold bind at 1. unfold ret at 1. cbv beta iota.
    unfold bind at 1. unfold FloatTensor at 1. cbn [forallb]. unfold ret at 1.
    cbv beta iota. now rewrite (bind_raise _ _ _ _ Hf).
  - rewrite andb_true_r.
    destruct (Z.ltb_spec word_dim 2) as [Hd|Hd]; cbn [orb].
    + unfold evaluate.
      now rewrite (bind_raise _ _ _ _
                     (build_words_bad_dim n word_dim w (or_introl Hd))).
    + destruct (Z.ltb_spec (2 ^ 63) word_dim) as [Hu|Hu].
      * unfold evaluate.
        now rewrite (bind_raise _ _ _ _
                       (build_words_bad_dim n word_dim w (or_intror Hu))).
      * now apply (evaluate_wrong_size b).
Qed.

Lemma evaluate_other_sample_counts_witness :
  (exists st, evaluate (example_model 25) 0 10 example_world = Raise (ShapeError st))
  /\ evaluate (example_model 25) 3 (2 ^ 63 + 1) example_world = Raise ValueError.
Proof.
  split.
  - apply (evaluate_other_sample_counts 25 0 (example_model 25) 10 example_world).
    + reflexivity.
    + lia.
  - apply (evaluate_other_sample_counts 25 3 (example_model 25) (2 ^ 63 + 1)
             example_world).
    + reflexivity.
    + lia.
Defined.

(** ** Prediction: probabilities, letters and printed lines *)

Local Open Scope R_scope.

Lemma rsum_exp_nonneg l : 0 <= rsum (map exp l).
Proof.
  induction l as [|a l IH]; simpl; [lra|].
  pose proof (exp_pos a). lra.
Qed.

Lemma rsum_exp_ge a l : In a l -> exp a <= rsum (map exp l).
Proof.
  induction l as [|b l IH]; simpl; [contradiction|].
  intros [->|H].
  - pose proof (rsum_exp_nonneg l). lra.
  - pose proof (exp_pos b). specialize (IH H). lra.
Qed.

Lemma rsum_exp_pos l : l <> [] -> 0 < rsum (map exp l).
Proof.
  destruct l as [|a l]; [congruence|]. intros _. simpl.
  pose proof (exp_pos a). pose proof (rsum_exp_nonneg l). lra.
Qed.

Lemma softmax_row_entries p : Forall (fun a => 0 < a <= 1) (softmax_row p).
Proof.
  unfold softmax_row. apply List.Forall_map. apply List.Forall_forall.
  intros a Ha.
  assert (Hp : p <> []) by (intros ->; contradiction).
  pose proof (rsum_exp_pos p Hp) as Hs.
  pose proof (rsum_exp_ge a p Ha) as Hle.
  pose proof (exp_pos a) as He.
  split.
  - apply Rdiv_lt_0_compat; assumption.
  - apply (Rmult_le_reg_r (rsum (map exp p))); [assumption|].
    unfold Rdiv. rewrite Rmult_assoc, Rinv_l by lra. lra.
Qed.

Lemma argmax_from_monotone (f : R -> R) :
  (forall a b, a < b <-> f a < f b) ->
  forall p best best_i i,
    argmax_from (f best) best_i i (map f p) = argmax_from best best_i i p.
Proof.
  intros Hf. induction p as [|a p IH]; intros best best_i i; [reflexivity|].
  cbn [map]. rewrite !argmax_from_cons.
  destruct (Rlt_dec (f best) (f a)) as [H|H], (Rlt_dec best a) as [H'|H'].
  - apply IH.
  - apply Hf in H. contradiction.
  - apply Hf in H'. contradiction.
  - apply IH.
Qed.

Lemma softmax_monotone d a b : 0 < d -> a < b <-> exp a / d < exp b / d.
Proof.
  intros Hd. split.
  - intros H. apply Rmult_lt_compat_r; [now apply Rinv_0_lt_compat|].
    now apply exp_increasing.
  - intros H. apply exp_lt_inv.
    apply (Rmult_lt_reg_r (/ d)); [now apply Rinv_0_lt_compat | exact H].
Qed.

Lemma np_argmax_softmax p : np_argmax (softmax_row p) = np_argmax p.
Proof.
  destruct p as [|a p]; [reflexivity|].
  unfold softmax_row. cbn [map]. rewrite !np_argmax_cons. f_equal.
  apply (argmax_from_monotone (fun c => exp c / rsum (map exp (a :: p)))).
  intros c d. apply softmax_monotone. apply rsum_exp_pos. discriminate.
Qed.

(** The value that [argmax_from] ends on, and where. *)
Lemma argmax_from_spec p : forall best best_i i,
  (best_i < i)%nat ->
  let r := argmax_from best best_i i p in
  (r = best_i /\ fold_left Rmax p best = best /\ Forall (fun a => a <= best) p)
  \/ ((i <= r)%nat /\ (r - i < length p)%nat
      /\ nth (r - i) p 0 = fold_left Rmax p best
      /\ best < nth (r - i) p 0
      /\ forall j, (j < r - i)%nat -> nth j p 0 < nth (r - i) p 0).
Proof.
  induction p as [|a p IH]; intros best best_i i Hlt; cbn zeta.
  - left. repeat split. constructor.
  - rewrite argmax_from_cons, fold_Rmax_cons.
    destruct (Rlt_dec best a) as [Hba|Hba].
    + rewrite Rmax_right by lra.
      destruct (IH a i (S i) ltac:(lia)) as [(Hr & Hfold & Hall)|(Hge & Hin & Hval & Hgt & Hfirst)];
        right.
      * rewrite Hr, Nat.sub_diag. cbn [nth length].
        split; [lia|]. split; [lia|]. split; [now rewrite Hfold|].
        split; [exact Hba|]. intros j Hj. lia.
      * set (r := argmax_from a i (S i) p) in *.
        replace (r - i)%nat with (S (r - S i)) by lia. cbn [nth length].
        split; [lia|]. split; [lia|]. split; [exact Hval|]. split; [lra|].
        intros [|j] Hj; cbn [nth]; [exact Hgt | apply Hfirst; lia].
    + rewrite Rmax_left by lra.
      destruct (IH best best_i (S i) ltac:(lia))
        as [(Hr & Hfold & Hall)|(Hge & Hin & Hval & Hgt & Hfirst)].
      * left. split; [exact Hr|]. split; [exact Hfold|].
        constructor; [lra | exact Hall].
      * right. set (r := argmax_from best best_i (S i) p) in *.
        replace (r - i)%nat with (S (r - S i)) by lia. cbn [nth length].
        split; [lia|]. split; [lia|]. split; [exact Hval|]. split; [exact Hgt|].
        intros [|j] Hj; cbn [nth]; [lra | apply Hfirst; lia].
Qed.

Lemma np_argmax_is_max p i :
  np_argmax p = Ok i ->
  (i < length p)%nat /\ Forall (fun a => a <= nth i p 0) p.
Proof.
  destruct p as [|a p]; [discriminate|].
  rewrite np_argmax_cons. intros [= <-].
  pose proof (fold_Rmax_ge p a) as Hge. pose proof (fold_Rmax_upper p a) as Hup.
  destruct (argmax_from_spec p a 0%nat 1%nat ltac:(lia))
    as [(Hr & Hfold & Hall)|(Hi & Hin & Hval & _)].
  - rewrite Hr. cbn [nth length]. split; [lia|].
    constructor; [lra | exact Hall].
  - set (r := argmax_from a 0 1 p) in *.
    replace r with (S (r - 1)) by lia. cbn [nth length].
    split; [lia|]. rewrite Hval. constructor; [exact Hge | exact Hup].
Qed.

Lemma nth_softmax_row i p :
  (i < length p)%nat ->
  nth i (softmax_row p) 0 = exp (nth i p 0) / rsum (map exp p).
Proof.
  intros Hi. unfold softmax_row.
  rewrite (nth_indep _ 0 (exp 0 / rsum (map exp p)))
    by (now rewrite length_map).
  exact (map_nth (fun a => exp a / rsum (map exp p)) p 0 i).
Qed.

Lemma softmax_weakly_monotone d a b : 0 < d -> a <= b -> exp a / d <= exp b / d.
Proof.
  intros Hd [Hlt | ->]; [|apply Rle_refl].
  left. now apply softmax_monotone.
Qed.

(** X11.  The softmax that [predict] applies keeps the length of a row of
    scores, gives entries between 0 and 1, and never reverses the order of
    two scores.  So the position that [np.argmax] picks in the raw scores
    holds a largest entry of the softmax row, and the number [predict]
    prints, the entry where [np.argmax] of the softmax row points, is the
    softmax of a highest score. *)
Theorem softmax_keeps_range_and_order (p : vector) :
  p <> [] ->
  length (softmax_row p) = length p
  /\ Forall (fun a => 0 <= a <= 1) (softmax_row p)
  /\ (forall i j, (i < length p)%nat -> (j < length p)%nat ->
        nth i p 0 <= nth j p 0 ->
        nth i (softmax_row p) 0 <= nth j (softmax_row p) 0)
  /\ exists i k,
       np_argmax p = Ok i /\ (i < length p)%nat
       /\ Forall (fun a => a <= nth i (softmax_row p) 0) (softmax_row p)
       /\ np_argmax (softmax_row p) = Ok k
       /\ nth k (softmax_row p) 0 = nth i (softmax_row p) 0.
Proof.
  intros Hp. pose proof (rsum_exp_pos p Hp) as Hpos.
  split; [unfold softmax_row; apply length_map|]. split; [|split].
  - pose proof (softmax_row_entries p) as H. revert H.
    apply List.Forall_impl. intros a Ha. lra.
  - intros i j Hi Hj Hle. rewrite !nth_softmax_row by assumption.
    now apply softmax_weakly_monotone.
  - destruct (np_argmax_lt p Hp) as (i & Hi & _).
    destruct (np_argmax_is_max p i Hi) as [Hlt Hmax].
    exists i, i. split; [exact Hi|]. split; [exact Hlt|].
    split; [|split; [now rewrite np_argmax_softmax | reflexivity]].
    rewrite (nth_softmax_row i p Hlt). unfold softmax_row.
    apply List.Forall_map. revert Hmax. apply List.Forall_impl.
    intros a Ha. now apply softmax_weakly_monotone.
Qed.

Lemma softmax_keeps_range_and_order_witness :
  length (softmax_row row_top_is_label) = length row_top_is_label
  /\ Forall (fun a => 0 <= a <= 1) (softmax_row row_top_is_label)
  /\ (forall i j,
        (i < length row_top_is_label)%nat -> (j < length row_top_is_label)%nat ->
        nth i row_top_is_label 0 <= nth j row_top_is_label 0 ->
        nth i (softmax_row row_top_is_label) 0
        <= nth j (softmax_row row_top_is_label) 0)
  /\ exists i k,
       np_argmax row_top_is_label = Ok i /\ (i < length row_top_is_label)%nat
       /\ Forall (fun a => a <= nth i (softmax_row row_top_is_label) 0)
            (softmax_row row_top_is_label)
       /\ np_argmax (softmax_row row_top_is_label) = Ok k
       /\ nth k (softmax_row row_top_is_label) 0
          = nth i (softmax_row row_top_is_label) 0.
Proof.
  apply (softmax_keeps_range_and_order row_top_is_label). discriminate.
Defined.

(** X12.  [np.argmax] as [predict] uses it returns the first position of
    the largest entry: the entry there is the maximum of the row and every
    entry before it is strictly smaller.  So the probability that [predict]
    prints for a sample is the largest of its row. *)
Theorem np_argmax_first_maximum (p : vector) :
  p <> [] ->
  exists i,
    np_argmax p = Ok i
    /\ (i < length p)%nat
    /\ nth i p 0 = top_value p
    /\ Forall (fun a => a <= nth i p 0) p
    /\ forall j, (j < i)%nat -> nth j p 0 < nth i p 0.
Proof.
  destruct p as [|a p]; [congruence|]. intros _.
  exists (argmax_from a 0 1 p). rewrite np_argmax_cons, top_value_cons.
  split; [reflexivity|].
  pose proof (fold_Rmax_ge p a) as Hge. pose proof (fold_Rmax_upper p a) as Hup.
  destruct (argmax_from_spec p a 0%nat 1%nat ltac:(lia))
    as [(Hr & Hfold & Hall)|(Hi & Hin & Hval & Hgt & Hfirst)].
  - rewrite Hr. cbn [nth length]. split; [lia|]. split; [now rewrite Hfold|].
    split; [constructor; [lra | exact Hall] | intros j Hj; lia].
  - set (r := argmax_from a 0 1 p) in *.
    replace r with (S (r - 1)) by lia. cbn [nth length].
    split; [lia|]. split; [exact Hval|]. split.
    + rewrite Hval. constructor; [exact Hge | exact Hup].
    + intros [|j] Hj; cbn [nth]; [exact Hgt | apply Hfirst; lia].
Qed.

Lemma np_argmax_first_maximum_witness :
  exists i,
    np_argmax row_top_is_label = Ok i
    /\ (i < length row_top_is_label)%nat
    /\ nth i row_top_is_label 0 = top_value row_top_is_label
    /\ Forall (fun a => a <= nth i row_top_is_label 0) row_top_is_label
    /\ forall j, (j < i)%nat -> nth j row_top_is_label 0 < nth i row_top_is_label 0.
Proof. apply (np_argmax_first_maximum row_top_is_label). discriminate. Defined.

Local Open Scope Z_scope.

Lemma predict_loop_lines words : forall result labels w,
  Forall (fun r => length r = 26%nat) result ->
  Forall (fun t => 0 <= t < 26) labels ->
  exists w',
    predict_loop words result labels w = Ok (tt, w')
    /\ stdout w' = stdout w ++ zip_with3 predict_line words result labels
    /\ files w' = files w /\ np_pos w' = np_pos w /\ torch_pos w' = torch_pos w.
Proof.
  induction words as [|word words IH]; intros result labels w Hr Hl.
  - exists w. cbn [predict_loop zip_with3]. rewrite app_nil_r. now repeat split.
  - destruct result as [|pred result];
      [exists w; cbn [predict_loop zip_with3]; rewrite app_nil_r; now repeat split|].
    destruct labels as [|label labels];
      [exists w; cbn [predict_loop zip_with3]; rewrite app_nil_r; now repeat split|].
    inversion Hr as [|? ? Hp Hr']; subst. inversion Hl as [|? ? Ht Hl']; subst.
    destruct (np_argmax_lt pred) as (i & Hi & Hlt).
    { intros ->. discriminate Hp. }
    rewrite Hp in Hlt. cbn [predict_loop].
    rewrite (bind_ok _ _ _ _ _ (lift_ok _ _ w Hi)).
    rewrite (bind_ok _ _ _ _ _ (chr_ok (Z.of_nat i + ord_a) w ltac:(unfold ord_a; lia))).
    rewrite (bind_ok _ _ _ _ _ (lift_ok _ _ w Hi)).
    rewrite (bind_ok _ _ _ _ _ (chr_ok (label + ord_a) w ltac:(unfold ord_a; lia))).
    unfold bind at 1. unfold print at 1. cbv beta iota.
    match goal with |- exists w', predict_loop _ _ _ ?w1 = _ /\ _ =>
      destruct (IH result labels w1 Hr' Hl') as (w' & Hw' & Hout & Hf & Hn & Ht')
    end.
    exists w'. split; [exact Hw'|]. cbn [stdout files np_pos torch_pos] in *.
    split; [|now repeat split].
    rewrite Hout, <- app_assoc. cbn [zip_with3 app].
    unfold predict_line at 2, argmax_index. now rewrite Hi.
Qed.

(** In evaluation mode the scores do not depend on the interpreter state. *)
Lemma forward_eval_any_world m x w w' :
  training m = false ->
  scores_of (forward m x None w) = scores_of (forward m x None w').
Proof.
  intros Hev. unfold forward, call_batchnorm, bind, lift, ret.
  destruct (linear_call AtLayer1 (layer1 m) x) as [x1|e]; [|reflexivity].
  destruct (batchnorm_call (training m) (batchnorm m) x1) as [[x2 bn1]|e];
    [|reflexivity].
  cbn [fst snd conv set_batchnorm].
  destruct (conv_call (conv m) (relu x2)) as [x3|e]; [|reflexivity].
  cbn [training batchnorm set_batchnorm].
  destruct (batchnorm_call (training m) bn1 x3) as [[x4 bn2]|e]; [|reflexivity].
  cbn [fst snd layer2 set_batchnorm].
  destruct (linear_call AtLayer2 (layer2 m) (relu x4)) as [x5|e]; [|reflexivity].
  cbn [training batchnorm set_batchnorm].
  destruct (batchnorm_call (training m) bn2 x5) as [[x6 bn3]|e]; [|reflexivity].
  cbn [fst snd dropout training set_batchnorm].
  unfold dropout_call. rewrite Hev. reflexivity.
Qed.

Lemma nth_in_softmax i p :
  (i < length p)%nat -> (0 < nth i (softmax_row p) 0 <= 1)%R.
Proof.
  intros Hi.
  assert (Hin : In (nth i (softmax_row p) 0%R) (softmax_row p)).
  { apply nth_In. unfold softmax_row. now rewrite length_map. }
  pose proof (softmax_row_entries p) as Hall.
  rewrite List.Forall_forall in Hall. exact (Hall _ Hin).
Qed.

Lemma predict_lines_ok words : forall (s : matrix) crclabels labels,
  Forall3 Sample words crclabels labels ->
  Forall (fun r => length r = 26%nat) s ->
  Forall predicted_line_ok (zip_with3 predict_line words (Softmax s) labels).
Proof.
  intros s crclabels labels Hs. revert s.
  induction Hs as [|word crc label ws cs ls Hsample _ IH]; intros s Hrows.
  - constructor.
  - destruct s as [|row s]; [constructor|].
    inversion Hrows as [|? ? Hrow Hrows']; subst.
    cbn [Softmax map zip_with3]. constructor; [|apply IH; exact Hrows'].
    unfold predict_line, predicted_line_ok.
    assert (Hne : softmax_row row <> []).
    { intros E. apply (f_equal (@length R)) in E.
      unfold softmax_row in E. rewrite length_map, Hrow in E. discriminate. }
    destruct (np_argmax_lt (softmax_row row) Hne) as (i & Hi & Hlt).
    unfold argmax_index. rewrite Hi.
    unfold softmax_row in Hlt. rewrite length_map, Hrow in Hlt.
    split; [|split].
    + eexists. split; [reflexivity|]. unfold is_letter, ord_a. lia.
    + apply nth_in_softmax. lia.
    + destruct Hsample as (_ & _ & c & Hc & ->). exists c.
      split; [exact Hc|]. f_equal. unfold ord_a. lia.
Qed.

Lemma length_zip_with3 {A B C D} (f : A -> B -> C -> D) n :
  forall a b c,
    length a = n -> length b = n -> length c = n ->
    length (zip_with3 f a b c) = n.
Proof.
  induction n as [|n IH]; intros [|x a] [|y b] [|z c] Ha Hb Hc;
    try discriminate; [reflexivity|].
  cbn [zip_with3 length]. f_equal. apply IH; simpl in *; lia.
Qed.

(** What [predict] does when the file and the sample fit. *)
Lemma predict_run
    (m : TxtClassifyModel) (path : string)
    (words : list str) (crclabels : list (list Z)) (labels : list Z) (w : world) :
  wf_model 25 m = true ->
  files w !! path = Some (state_dict m) ->
  Forall3 Sample words crclabels labels -> length words = 25%nat ->
  exists s w',
    forward (eval m) (map (map IZR) crclabels) None w = Ok ((Scores s, eval m), w)
    /\ Matrix 25 26 s
    /\ predict path (words, crclabels, labels) w = Ok (tt, w')
    /\ stdout w' = stdout w ++ zip_with3 predict_line words (Softmax s) labels
    /\ files w' = files w.
Proof.
  intros Hwf Hfile Hs Hlen.
  destruct (TxtClassifyModel_init_ok 25 w) as (m0 & w1 & Hinit & Hwf0 & _ & _ & Hw1).
  assert (Hfile1 : files w1 !! path = Some (state_dict m)).
  { destruct Hw1 as (_ & _ & _ & _ & -> & _). exact Hfile. }
  destruct (load_state_dict_of_state_dict 25 m m0 Hwf Hwf0)
    as (m' & Hload & Hc & H1 & H2 & Hbn & _).
  destruct (FloatTensor_features words crclabels labels w1 Hs) as [Hft Hx].
  rewrite Hlen in Hx.
  assert (Hwf' : wf_model 25 (eval m') = true).
  { rewrite wf_model_eval, (wf_model_layers 25 m' m); assumption. }
  destruct (forward_run 25 (eval m') (map (map IZR) crclabels) w1)
    as (s' & m'' & w2 & Hf' & _ & _ & _ & _ & _ & Hsame' & _);
    [assumption | assumption | lia | discriminate |].
  destruct (Hsame' eq_refl) as [-> ->].
  destruct (forward_run 25 (eval m) (map (map IZR) crclabels) w)
    as (s & m1 & w3 & Hf & Hsc & _ & _ & _ & _ & Hsame & _);
    [assumption | assumption | lia | discriminate |].
  destruct (Hsame eq_refl) as [-> ->].
  assert (Hss : s' = s).
  { pose proof (forward_eval_ext (eval m') (eval m) (map (map IZR) crclabels) w1
                  (same_layers_eval_of m' m Hc H1 H2 Hbn)) as E1.
    pose proof (forward_eval_any_world (eval m) (map (map IZR) crclabels) w1 w
                  eq_refl) as E2.
    rewrite Hf' in E1. rewrite E2, Hf in E1. cbn [scores_of] in E1. congruence. }
  subst s'.
  destruct (predict_loop_lines words (Softmax s) labels w1) as
    (w' & Hloop & Hout & Hfiles & _).
  { apply (Softmax_shape 25 26 s Hsc). }
  { exact (Samples_labels _ _ _ Hs). }
  exists s, w'. split; [exact Hf|]. split; [exact Hsc|]. split.
  - unfold predict. rewrite (bind_ok _ _ _ _ _ Hinit).
    rewrite (bind_ok _ _ _ _ _ (torch_load_ok _ _ _ Hfile1)).
    rewrite (bind_ok _ _ _ _ _ (lift_ok _ _ w1 Hload)).
    rewrite (bind_ok _ _ _ _ _ Hft).
    rewrite (bind_ok _ _ _ _ _ Hf'). exact Hloop.
  - destruct Hw1 as (_ & _ & _ & _ & Hf1 & Ho1).
    split; [now rewrite Hout, Ho1 | now rewrite Hfiles].
Qed.

(** The lines of 25 samples: one for each, all as they should be. *)
Lemma predict_lines_count words crclabels labels (s : matrix) :
  Forall3 Sample words crclabels labels -> length words = 25%nat ->
  Matrix 25 26 s ->
  length (zip_with3 predict_line words (Softmax s) labels) = 25%nat
  /\ Forall predicted_line_ok (zip_with3 predict_line words (Softmax s) labels).
Proof.
  intros Hs Hlen Hsc. split.
  - destruct (Samples_lengths _ _ _ Hs) as [_ Hll]. rewrite Hlen in Hll.
    destruct (Softmax_shape 25 26 s Hsc) as [Hrows _].
    now apply length_zip_with3.
  - apply (predict_lines_ok words s crclabels labels Hs). apply Hsc.
Qed.


Lemma Sample_cat : Sample (codes "cat") [Crc8.checksum (codes "cat")] 2.
Proof.
  split; [|split; [reflexivity | exists 99; split; reflexivity]].
  change (codes "cat") with [99; 97; 116].
  constructor; [unfold is_letter; lia|].
  constructor; [unfold is_letter; lia|].
  constructor; [unfold is_letter; lia | constructor].
Qed.

Lemma Samples_repeat n word crc label :
  Sample word crc label ->
  Forall3 Sample (repeat word n) (repeat crc n) (repeat label n).
Proof. intros H. induction n; simpl; now constructor. Qed.


(** ** Prediction: what makes it fail *)

(** X14.  [predict] opens the file without looking for it first: when the
    path names no file it raises FileNotFoundError, whatever the sample.  The
    entry point, in which the call of [main] is commented out, therefore
    fails in that way unless the file is already there: it draws its 25
    samples and then stops in [predict]. *)
Theorem predict_needs_the_file
    (path : string) (sample : list str * list (list Z) * list Z) (w : world) :
  files w !! path = None ->
  predict path sample w = Raise FileNotFoundError
  /\ (path = "txtclassify.pt" -> script w = Raise FileNotFoundError).
Proof.
  intros Hfile.
  assert (Hp : forall smp w0, files w0 = files w ->
                 predict path smp w0 = Raise FileNotFoundError).
  { intros smp w0 Hw0. unfold predict.
    destruct (TxtClassifyModel_init_ok 25 w0) as (m0 & w1 & Hinit & _ & _ & _ & Hw1).
    rewrite (bind_ok _ _ _ _ _ Hinit). apply bind_raise. unfold torch_load.
    destruct Hw1 as (_ & _ & _ & _ & -> & _). now rewrite Hw0, Hfile. }
  split; [now apply Hp|].
  intros ->. unfold script.
  destruct (build_words_ok 25 10 w) as (ws & cs & ls & k & Hbw & _); [lia|].
  rewrite (bind_ok _ _ _ _ _ Hbw). cbv beta iota.
  unfold bind at 1. unfold print at 1. cbv beta iota.
  apply Hp. cbn [files].
  now destruct (np_skip_fields k w) as (_ & _ & _ & _ & _ & -> & _).
Qed.

Lemma predict_needs_the_file_witness :
  predict "txtclassify.pt" ([], [], []) example_world = Raise FileNotFoundError
  /\ script example_world = Raise FileNotFoundError.
Proof.
  destruct (predict_needs_the_file "txtclassify.pt" ([], [], []) example_world
              eq_refl) as [H1 H2].
  split; [exact H1 | exact (H2 eq_refl)].
Defined.

Lemma forallb2_length_false {A B} (f : A -> B -> bool) (a : list A) : forall b,
  length a <> length b -> forallb2 f a b = false.
Proof.
  induction a as [|x a IH]; intros [|y b] H; simpl in *;
    try reflexivity; [congruence|].
  rewrite IH by lia. apply andb_false_r.
Qed.

Lemma is_tensor3_length d0 d1 d2 t : is_tensor3 d0 d1 d2 t = true -> length t = d0.
Proof.
  unfold is_tensor3. rewrite andb_true_iff, Nat.eqb_eq. now intros [H _].
Qed.

(** A state dict of a model for another batch size does not fit: the
    weight of the convolution has another shape. *)
Lemma load_state_dict_other_size b b0 m m0 :
  wf_model b m = true -> wf_model b0 m0 = true -> b <> b0 ->
  load_state_dict m0 (state_dict m) = Raise StateDictError.
Proof.
  intros Hm Hm0 Hne.
  destruct (wf_model_fields b m Hm) as ((_ & _ & Hcw & _) & _).
  destruct (wf_model_fields b0 m0 Hm0) as ((_ & _ & Hcw0 & _) & _).
  destruct (state_dict_lookups m) as (L1 & _).
  destruct (state_dict_lookups m0) as (K1 & _).
  unfold load_state_dict.
  replace (forallb (key_matches (state_dict m0) (state_dict m))
             (map fst (state_items m0))) with false.
  - now rewrite andb_false_r.
  - symmetry. cbn [map fst state_items forallb]. unfold key_matches at 1.
    rewrite L1, K1. cbn [same_shape].
    rewrite forallb2_length_false; [reflexivity|].
    apply is_tensor3_length in Hcw, Hcw0. unfold matrix in *. congruence.
Qed.

(** X15.  [predict] builds its model for batches of 25, whatever the file
    holds: the state dict of a model built for any other batch size is
    refused by [load_state_dict], and nothing is predicted. *)
Theorem predict_refuses_other_batch_size
    (b : nat) (m : TxtClassifyModel) (path : string)
    (sample : list str * list (list Z) * list Z) (w : world) :
  wf_model b m = true -> b <> 25%nat ->
  files w !! path = Some (state_dict m) ->
  predict path sample w = Raise StateDictError.
Proof.
  intros Hwf Hb Hfile. unfold predict.
  destruct (TxtClassifyModel_init_ok 25 w) as (m0 & w1 & Hinit & Hwf0 & _ & _ & Hw1).
  rewrite (bind_ok _ _ _ _ _ Hinit).
  assert (Hfile1 : files w1 !! path = Some (state_dict m)).
  { destruct Hw1 as (_ & _ & _ & _ & -> & _). exact Hfile. }
  rewrite (bind_ok _ _ _ _ _ (torch_load_ok _ _ _ Hfile1)).
  apply bind_raise, lift_raise.
  exact (load_state_dict_other_size b 25 m m0 Hwf Hwf0 Hb).
Qed.

Lemma predict_refuses_other_batch_size_witness :
  predict "txtclassify.pt" ([], [], []) (saved_world (example_model 2))
  = Raise StateDictError.
Proof.
  apply (predict_refuses_other_batch_size 2 (example_model 2) "txtclassify.pt"
           ([], [], []) (saved_world (example_model 2))).
  - reflexivity.
  - lia.
  - reflexivity.
Defined.

(** X16.  With a good file, [predict] still only takes samples in the number
    the model was built for: a sample of any other size than 25, the empty
    one included, ends in a shape error inside [forward], before anything
    is printed. *)
Theorem predict_refuses_other_sample_counts
    (m : TxtClassifyModel) (path : string)
    (words : list str) (crclabels : list (list Z)) (labels : list Z) (w : world) :
  wf_model 25 m = true ->
  files w !! path = Some (state_dict m) ->
  Forall3 Sample words crclabels labels -> length words <> 25%nat ->
  exists st, predict path (words, crclabels, labels) w = Raise (ShapeError st).
Proof.
  intros Hwf Hfile Hs Hlen. unfold predict.
  destruct (TxtClassifyModel_init_ok 25 w) as (m0 & w1 & Hinit & Hwf0 & _ & _ & Hw1).
  rewrite (bind_ok _ _ _ _ _ Hinit).
  assert (Hfile1 : files w1 !! path = Some (state_dict m)).
  { destruct Hw1 as (_ & _ & _ & _ & -> & _). exact Hfile. }
  rewrite (bind_ok _ _ _ _ _ (torch_load_ok _ _ _ Hfile1)).
  destruct (load_state_dict_of_state_dict 25 m m0 Hwf Hwf0)
    as (m' & Hload & Hc & _).
  rewrite (bind_ok _ _ _ _ _ (lift_ok _ _ w1 Hload)).
  destruct (FloatTensor_features words crclabels labels w1 Hs) as [Hft [Hrows _]].
  rewrite (bind_ok _ _ _ _ _ Hft).
  destruct (forward_wrong_rows (eval m') (map (map IZR) crclabels) None w1)
    as (st & Hf).
  { change (conv (eval m')) with (conv m').
    rewrite Hc, (wf_model_in_channels 25 m Hwf), Hrows. exact Hlen. }
  exists st. now rewrite (bind_raise _ _ _ _ Hf).
Qed.

Lemma predict_refuses_other_sample_counts_witness :
  exists st,
    predict "txtclassify.pt"
      (repeat (codes "cat") 3, repeat [Crc8.checksum (codes "cat")] 3, repeat 2 3)
      (saved_world (example_model 25)) = Raise (ShapeError st).
Proof.
  apply (predict_refuses_other_sample_counts (example_model 25) "txtclassify.pt"
           (repeat (codes "cat") 3) (repeat [Crc8.checksum (codes "cat")] 3)
           (repeat 2 3) (saved_world (example_model 25))).
  - reflexivity.
  - reflexivity.
  - apply Samples_repeat, Sample_cat.
  - simpl. lia.
Defined.

(** ** The state dict *)

Lemma same_len_eq {A B} (a : list A) (b : list B) :
  same_len a b = true -> length a = length b.
Proof. apply Nat.eqb_eq. Qed.

Lemma same_shape_rows (x y : matrix) :
  forallb2 same_len x y = true -> map (@length R) y = map (@length R) x.
Proof.
  revert y. induction x as [|u x IH]; intros [|v y] H; simpl in *;
    try discriminate; [reflexivity|].
  apply andb_true_iff in H as [Hu H]. apply same_len_eq in Hu.
  now rewrite Hu, (IH y H).
Qed.

Lemma same_shape_planes (x y : list matrix) :
  forallb2 (forallb2 same_len) x y = true ->
  map (map (@length R)) y = map (map (@length R)) x.
Proof.
  revert y. induction x as [|u x IH]; intros [|v y] H; simpl in *;
    try discriminate; [reflexivity|].
  apply andb_true_iff in H as [Hu H].
  now rewrite (same_shape_rows u v Hu), (IH y H).
Qed.

(** X17.  [load_state_dict] is strict and exact.  When it returns, the state
    dict of the module is the loaded one, entry for entry; the mode, the
    dropout probability and the gradients are those the module had; and a
    module that had the shape of a batch size still has it.  When it does
    not return, the error is the one for a wrong state dict, and that is
    what a dict with other keys than the module's gets. *)
Theorem load_state_dict_exact (m0 : TxtClassifyModel) (sd : gmap string tensor) :
  match load_state_dict m0 sd with
  | Ok m' =>
      state_dict m' = sd
      /\ training m' = training m0 /\ dropout m' = dropout m0 /\ grad m' = grad m0
      /\ (forall b, wf_model b m0 = true -> wf_model b m' = true)
  | Raise e => e = StateDictError
  end
  /\ (dom sd <> dom (state_dict m0) -> load_state_dict m0 sd = Raise StateDictError).
Proof.
  split.
  2:{ intros Hdom. unfold load_state_dict.
      now rewrite bool_decide_false by exact Hdom. }
  unfold load_state_dict.
  destruct (bool_decide (dom sd = dom (state_dict m0))
            && forallb (key_matches (state_dict m0) sd) (map fst (state_items m0)))
    eqn:Hcond; [|reflexivity].
  apply andb_true_iff in Hcond as [Hdom Hkeys].
  apply bool_decide_eq_true in Hdom.
  destruct (sd !! "conv.weight") as [[?|?|?|cw]|] eqn:L1; try reflexivity.
  destruct (sd !! "conv.bias") as [[?|cb|?|?]|] eqn:L2; try reflexivity.
  destruct (sd !! "layer1.weight") as [[?|?|w1|?]|] eqn:L3; try reflexivity.
  destruct (sd !! "layer1.bias") as [[?|b1|?|?]|] eqn:L4; try reflexivity.
  destruct (sd !! "layer2.weight") as [[?|?|w2|?]|] eqn:L5; try reflexivity.
  destruct (sd !! "layer2.bias") as [[?|b2|?|?]|] eqn:L6; try reflexivity.
  destruct (sd !! "batchnorm.weight") as [[?|gamma|?|?]|] eqn:L7; try reflexivity.
  destruct (sd !! "batchnorm.bias") as [[?|beta|?|?]|] eqn:L8; try reflexivity.
  destruct (sd !! "batchnorm.running_mean") as [[?|rm|?|?]|] eqn:L9; try reflexivity.
  destruct (sd !! "batchnorm.running_var") as [[?|rv|?|?]|] eqn:L10; try reflexivity.
  destruct (sd !! "batchnorm.num_batches_tracked") as [[nbt|?|?|?]|] eqn:L11;
    try reflexivity.
  match goal with |- state_dict ?m = _ /\ _ => set (m' := m) end.
  split; [|split; [reflexivity|split; [reflexivity|split; [reflexivity|]]]].
  - apply map_eq. intros k.
    destruct (decide (k ∈ map fst (state_items m0))) as [Hin|Hnin].
    + destruct (state_dict_lookups m')
        as (K1 & K2 & K3 & K4 & K5 & K6 & K7 & K8 & K9 & K10 & K11).
      cbn [map fst state_items] in Hin. set_unfold in Hin.
      subst m'.
      cbn [conv layer1 layer2 batchnorm conv_weight conv_bias lin_weight lin_bias
           bn_weight bn_bias running_mean running_var num_batches_tracked]
        in K1, K2, K3, K4, K5, K6, K7, K8, K9, K10, K11.
      repeat (destruct Hin as [->|Hin]; [congruence|]).
      first [contradiction | subst k; congruence].
    + transitivity (@None tensor); [|symmetry].
      * apply not_elem_of_dom. rewrite state_dict_dom, elem_of_list_to_set.
        exact Hnin.
      * apply not_elem_of_dom. rewrite Hdom, state_dict_dom, elem_of_list_to_set.
        exact Hnin.
  - intros b Hwf.
    destruct (state_dict_lookups m0)
      as (K1 & K2 & K3 & K4 & K5 & K6 & K7 & K8 & K9 & K10 & K11).
    cbn [map fst state_items forallb] in Hkeys. unfold key_matches in Hkeys.
    rewrite L1, L2, L3, L4, L5, L6, L7, L8, L9, L10, L11 in Hkeys.
    rewrite K1, K2, K3, K4, K5, K6, K7, K8, K9, K10, K11 in Hkeys.
    cbn [same_shape] in Hkeys. rewrite !andb_true_iff in Hkeys.
    destruct Hkeys as (S1 & S2 & S3 & S4 & S5 & S6 & S7 & S8 & S9 & S10 & _).
    apply same_shape_planes in S1. apply same_shape_rows in S3, S5.
    apply same_len_eq in S2, S4, S6, S7, S8, S9, S10.
    revert Hwf. unfold wf_model, wf_conv, wf_linear, wf_batchnorm, m'.
    cbn [conv layer1 layer2 batchnorm in_channels out_channels conv_weight
         conv_bias in_features out_features lin_weight lin_bias num_features
         bn_weight bn_bias running_mean running_var].
    rewrite (is_tensor3_shape b b 1 _ cw S1).
    rewrite (is_matrix_shape 26 1 _ w1 S3), (is_matrix_shape 26 26 _ w2 S5).
    unfold is_vector. now rewrite S2, S4, S6, S7, S8, S9, S10.
Qed.

Lemma load_state_dict_exact_witness :
  match load_state_dict (example_model 25) (state_dict (example_model 2)) with
  | Ok m' =>
      state_dict m' = state_dict (example_model 2)
      /\ training m' = training (example_model 25)
      /\ dropout m' = dropout (example_model 25)
      /\ grad m' = grad (example_model 25)
      /\ (forall b, wf_model b (example_model 25) = true -> wf_model b m' = true)
  | Raise e => e = StateDictError
  end
  /\ load_state_dict (example_model 25) ∅ = Raise StateDictError.
Proof.
  destruct (load_state_dict_exact (example_model 25) (state_dict (example_model 2)))
    as [H _].
  split; [exact H|].
  apply (proj2 (load_state_dict_exact (example_model 25) ∅)).
  rewrite dom_empty_L, state_dict_dom. cbn [map fst state_items]. set_solver.
Defined.

(** ** The constructor *)

Lemma length_concat_tensor3 d0 d1 d2 (t : list matrix) :
  is_tensor3 d0 d1 d2 t = true ->
  length (concat (concat t)) = (d0 * (d1 * d2))%nat.
Proof.
  unfold is_tensor3. rewrite andb_true_iff, Nat.eqb_eq. intros [Hl Hall].
  subst d0. induction t as [|m t IH]; [reflexivity|].
  simpl in Hall. apply andb_true_iff in Hall as [Hm Hall].
  apply is_matrix_spec in Hm.
  cbn [concat]. rewrite concat_app, length_app, (IH Hall).
  rewrite (length_concat_matrix d1 d2 m Hm). simpl. lia.
Qed.

Lemma TxtClassifyModel_init_fields b w m w' :
  TxtClassifyModel_init b w = Ok (m, w') ->
  dropout m = (4 / 10)%R /\ batchnorm m = BatchNorm1d_init 26.
Proof.
  unfold TxtClassifyModel_init. intros H.
  apply bind_inv in H as (c & w1 & _ & H).
  apply bind_inv in H as (l1 & w2 & _ & H).
  apply bind_inv in H as (l2 & w3 & _ & H).
  unfold ret in H. injection H as <- _. split; reflexivity.
Qed.

(** X18.  The constructor always returns, and because the batch size is
    the number of channels of the convolution, the number of trainable
    entries depends on it: a model for batches of [b] has b*b + b + 806 of
    them.  The new module is in training mode, has no gradients, zeroes 40%
    of the entries in dropout, and its one batch normalisation starts from
    weights 1, biases 0 and the running statistics 0 and 1.  Constructing it
    uses torch's random generator only. *)
Theorem new_model_has_batch_size_many_channels (b : nat) (w : world) :
  exists m w',
    TxtClassifyModel_init b w = Ok (m, w')
    /\ wf_model b m = true
    /\ list_sum (map numel (parameters m)) = (b * b + b + 806)%nat
    /\ training m = true /\ grad m = None /\ dropout m = (4 / 10)%R
    /\ batchnorm m = BatchNorm1d_init 26
    /\ torch_only w w'.
Proof.
  destruct (TxtClassifyModel_init_ok b w) as (m & w' & Hinit & Hwf & Ht & Hg & Hw).
  destruct (TxtClassifyModel_init_fields b w m w' Hinit) as [Hd Hbn].
  exists m, w'. split; [exact Hinit|]. split; [exact Hwf|].
  split; [|split; [exact Ht|split; [exact Hg|split; [exact Hd|split;
    [exact Hbn | exact Hw]]]]].
  destruct (wf_model_fields b m Hwf)
    as ((_ & _ & Hcw & Hcb) & (_ & _ & H1w & H1b)
        & (_ & _ & H2w & H2b) & (_ & Hg' & Hbt & _)).
  unfold parameters. cbn [map numel list_sum].
  rewrite (length_concat_tensor3 b b 1 _ Hcw).
  rewrite (length_concat_matrix 26 1 _ H1w), (length_concat_matrix 26 26 _ H2w).
  unfold vector in *. rewrite Hcb, H1b, H2b, Hg', Hbt.
  unfold list_sum. cbn [fold_right]. lia.
Qed.

(** ** The loss *)






(** ** Files *)

Lemma advances_refl w : advances w w.
Proof.
  unfold advances. repeat split; try lia. exists []. now rewrite app_nil_r.
Qed.

Lemma advances_trans w1 w2 w3 : advances w1 w2 -> advances w2 w3 -> advances w1 w3.
Proof.
  intros (A1 & A2 & A3 & A4 & A5 & A6 & o1 & A7) (B1 & B2 & B3 & B4 & B5 & B6 & o2 & B7).
  unfold advances. repeat split; try congruence; try lia.
  exists (o1 ++ o2). now rewrite B7, A7, app_assoc.
Qed.

Lemma keeps_files_ret {A} (a : A) : keeps_files (ret a).
Proof. intros w a' w' [= _ <-]. apply advances_refl. Qed.

Lemma keeps_files_raise {A} e : keeps_files (@raise A e).
Proof. intros w a w' H. discriminate H. Qed.

Lemma keeps_files_lift {A} (r : result A) : keeps_files (lift r).
Proof.
  intros w a w' H. apply lift_ok_inv in H as [_ ->]. apply advances_refl.
Qed.

Lemma keeps_files_bind {A B} (c : Py A) (k : A -> Py B) :
  keeps_files c -> (forall a, keeps_files (k a)) -> keeps_files (bind c k).
Proof.
  intros Hc Hk w b w'' H. apply bind_inv in H as (a & w' & H1 & H2).
  exact (advances_trans _ _ _ (Hc _ _ _ H1) (Hk a _ _ _ H2)).
Qed.

Lemma keeps_files_print l : keeps_files (print l).
Proof.
  intros w a w' [= _ <-]. unfold advances. cbn.
  repeat split; try lia. now exists [l].
Qed.

Lemma keeps_files_randint low high : keeps_files (randint low high).
Proof.
  intros w a w'. unfold randint.
  destruct ((low <? int64_min) || (int64_max <? high - 1)); [discriminate|].
  destruct (low <? high); [|discriminate].
  intros [= _ <-]. unfold advances. cbn.
  repeat split; try lia. exists []. now rewrite app_nil_r.
Qed.

Lemma keeps_files_draw_vector n : keeps_files (draw_vector n).
Proof.
  intros w a w' [= _ <-]. unfold advances. cbn.
  repeat split; try lia. exists []. now rewrite app_nil_r.
Qed.

Lemma keeps_files_dropout_call p t x : keeps_files (dropout_call p t x).
Proof.
  unfold dropout_call. destruct t; [|apply keeps_files_ret].
  intros w a w' [= _ <-]. unfold advances. cbn.
  repeat split; try lia. exists []. now rewrite app_nil_r.
Qed.

Lemma keeps_files_torch_load path : keeps_files (torch_load path).
Proof.
  intros w a w'. unfold torch_load. destruct (files w !! path); [|discriminate].
  intros [= _ <-]. apply advances_refl.
Qed.

Lemma keeps_files_current_world : keeps_files current_world.
Proof. intros w a w' [= _ <-]. apply advances_refl. Qed.

Create HintDb files.

#[local] Hint Resolve keeps_files_ret keeps_files_raise keeps_files_lift
  keeps_files_print keeps_files_randint keeps_files_draw_vector
  keeps_files_dropout_call keeps_files_torch_load keeps_files_current_world
  : files.

(** One step of a proof that a computation keeps the files: split a
    sequence, or look at the value a branch depends on. *)
Ltac keeps_files_step :=
  match goal with
  | |- keeps_files (bind _ _) => apply keeps_files_bind; [|intros ?]
  | |- keeps_files (let '(_, _) := ?p in _) => destruct p
  | |- keeps_files (match ?x with _ => _ end) => destruct x
  | |- keeps_files _ => solve [auto with files]
  end.

Ltac solve_keeps_files := repeat keeps_files_step.

Lemma keeps_files_chr n : keeps_files (chr n).
Proof. unfold chr. solve_keeps_files. Qed.

Lemma keeps_files_ord s : keeps_files (ord s).
Proof. unfold ord. solve_keeps_files. Qed.

Lemma keeps_files_first_char s : keeps_files (first_char s).
Proof. unfold first_char. solve_keeps_files. Qed.

#[local] Hint Resolve keeps_files_chr keeps_files_ord keeps_files_first_char : files.

Lemma keeps_files_build_simple : keeps_files build_simple.
Proof. unfold build_simple. solve_keeps_files. Qed.

#[local] Hint Resolve keeps_files_build_simple : files.

Lemma keeps_files_build_word_loop n : forall x, keeps_files (build_word_loop n x).
Proof. induction n as [|n IH]; intros x; cbn [build_word_loop]; solve_keeps_files. Qed.

#[local] Hint Resolve keeps_files_build_word_loop : files.

Lemma keeps_files_build_word len : keeps_files (build_word len).
Proof. unfold build_word. solve_keeps_files. Qed.

Lemma keeps_files_build_crc_label word : keeps_files (build_crc_label word).
Proof. unfold build_crc_label. solve_keeps_files. Qed.

#[local] Hint Resolve keeps_files_build_word keeps_files_build_crc_label : files.

Lemma keeps_files_build_words_loop n word_dim : forall ws cs ls,
  keeps_files (build_words_loop n word_dim ws cs ls).
Proof.
  induction n as [|n IH]; intros ws cs ls; cbn [build_words_loop]; solve_keeps_files.
Qed.

Lemma keeps_files_build_words n word_dim : keeps_files (build_words n word_dim).
Proof. apply keeps_files_build_words_loop. Qed.

Lemma keeps_files_FloatTensor l : keeps_files (FloatTensor l).
Proof. unfold FloatTensor. solve_keeps_files. Qed.

Lemma keeps_files_call_batchnorm m x : keeps_files (call_batchnorm m x).
Proof. unfold call_batchnorm. solve_keeps_files. Qed.

#[local] Hint Resolve keeps_files_build_words keeps_files_FloatTensor
  keeps_files_call_batchnorm : files.

Lemma keeps_files_forward m x y : keeps_files (forward m x y).
Proof. unfold forward. solve_keeps_files. Qed.

#[local] Hint Resolve keeps_files_forward : files.

Lemma keeps_files_evaluate m n word_dim : keeps_files (evaluate m n word_dim).
Proof. unfold evaluate. solve_keeps_files. Qed.

Lemma keeps_files_draw_matrix r c : keeps_files (draw_matrix r c).
Proof. induction r as [|r IH]; cbn [draw_matrix]; solve_keeps_files. Qed.

#[local] Hint Resolve keeps_files_evaluate keeps_files_draw_matrix : files.

Lemma keeps_files_draw_tensor3 d0 d1 d2 : keeps_files (draw_tensor3 d0 d1 d2).
Proof. induction d0 as [|d0 IH]; cbn [draw_tensor3]; solve_keeps_files. Qed.

#[local] Hint Resolve keeps_files_draw_tensor3 : files.

Lemma keeps_files_init b : keeps_files (TxtClassifyModel_init b).
Proof. unfold TxtClassifyModel_init, Conv1d_init, Linear_init. solve_keeps_files. Qed.

#[local] Hint Resolve keeps_files_init : files.

Lemma keeps_files_for_each {A S} (body : S -> A -> Py S) (l : list A) :
  (forall s a, keeps_files (body s a)) -> forall s, keeps_files (for_each l body s).
Proof.
  intros Hbody. induction l as [|a l IH]; intros s; cbn [for_each].
  - apply keeps_files_ret.
  - apply keeps_files_bind; [apply Hbody | exact IH].
Qed.

Lemma keeps_files_predict_loop words : forall result labels,
  keeps_files (predict_loop words result labels).
Proof.
  induction words as [|word words IH]; intros [|pred result] [|label labels];
    cbn [predict_loop]; solve_keeps_files.
Qed.

#[local] Hint Resolve keeps_files_predict_loop : files.

Lemma keeps_files_predict path sample : keeps_files (predict path sample).
Proof. unfold predict. solve_keeps_files. Qed.

#[local] Hint Resolve keeps_files_predict : files.

Lemma keeps_files_script : keeps_files script.
Proof. unfold script. solve_keeps_files. Qed.

Lemma keeps_files_train_batch autograd b data labels st i :
  keeps_files (train_batch autograd b data labels st i).
Proof. unfold train_batch. solve_keeps_files. Qed.

Lemma keeps_files_train_epoch autograd word_dim b n data labels st epoch :
  keeps_files (train_epoch autograd word_dim b n data labels st epoch).
Proof.
  unfold train_epoch. destruct st as [[model optim] log].
  apply keeps_files_bind; [apply keeps_files_lift | intros batches].
  apply keeps_files_bind.
  - apply keeps_files_for_each. intros. apply keeps_files_train_batch.
  - intros [[m o] l]. solve_keeps_files.
Qed.

Lemma keeps_files_training_loop autograd word_dim epoch_num b n learning_rate :
  keeps_files (training_loop autograd word_dim epoch_num b n learning_rate).
Proof.
  unfold training_loop.
  apply keeps_files_bind; [apply keeps_files_init | intros model].
  apply keeps_files_bind; [apply keeps_files_build_words | intros [[ws cs] ls]].
  apply keeps_files_for_each. intros. apply keeps_files_train_epoch.
Qed.

Lemma main_ok autograd w :
  (forall m w0 x y, shapes (autograd m w0 x y) = shapes (parameters m)) ->
  exists model w',
    main autograd w = Ok (tt, w')
    /\ wf_model 25 model = true
    /\ files w' !! "txtclassify.pt" = Some (state_dict model).
Proof.
  intros Hshapes.
  destruct (training_loop_ok autograd Hshapes 10 500 25 5000 (1 / 1000)%R w)
    as (model & optim & log & w1 & Hrun & _ & _ & Hwf & _); [lia | lia |].
  exists model. eexists. split; [|split; [exact Hwf|]].
  - unfold main. rewrite (bind_ok _ _ _ _ _ Hrun). cbv beta iota.
    unfold bind, torch_save, print. cbv beta iota. reflexivity.
  - cbn [files]. apply lookup_insert_eq.
Qed.

(** X20.  The one write to the file system in the whole script is the
    [torch.save] at the end of [main].  The training loop, [evaluate],
    [predict] and the entry point leave every file as it was; they only
    move the two random generators forward and append to the output.
    After [main] the files are those from before with the state dict of
    the trained model under "txtclassify.pt", whatever gradients autograd
    computes. *)
Theorem only_main_writes_a_file
    (autograd : TxtClassifyModel -> world -> matrix -> list Z -> list tensor) :
  (forall word_dim epoch_num b n learning_rate,
      keeps_files (training_loop autograd word_dim epoch_num b n learning_rate))
  /\ (forall m n word_dim, keeps_files (evaluate m n word_dim))
  /\ (forall path sample, keeps_files (predict path sample))
  /\ keeps_files script
  /\ (forall w w',
        main autograd w = Ok (tt, w') ->
        exists model optim log w0,
          training_loop autograd 10 500 25 5000 (1 / 1000) w
          = Ok ((model, optim, log), w0)
          /\ files w' = <["txtclassify.pt" := state_dict model]> (files w)
          /\ stdout w'
             = stdout w0 ++ [LogLine log;
                             PlotLine "acc" (seq 0 (length log)) (map fst log);
                             PlotLine "loss" (seq 0 (length log)) (map snd log);
                             ShowPlot]).
Proof.
  split; [intros; apply keeps_files_training_loop|].
  split; [intros; apply keeps_files_evaluate|].
  split; [intros; apply keeps_files_predict|].
  split; [apply keeps_files_script|].
  intros w w'. unfold main. intros Hmain.
  apply bind_inv in Hmain as ([[model optim] log] & w0 & Hrun & Hrest).
  exists model, optim, log, w0. split; [exact Hrun|].
  pose proof (keeps_files_training_loop _ _ _ _ _ _ _ _ _ Hrun)
    as (_ & _ & _ & Hfiles & _).
  rewrite <- Hfiles. clear Hrun Hfiles.
  unfold bind, torch_save, print in Hrest. cbv beta iota in Hrest.
  injection Hrest as <-. cbn [files stdout].
  split; [reflexivity|]. rewrite <- !app_assoc. reflexivity.
Qed.

Lemma only_main_writes_a_file_witness :
  exists w' model optim log w0,
    main zero_gradient example_world = Ok (tt, w')
    /\ training_loop zero_gradient 10 500 25 5000 (1 / 1000) example_world
       = Ok ((model, optim, log), w0)
    /\ files w' = <["txtclassify.pt" := state_dict model]> (files example_world).
Proof.
  destruct (main_ok zero_gradient example_world zero_gradient_shapes)
    as (m0 & w' & Hmain & _).
  destruct (proj2 (proj2 (proj2 (proj2 (only_main_writes_a_file zero_gradient))))
              example_world w' Hmain) as (model & optim & log & w0 & Hrun & Hfiles & _).
  exists w', model, optim, log, w0.
  split; [exact Hmain | split; [exact Hrun | exact Hfiles]].
Defined.

(** ** Training, then predicting *)

(** X21.  The two halves of the script fit together: when autograd gives
    gradients of the parameters' shapes, [main] runs to its end, and the
    entry point run after it finds the file, loads it into its model for 25
    samples and returns.  It prints the sample and then one line for each
    of the 25 words, each with a lowercase letter as prediction, a
    probability in (0, 1] and the word's first letter as actual class, and
    it writes no file. *)
Theorem entry_point_after_main
    (autograd : TxtClassifyModel -> world -> matrix -> list Z -> list tensor)
    (w : world) :
  (forall m w0 x y, shapes (autograd m w0 x y) = shapes (parameters m)) ->
  exists w1 w2 words crclabels labels lines,
    main autograd w = Ok (tt, w1)
    /\ script w1 = Ok (tt, w2)
    /\ stdout w2 = stdout w1 ++ SampleLine words crclabels labels :: lines
    /\ length words = 25%nat /\ length lines = 25%nat
    /\ Forall predicted_line_ok lines
    /\ files w2 = files w1.
Proof.
  intros Hshapes.
  destruct (main_ok autograd w Hshapes) as (model & w1 & Hmain & Hwf & Hfile).
  destruct (build_words_ok 25 10 w1) as (ws & cs & ls & k & Hbw & Hs & Hlen & _);
    [lia|].
  destruct (np_skip_fields k w1) as (_ & _ & _ & _ & _ & Hfk & Hok).
  set (w1' := {| np_tape := np_tape (np_skip k w1); np_pos := np_pos (np_skip k w1);
                 torch_unif := torch_unif (np_skip k w1);
                 torch_bern := torch_bern (np_skip k w1);
                 torch_pos := torch_pos (np_skip k w1);
                 files := files (np_skip k w1);
                 stdout := stdout (np_skip k w1) ++ [SampleLine ws cs ls] |}).
  destruct (predict_run model "txtclassify.pt" ws cs ls w1' Hwf)
    as (s & w2 & _ & Hsc & Hp & Hout & Hfiles); [| exact Hs | exact Hlen |].
  { unfold w1'. cbn [files]. now rewrite Hfk. }
  destruct (predict_lines_count ws cs ls s Hs Hlen Hsc) as [Hn Hall].
  exists w1, w2, ws, cs, ls, (zip_with3 predict_line ws (Softmax s) ls).
  split; [exact Hmain|]. split.
  - unfold script. rewrite (bind_ok _ _ _ _ _ Hbw). cbv beta iota.
    unfold bind at 1. unfold print at 1. cbv beta iota. exact Hp.
  - split; [|split; [exact Hlen|split; [exact Hn|split; [exact Hall|]]]].
    + rewrite Hout. unfold w1'. cbn [stdout]. rewrite Hok, <- app_assoc. reflexivity.
    + rewrite Hfiles. unfold w1'. cbn [files]. exact Hfk.
Qed.

Lemma entry_point_after_main_witness :
  exists w1 w2 words crclabels labels lines,
    main zero_gradient example_world = Ok (tt, w1)
    /\ script w1 = Ok (tt, w2)
    /\ stdout w2 = stdout w1 ++ SampleLine words crclabels labels :: lines
    /\ length words = 25%nat /\ length lines = 25%nat
    /\ Forall predicted_line_ok lines
    /\ files w2 = files w1.
Proof.
  exact (entry_point_after_main zero_gradient example_world zero_gradient_shapes).
Defined.
